(** * ClaudeBot dashboard: access verification, configuration store,
      stats reader and guild-scoped endpoints

    A shallow embedding of

    - [dashboard/src/lib/discord.ts]        (permission source adapter),
    - [dashboard/src/lib/config.types.ts]   (interfaces and defaults),
    - [dashboard/src/lib/config.server.ts]  (configuration store, stats reader),
    - [dashboard/src/app/api/guilds/[guildId]/{config,commands,prompt,stats}/route.ts]
      (the guild-scoped endpoints) and [dashboard/src/app/api/guilds/route.ts].

    Conventions of the embedding.

    - A JavaScript string is the list of its UTF-16 code units.
    - An [async] function is a computation that either returns or throws
      (a rejected promise); the ones that touch the file system or the
      clock thread a [World].
    - The TypeScript interfaces are records.  A file is represented by what
      [readFile] followed by [JSON.parse] makes of its text.
    - What the platform supplies (the Discord API, [path.join],
      [localeCompare], the process environment, the clock) is gathered in
      an environment record [Env]; every statement holds for all of them
      unless it says otherwise. *)

From Stdlib Require Import ZArith QArith List Permutation Sorted String Ascii.
From stdpp Require Import gmap list.

Local Open Scope Z_scope.

(** ** JavaScript strings *)

Abbreviation jsstring := (list N) (only parsing).

(** The code units of an ASCII literal. *)
Definition js (s : string) : jsstring :=
  map N_of_ascii (list_ascii_of_string s).

(** ECMAScript [WhiteSpace] and [LineTerminator] code points, the ones
    [String.prototype.trim] and [StringToBigInt] strip. *)
Definition isWhiteSpace (c : N) : bool :=
  ((c =? 0x09) || (c =? 0x0A) || (c =? 0x0B) || (c =? 0x0C) || (c =? 0x0D)
   || (c =? 0x20) || (c =? 0xA0) || (c =? 0x1680)
   || ((0x2000 <=? c) && (c <=? 0x200A))
   || (c =? 0x2028) || (c =? 0x2029) || (c =? 0x202F) || (c =? 0x205F)
   || (c =? 0x3000) || (c =? 0xFEFF))%N.

Fixpoint trimStart (s : jsstring) : jsstring :=
  match s with
  | [] => []
  | c :: s' => if isWhiteSpace c then trimStart s' else s
  end.

Definition trimEnd (s : jsstring) : jsstring := rev (trimStart (rev s)).

(** [String.prototype.trim]. *)
Definition trim (s : jsstring) : jsstring := trimEnd (trimStart s).

(** A string that is empty or made of white space only. *)
Definition blank (s : jsstring) : Prop := Forall (fun c => isWhiteSpace c = true) s.

(** JavaScript's [<] on strings: code units compared left to right. *)
Fixpoint jsstring_ltb (a b : jsstring) : bool :=
  match a, b with
  | _, [] => false
  | [], _ :: _ => true
  | x :: a', y :: b' => (x <? y)%N || ((x =? y)%N && jsstring_ltb a' b')
  end.

(** ** Thrown values and results *)

Inductive Exn : Type :=
| FetchGuildsError (status : Z)   (* new Error(`Failed to fetch guilds: ${status}`) *)
| NetworkError                    (* fetch rejected *)
| SyntaxError                     (* JSON.parse, response.json(), BigInt *)
| TypeError                       (* property read on null *)
| ENOENT                          (* readFile: no such file or directory *)
| EACCES.                         (* readFile, mkdir, writeFile: refused *)

Inductive result (A : Type) : Type :=
| Ok (a : A)
| Throw (e : Exn).
Arguments Ok {A} a.
Arguments Throw {A} e.

Definition rbind {A B} (r : result A) (k : A → result B) : result B :=
  match r with
  | Ok a => k a
  | Throw e => Throw e
  end.

Notation "'let?' x ':=' r 'in' k" := (rbind r (fun x => k))
  (at level 10, x name, r at level 100, k at level 200,
   format "'let?'  x  :=  r  'in'  '/' k").

(** ** [BigInt(string)]

    [StringToBigInt]: surrounding white space is dropped, the empty string
    is [0n], a decimal literal may carry a sign, a literal with a [0x],
    [0o] or [0b] prefix may not; anything else is a [SyntaxError]. *)

(** The value of a digit: 0-9, a-f, A-F. *)
Definition digit_value (c : N) : option Z :=
  if ((48 <=? c) && (c <=? 57))%N then Some (Z.of_N (c - 48))
  else if ((97 <=? c) && (c <=? 102))%N then Some (Z.of_N (c - 87))
  else if ((65 <=? c) && (c <=? 70))%N then Some (Z.of_N (c - 55))
  else None.

Fixpoint digits_value (radix acc : Z) (s : jsstring) : option Z :=
  match s with
  | [] => Some acc
  | c :: s' =>
      match digit_value c with
      | Some d => if d <? radix then digits_value radix (acc * radix + d) s' else None
      | None => None
      end
  end.

Definition parse_digits (radix : Z) (s : jsstring) : option Z :=
  match s with
  | [] => None
  | _ :: _ => digits_value radix 0 s
  end.

Definition radix_of_prefix (c : N) : option Z :=
  if ((c =? 120) || (c =? 88))%N then Some 16
  else if ((c =? 111) || (c =? 79))%N then Some 8
  else if ((c =? 98) || (c =? 66))%N then Some 2
  else None.

Definition StringToBigInt (s : jsstring) : option Z :=
  match trim s with
  | [] => Some 0
  | c :: rest =>
      if (c =? 43)%N then parse_digits 10 rest
      else if (c =? 45)%N then Z.opp <$> parse_digits 10 rest
      else
        match (if (c =? 48)%N then head rest ≫= radix_of_prefix else None) with
        | Some radix => parse_digits radix (tail rest)
        | None => parse_digits 10 (c :: rest)
        end
  end.

Definition BigInt (s : jsstring) : result Z :=
  match StringToBigInt s with
  | Some n => Ok n
  | None => Throw SyntaxError
  end.

(** ** discord.ts *)

Definition MANAGE_GUILD : Z := 0x20.
Definition ADMINISTRATOR : Z := 0x8.

Module DiscordGuild.
Record t : Type := mk {
  id : jsstring;
  name : jsstring;
  icon : option jsstring;
  owner : bool;
  permissions : jsstring;
}.
End DiscordGuild.

Module ManageableGuild.
Record t : Type := mk {
  id : jsstring;
  name : jsstring;
  icon : option jsstring;
  hasBot : bool;
}.
End ManageableGuild.

(** What [fetch] followed by [response.json()] can come to. *)
Inductive FetchOutcome (A : Type) : Type :=
| FetchRejected                 (* fetch itself rejects *)
| HttpError (status : Z)        (* !response.ok *)
| BodyUnusable                  (* response.json() rejects, or the body has the wrong shape *)
| HttpOk (payload : A).
Arguments FetchRejected {A}.
Arguments HttpError {A} status.
Arguments BodyUnusable {A}.
Arguments HttpOk {A} payload.

(** The platform, as far as the code depends on it. *)
Record Env : Type := {
  (* GET /users/@me/guilds with `Bearer ${accessToken}` *)
  discord_user_guilds : jsstring → FetchOutcome (list DiscordGuild.t);
  (* process.env.DISCORD_BOT_TOKEN *)
  DISCORD_BOT_TOKEN : option jsstring;
  (* GET /users/@me/guilds with `Bot ${botToken}` *)
  discord_bot_guilds : jsstring → FetchOutcome (list DiscordGuild.t);
  (* String.prototype.localeCompare *)
  localeCompare : jsstring → jsstring → Z;
  (* getConfigPath() *)
  configDir : jsstring;
  (* path.join *)
  path_join : jsstring → jsstring → jsstring;
  (* the n-th evaluation of new Date().toISOString() *)
  clock : nat → jsstring;
}.

Definition getUserGuilds (env : Env) (accessToken : jsstring)
  : result (list DiscordGuild.t) :=
  match discord_user_guilds env accessToken with
  | FetchRejected => Throw NetworkError
  | HttpError status => Throw (FetchGuildsError status)
  | BodyUnusable => Throw SyntaxError
  | HttpOk guilds => Ok guilds
  end.

Definition canManageGuild (guild : DiscordGuild.t) : result bool :=
  let? permissions := BigInt (DiscordGuild.permissions guild) in
  Ok (DiscordGuild.owner guild
      || (Z.land permissions ADMINISTRATOR =? ADMINISTRATOR)
      || (Z.land permissions MANAGE_GUILD =? MANAGE_GUILD)).

(** [!botToken]: unset, or set to the empty string. *)
Definition usable_token (t : option jsstring) : option jsstring :=
  match t with
  | Some (c :: s) => Some (c :: s)
  | _ => None
  end.

(** Every failure is caught and replaced by the empty list: this function
    never throws. *)
Definition getBotGuilds (env : Env) : list jsstring :=
  match usable_token (DISCORD_BOT_TOKEN env) with
  | None => []
  | Some botToken =>
      match discord_bot_guilds env botToken with
      | HttpOk guilds => map DiscordGuild.id guilds
      | HttpError _ => []
      | FetchRejected | BodyUnusable => []
      end
  end.

(** [Array.prototype.filter] with a callback that may throw. *)
Fixpoint filter_result {A} (p : A → result bool) (l : list A) : result (list A) :=
  match l with
  | [] => Ok []
  | x :: l' =>
      let? b := p x in
      let? r := filter_result p l' in
      Ok (if b then x :: r else r)
  end.

(** [Array.prototype.sort] is stable; for a consistent comparator its result
    is the one of this insertion sort. *)
Fixpoint sort_insert {A} (cmp : A → A → Z) (x : A) (l : list A) : list A :=
  match l with
  | [] => [x]
  | y :: l' => if cmp x y <=? 0 then x :: y :: l' else y :: sort_insert cmp x l'
  end.

Definition Array_sort {A} (cmp : A → A → Z) (l : list A) : list A :=
  foldr (sort_insert cmp) [] l.

(** The comparator of [getManageableGuilds]: guilds with the bot first, then
    by name. *)
Definition compareGuilds (env : Env) (a b : ManageableGuild.t) : Z :=
  if ManageableGuild.hasBot a && negb (ManageableGuild.hasBot b) then -1
  else if negb (ManageableGuild.hasBot a) && ManageableGuild.hasBot b then 1
  else localeCompare env (ManageableGuild.name a) (ManageableGuild.name b).

Definition toManageable (botGuildSet : gset jsstring) (guild : DiscordGuild.t)
  : ManageableGuild.t :=
  {| ManageableGuild.id := DiscordGuild.id guild;
     ManageableGuild.name := DiscordGuild.name guild;
     ManageableGuild.icon := DiscordGuild.icon guild;
     ManageableGuild.hasBot := bool_decide (DiscordGuild.id guild ∈ botGuildSet) |}.

Definition getManageableGuilds (env : Env) (accessToken : jsstring)
  : result (list ManageableGuild.t) :=
  let? userGuilds := getUserGuilds env accessToken in
  let botGuildIds := getBotGuilds env in
  let botGuildSet : gset jsstring := list_to_set botGuildIds in
  let? manageable := filter_result canManageGuild userGuilds in
  Ok (Array_sort (compareGuilds env) (map (toManageable botGuildSet) manageable)).

(** ** verifyAccess (config, commands and prompt routes: the same text) *)

Inductive Access : Type :=
| Denied                          (* { authorized: false } *)
| Granted (guildName : jsstring). (* { authorized: true, guildName: guild.name } *)

Definition authorized (access : Access) : bool :=
  match access with
  | Denied => false
  | Granted _ => true
  end.

Definition verifyAccess (env : Env) (guildId accessToken : jsstring)
  : result Access :=
  let? guilds := getManageableGuilds env accessToken in
  match find (λ g, bool_decide (ManageableGuild.id g = guildId)) guilds with
  | Some guild =>
      if ManageableGuild.hasBot guild
      then Ok (Granted (ManageableGuild.name guild))
      else Ok Denied
  | None => Ok Denied
  end.

(** ** config.types.ts *)

(** A JavaScript number.  The code stores and copies numbers and never
    computes with them. *)
Abbreviation number := Q (only parsing).

Module GuildSettings.
Record t : Type := mk {
  maxTokensPerChannel : number;
  messageExpiryDays : number;
  charsPerTokenEstimate : number;
  maxResponseTokens : number;
  scoreThreshold : number;
  rateLimitSeconds : number;
  temperature : number;
  model : jsstring;
  skipCategories : list jsstring;
}.
End GuildSettings.

Module GuildCommands.
Record t : Type := mk {
  beer : bool;
  ping : bool;
  uptime : bool;
  cacheStats : bool;
  clearCache : bool;
}.
End GuildCommands.

Module GuildConfig.
Record t : Type := mk {
  guildId : jsstring;
  guildName : jsstring;
  settings : GuildSettings.t;
  commands : GuildCommands.t;
  systemPrompt : option jsstring;      (* string | null *)
  updatedAt : jsstring;
  updatedBy : jsstring;
}.
End GuildConfig.

(** [Partial<GuildSettings>]: [None] is a key the object does not have. *)
Module PartialSettings.
Record t : Type := mk {
  maxTokensPerChannel : option number;
  messageExpiryDays : option number;
  charsPerTokenEstimate : option number;
  maxResponseTokens : option number;
  scoreThreshold : option number;
  rateLimitSeconds : option number;
  temperature : option number;
  model : option jsstring;
  skipCategories : option (list jsstring);
}.
Definition empty : t := mk None None None None None None None None None.
End PartialSettings.

(** [Partial<GuildCommands>]. *)
Module PartialCommands.
Record t : Type := mk {
  beer : option bool;
  ping : option bool;
  uptime : option bool;
  cacheStats : option bool;
  clearCache : option bool;
}.
Definition empty : t := mk None None None None None.
End PartialCommands.

Definition DEFAULT_SETTINGS : GuildSettings.t :=
  {| GuildSettings.maxTokensPerChannel := (150000 # 1)%Q;
     GuildSettings.messageExpiryDays := (30 # 1)%Q;
     GuildSettings.charsPerTokenEstimate := (4 # 1)%Q;
     GuildSettings.maxResponseTokens := (300 # 1)%Q;
     GuildSettings.scoreThreshold := (8 # 1)%Q;
     GuildSettings.rateLimitSeconds := (2 # 1)%Q;
     GuildSettings.temperature := (7 # 10)%Q;
     GuildSettings.model := js "claude-sonnet-4-5-20250929";
     GuildSettings.skipCategories := [js "Information"] |}.

Definition DEFAULT_COMMANDS : GuildCommands.t :=
  {| GuildCommands.beer := true;
     GuildCommands.ping := true;
     GuildCommands.uptime := true;
     GuildCommands.cacheStats := true;
     GuildCommands.clearCache := true |}.

(** The double quote, and the line feed, as strings. *)
Definition dq : string := String (ascii_of_nat 34) EmptyString.
Definition lf : string := String (ascii_of_nat 10) EmptyString.

Definition DEFAULT_SYSTEM_PROMPT : jsstring :=
  js (String.concat lf
    [
     "You are a helpful, witty Discord bot in a casual server.";
     EmptyString;
     "RESPONSE RULES:";
     "- Keep responses to 1-3 sentences MAX. Be brief.";
     "- Aim to be the 5th-6th most active participant in server (your name is " ++ dq ++ "ClaudeBot" ++ dq ++ " in " ++ dq ++ "Recent Conversation:" ++ dq ++ ")";
     "- Use recent conversation and if you notice you haven't chatted in awhile, raise your score accordingly.";
     "- Most conversations don't need your input - only add high value responses";
     "- Only respond if directly mentioned OR you can add genuinely valuable input";
     "- NEVER end with follow-up questions";
     EmptyString;
     "MENTION FORMAT:";
     "- Messages starting with [MENTIONED] mean the user addressed you (@ClaudeBot or " ++ dq ++ "ClaudeBot" ++ dq ++ ") These deserve a response (score 9+)";
     "- Note: " ++ dq ++ "claude" ++ dq ++ " alone is ambiguous (could mean Claude AI service or ClaudeBot) - use context to decide";
     EmptyString;
     "SCORING (rate your response 0-10):";
     "10 = [MENTIONED] AND asked a clear question you can answer";
     "9 = [MENTIONED] OR celebrate someone's accomplishment";
     "8 = Can provide high value while staying the 5th-6th most active participant";
     "5-7 = Might be interesting but doesn't need your input";
     "0-4 = Skip it - normal chat between other users";
     EmptyString;
     "CATEGORY CONTEXT:";
     "- " ++ dq ++ "Information" ++ dq ++ " = NEVER respond (score 0)";
     "- " ++ dq ++ "tech-and-career" ++ dq ++ " = Usually networking. BUT celebrate accomplishments! (score 8)";
     "- " ++ dq ++ "Text Channels" ++ dq ++ " = May engage if valuable";
     EmptyString;
     "FORMAT: Write your brief response, then on a new line: SCORE: X"
    ]%string).

(** [{ ...base, ...over }] at [GuildSettings]. *)
Definition spread_settings (base : GuildSettings.t) (over : PartialSettings.t)
  : GuildSettings.t :=
  {| GuildSettings.maxTokensPerChannel :=
       default (GuildSettings.maxTokensPerChannel base) (PartialSettings.maxTokensPerChannel over);
     GuildSettings.messageExpiryDays :=
       default (GuildSettings.messageExpiryDays base) (PartialSettings.messageExpiryDays over);
     GuildSettings.charsPerTokenEstimate :=
       default (GuildSettings.charsPerTokenEstimate base) (PartialSettings.charsPerTokenEstimate over);
     GuildSettings.maxResponseTokens :=
       default (GuildSettings.maxResponseTokens base) (PartialSettings.maxResponseTokens over);
     GuildSettings.scoreThreshold :=
       default (GuildSettings.scoreThreshold base) (PartialSettings.scoreThreshold over);
     GuildSettings.rateLimitSeconds :=
       default (GuildSettings.rateLimitSeconds base) (PartialSettings.rateLimitSeconds over);
     GuildSettings.temperature :=
       default (GuildSettings.temperature base) (PartialSettings.temperature over);
     GuildSettings.model :=
       default (GuildSettings.model base) (PartialSettings.model over);
     GuildSettings.skipCategories :=
       default (GuildSettings.skipCategories base) (PartialSettings.skipCategories over) |}.

(** [{ ...base, ...over }] at [GuildCommands]. *)
Definition spread_commands (base : GuildCommands.t) (over : PartialCommands.t)
  : GuildCommands.t :=
  {| GuildCommands.beer := default (GuildCommands.beer base) (PartialCommands.beer over);
     GuildCommands.ping := default (GuildCommands.ping base) (PartialCommands.ping over);
     GuildCommands.uptime := default (GuildCommands.uptime base) (PartialCommands.uptime over);
     GuildCommands.cacheStats :=
       default (GuildCommands.cacheStats base) (PartialCommands.cacheStats over);
     GuildCommands.clearCache :=
       default (GuildCommands.clearCache base) (PartialCommands.clearCache over) |}.

(** ** JSON values (the stats artifact is read without trusting its shape) *)

#[local] Set Warnings "-register-all".
Inductive JsValue : Type :=
| JNull
| JBool (b : bool)
| JNumber (q : number)
| JString (s : jsstring)
| JArray (items : list JsValue)
| JObject (props : gmap jsstring JsValue).

(** ToBoolean on a JSON value. *)
Definition truthy (v : JsValue) : bool :=
  match v with
  | JNull => false
  | JBool b => b
  | JNumber q => negb (Qnum q =? 0)
  | JString s => match s with [] => false | _ :: _ => true end
  | JArray _ | JObject _ => true
  end.

(** The canonical array index a property key spells, if any. *)
Definition array_index (k : jsstring) : option nat :=
  match k with
  | [] => None
  | c :: rest =>
      if ((c =? 48)%N && match rest with [] => false | _ :: _ => true end)
      then None
      else Z.to_nat <$> digits_value 10 0 k
  end.

(** [v[k]] for a JSON value [v] other than null; [None] is [undefined].
    Methods inherited from a prototype are not JSON values: every property
    the code below goes on to read from one is [undefined], as it is on
    [undefined] itself, so they are [None] here. *)
Definition get_prop (v : JsValue) (k : jsstring) : option JsValue :=
  match v with
  | JObject props => props !! k
  | JArray items =>
      if bool_decide (k = js "length") then Some (JNumber (Z.of_nat (length items) # 1)%Q)
      else array_index k ≫= (items !!.)
  | JString s =>
      if bool_decide (k = js "length") then Some (JNumber (Z.of_nat (length s) # 1)%Q)
      else (λ c, JString [c]) <$> (array_index k ≫= (s !!.))
  | JNull | JBool _ | JNumber _ => None
  end.

(** [o?.[k]]: [undefined] when [o] is [undefined] or [null]. *)
Definition get_prop_opt (o : option JsValue) (k : jsstring) : option JsValue :=
  match o with
  | None | Some JNull => None
  | Some v => get_prop v k
  end.

(** [x ?? d]. *)
Definition nullish_or (x : option JsValue) (d : JsValue) : JsValue :=
  match x with
  | None | Some JNull => d
  | Some v => v
  end.

(** ** The world: files and clock *)

(** A file, by what reading and parsing it gives.  File modes are not
    tracked: [Unreadable] says that [readFile] rejects the file as it is
    now, and a file the process has written reads as what was written. *)
Inductive FileContent (A : Type) : Type :=
| Unreadable            (* readFile rejects although the file is there *)
| Malformed             (* JSON.parse throws on the text *)
| Json (v : A).         (* JSON.parse returns [v] *)
Arguments Unreadable {A}.
Arguments Malformed {A}.
Arguments Json {A} v.

(** [JSON.stringify(config, null, 2)]: the text that parses back to the
    record. *)
Definition JSON_stringify (config : GuildConfig.t) : FileContent (option GuildConfig.t) :=
  Json (Some config).

Definition JSON_parse {A} (content : FileContent A) : result A :=
  match content with
  | Json v => Ok v
  | Malformed | Unreadable => Throw SyntaxError
  end.

Record World : Type := mkWorld {
  (* the files under getConfigPath() by path ([None] in [Json None]: the JSON
     literal null); [None]: the directory does not exist *)
  config_files : option (gmap jsstring (FileContent (option GuildConfig.t)));
  (* the file at getStatsPath() *)
  stats_file : option (FileContent JsValue);
  (* paths on which mkdir and writeFile are refused *)
  denied : gset jsstring;
  (* how often the clock has been read *)
  ticks : nat;
}.

Definition M (A : Type) : Type := World → result A * World.

Definition ret {A} (a : A) : M A := λ w, (Ok a, w).

Definition bind {A B} (m : M A) (k : A → M B) : M B :=
  λ w, match m w with
       | (Ok a, w') => k a w'
       | (Throw e, w') => (Throw e, w')
       end.

(** [try { m } catch (e) { handler e }]. *)
Definition try_catch {A} (m : M A) (handler : Exn → M A) : M A :=
  λ w, match m w with
       | (Ok a, w') => (Ok a, w')
       | (Throw e, w') => handler e w'
       end.

(** A computation that does not touch the world. *)
Definition lift {A} (r : result A) : M A := λ w, (r, w).

Notation "'let*' x ':=' m 'in' k" := (bind m (fun x => k))
  (at level 10, x name, m at level 100, k at level 200,
   format "'let*'  x  :=  m  'in'  '/' k").

Definition readFile_config (path : jsstring)
  : M (FileContent (option GuildConfig.t)) :=
  λ w, match config_files w ≫= (.!! path) with
       | None => (Throw ENOENT, w)
       | Some Unreadable => (Throw EACCES, w)
       | Some content => (Ok content, w)
       end.

Definition readFile_stats : M (FileContent JsValue) :=
  λ w, match stats_file w with
       | None => (Throw ENOENT, w)
       | Some Unreadable => (Throw EACCES, w)
       | Some content => (Ok content, w)
       end.

Definition existsSync_configDir : M bool :=
  λ w, (Ok (bool_decide (is_Some (config_files w))), w).

(** [mkdir(configDir, { recursive: true })]. *)
Definition mkdir (dir : jsstring) : M unit :=
  λ w, if bool_decide (dir ∈ denied w) then (Throw EACCES, w)
       else (Ok tt, mkWorld (Some (default ∅ (config_files w)))
                            (stats_file w) (denied w) (ticks w)).

(** [writeFile(path, text, 'utf-8')].  A refused write is one the file
    system refuses when it opens the file ([EACCES]), which leaves the file
    as it is; a failure after the open, which leaves a truncated file, is
    not modelled. *)
Definition writeFile (path : jsstring) (content : FileContent (option GuildConfig.t))
  : M unit :=
  λ w, match config_files w with
       | None => (Throw ENOENT, w)
       | Some files =>
           if bool_decide (path ∈ denied w) then (Throw EACCES, w)
           else (Ok tt, mkWorld (Some (<[path := content]> files))
                                (stats_file w) (denied w) (ticks w))
       end.

(** [new Date().toISOString()]. *)
Definition Date_toISOString (env : Env) : M jsstring :=
  λ w, (Ok (clock env (ticks w)),
        mkWorld (config_files w) (stats_file w) (denied w) (S (ticks w))).

(** ** config.server.ts *)

(** [path.join(configDir, `${guildId}.json`)]. *)
Definition config_path (env : Env) (guildId : jsstring) : jsstring :=
  path_join env (configDir env) (guildId ++ js ".json").

Definition getGuildConfig (env : Env) (guildId : jsstring)
  : M (option GuildConfig.t) :=
  let filePath := config_path env guildId in
  try_catch
    (let* content := readFile_config filePath in
     lift (JSON_parse content))
    (λ _, ret None).

Definition saveGuildConfig (env : Env) (config : GuildConfig.t) : M unit :=
  let filePath := config_path env (GuildConfig.guildId config) in
  let* dirExists := existsSync_configDir in
  let* _ := (if negb dirExists then mkdir (configDir env) else ret tt) in
  writeFile filePath (JSON_stringify config).

Definition getOrCreateGuildConfig (env : Env) (guildId guildName : jsstring)
  : M GuildConfig.t :=
  let* existing := getGuildConfig env guildId in
  match existing with
  | Some existing => ret existing
  | None =>
      let* now := Date_toISOString env in
      let newConfig :=
        {| GuildConfig.guildId := guildId;
           GuildConfig.guildName := guildName;
           GuildConfig.settings := DEFAULT_SETTINGS;
           GuildConfig.commands := DEFAULT_COMMANDS;
           GuildConfig.systemPrompt := None;
           GuildConfig.updatedAt := now;
           GuildConfig.updatedBy := js "system" |} in
      let* _ := saveGuildConfig env newConfig in
      ret newConfig
  end.

(** [settings] is [None] when the caller passes [undefined]: spreading
    [undefined] adds nothing. *)
Definition updateGuildSettings (env : Env) (guildId guildName : jsstring)
    (settings : option PartialSettings.t) (updatedBy : jsstring)
  : M GuildConfig.t :=
  let* config := getOrCreateGuildConfig env guildId guildName in
  let* now := Date_toISOString env in
  let config :=
    {| GuildConfig.guildId := GuildConfig.guildId config;
       GuildConfig.guildName := GuildConfig.guildName config;
       GuildConfig.settings :=
         spread_settings (GuildConfig.settings config)
                         (default PartialSettings.empty settings);
       GuildConfig.commands := GuildConfig.commands config;
       GuildConfig.systemPrompt := GuildConfig.systemPrompt config;
       GuildConfig.updatedAt := now;
       GuildConfig.updatedBy := updatedBy |} in
  let* _ := saveGuildConfig env config in
  ret config.

Definition updateGuildCommands (env : Env) (guildId guildName : jsstring)
    (commands : option PartialCommands.t) (updatedBy : jsstring)
  : M GuildConfig.t :=
  let* config := getOrCreateGuildConfig env guildId guildName in
  let* now := Date_toISOString env in
  let config :=
    {| GuildConfig.guildId := GuildConfig.guildId config;
       GuildConfig.guildName := GuildConfig.guildName config;
       GuildConfig.settings := GuildConfig.settings config;
       GuildConfig.commands :=
         spread_commands (GuildConfig.commands config)
                         (default PartialCommands.empty commands);
       GuildConfig.systemPrompt := GuildConfig.systemPrompt config;
       GuildConfig.updatedAt := now;
       GuildConfig.updatedBy := updatedBy |} in
  let* _ := saveGuildConfig env config in
  ret config.

Definition updateGuildPrompt (env : Env) (guildId guildName : jsstring)
    (systemPrompt : option jsstring) (updatedBy : jsstring)
  : M GuildConfig.t :=
  let* config := getOrCreateGuildConfig env guildId guildName in
  let* now := Date_toISOString env in
  let config :=
    {| GuildConfig.guildId := GuildConfig.guildId config;
       GuildConfig.guildName := GuildConfig.guildName config;
       GuildConfig.settings := GuildConfig.settings config;
       GuildConfig.commands := GuildConfig.commands config;
       GuildConfig.systemPrompt := systemPrompt;
       GuildConfig.updatedAt := now;
       GuildConfig.updatedBy := updatedBy |} in
  let* _ := saveGuildConfig env config in
  ret config.

(** [null] from the catch clause and a parsed [null] are the same value. *)
Definition getBotStats : M JsValue :=
  try_catch
    (let* content := readFile_stats in
     lift (JSON_parse content))
    (λ _, ret JNull).

Module GuildStats.
Record t : Type := mk {
  messagesCached : JsValue;
  tokensUsed : JsValue;
  lastActivity : JsValue;
  botUptime : JsValue;
  botLatency : JsValue;
}.
End GuildStats.

Definition getGuildStats (guildId : jsstring) : M (option GuildStats.t) :=
  let* stats := getBotStats in
  if negb (truthy stats) then ret None
  else
    let guildStats := get_prop_opt (get_prop stats (js "guilds")) guildId in
    ret (Some
      {| GuildStats.messagesCached :=
           nullish_or (get_prop_opt guildStats (js "messagesCached")) (JNumber 0);
         GuildStats.tokensUsed :=
           nullish_or (get_prop_opt guildStats (js "tokensUsed")) (JNumber 0);
         GuildStats.lastActivity :=
           nullish_or (get_prop_opt guildStats (js "lastActivity")) (JString (js "Never"));
         GuildStats.botUptime :=
           nullish_or (get_prop stats (js "uptime")) (JString (js "Unknown"));
         GuildStats.botLatency :=
           nullish_or (get_prop stats (js "latency")) (JNumber 0) |}).

(** ** The guild-scoped endpoints *)

Record Session : Type := {
  accessToken : option jsstring;     (* accessToken?: string *)
  user_id : jsstring;                (* user.id *)
}.

(** [body.systemPrompt]. *)
Inductive PromptField : Type :=
| PromptMissing                 (* undefined or null *)
| PromptText (s : jsstring)
| PromptOther.                  (* any other value: it has no callable trim *)

Record BodyFields : Type := {
  body_settings : option PartialSettings.t;     (* body.settings *)
  body_commands : option PartialCommands.t;     (* body.commands *)
  body_systemPrompt : PromptField;
}.

(** What [request.json()] comes to. *)
Inductive RequestBody : Type :=
| BodyUnreadable                (* request.json() rejects *)
| BodyNull                      (* the JSON literal null *)
| BodyValue (fields : BodyFields).

Record Request : Type := {
  session : option Session;     (* await auth() *)
  guildId : jsstring;           (* (await params).guildId *)
  body : RequestBody;
}.

Inductive ResponseBody : Type :=
| ErrorBody (error : jsstring)
| ConfigBody (config : GuildConfig.t)
| CommandsBody (commands : GuildCommands.t)
| PromptInfo (systemPrompt : option jsstring) (defaultPrompt : jsstring) (isCustom : bool)
| PromptUpdated (systemPrompt : option jsstring) (isCustom : bool)
| StatsBody (stats : GuildStats.t)
| GuildsBody (guilds : list ManageableGuild.t).

Record Response : Type := {
  status : Z;
  payload : ResponseBody;
}.

(** [NextResponse.json(data)] and [NextResponse.json(data, { status })]. *)
Definition NextResponse_json (data : ResponseBody) : Response :=
  {| status := 200; payload := data |}.

Definition NextResponse_error (error : string) (code : Z) : Response :=
  {| status := code; payload := ErrorBody (js error) |}.

(** [session?.accessToken], when truthy. *)
Definition session_token (request : Request) : option jsstring :=
  usable_token (session request ≫= accessToken).

(** [session.user.id]; the session is there once its token has been read. *)
Definition session_user_id (request : Request) : jsstring :=
  default [] (user_id <$> session request).

(** [await request.json()] followed by the first property read on it. *)
Definition request_fields (request : Request) : result BodyFields :=
  match body request with
  | BodyUnreadable => Throw SyntaxError
  | BodyNull => Throw TypeError
  | BodyValue fields => Ok fields
  end.

(** [body.systemPrompt?.trim() || null]. *)
Definition promptValue (p : PromptField) : result (option jsstring) :=
  match p with
  | PromptMissing => Ok None
  | PromptText s =>
      match trim s with
      | [] => Ok None
      | c :: t => Ok (Some (c :: t))
      end
  | PromptOther => Throw TypeError
  end.

Definition isCustom_of (systemPrompt : option jsstring) : bool :=
  bool_decide (systemPrompt ≠ None).

Module ConfigRoute.

Definition GET (env : Env) (request : Request) : M Response :=
  match session_token request with
  | None => ret (NextResponse_error "Unauthorized" 401)
  | Some accessToken =>
      let* access := lift (verifyAccess env (guildId request) accessToken) in
      match access with
      | Denied => ret (NextResponse_error "Forbidden" 403)
      | Granted guildName =>
          try_catch
            (let* config := getOrCreateGuildConfig env (guildId request) guildName in
             ret (NextResponse_json (ConfigBody config)))
            (λ _, ret (NextResponse_error "Failed to get config" 500))
      end
  end.

Definition PUT (env : Env) (request : Request) : M Response :=
  match session_token request with
  | None => ret (NextResponse_error "Unauthorized" 401)
  | Some accessToken =>
      let* access := lift (verifyAccess env (guildId request) accessToken) in
      match access with
      | Denied => ret (NextResponse_error "Forbidden" 403)
      | Granted guildName =>
          try_catch
            (let* body := lift (request_fields request) in
             let* config :=
               updateGuildSettings env (guildId request) guildName
                 (body_settings body) (session_user_id request) in
             ret (NextResponse_json (ConfigBody config)))
            (λ _, ret (NextResponse_error "Failed to update config" 500))
      end
  end.

End ConfigRoute.

Module CommandsRoute.

Definition GET (env : Env) (request : Request) : M Response :=
  match session_token request with
  | None => ret (NextResponse_error "Unauthorized" 401)
  | Some accessToken =>
      let* access := lift (verifyAccess env (guildId request) accessToken) in
      match access with
      | Denied => ret (NextResponse_error "Forbidden" 403)
      | Granted guildName =>
          try_catch
            (let* config := getOrCreateGuildConfig env (guildId request) guildName in
             ret (NextResponse_json (CommandsBody (GuildConfig.commands config))))
            (λ _, ret (NextResponse_error "Failed to get commands" 500))
      end
  end.

Definition PUT (env : Env) (request : Request) : M Response :=
  match session_token request with
  | None => ret (NextResponse_error "Unauthorized" 401)
  | Some accessToken =>
      let* access := lift (verifyAccess env (guildId request) accessToken) in
      match access with
      | Denied => ret (NextResponse_error "Forbidden" 403)
      | Granted guildName =>
          try_catch
            (let* body := lift (request_fields request) in
             let* config :=
               updateGuildCommands env (guildId request) guildName
                 (body_commands body) (session_user_id request) in
             ret (NextResponse_json (CommandsBody (GuildConfig.commands config))))
            (λ _, ret (NextResponse_error "Failed to update commands" 500))
      end
  end.

End CommandsRoute.

Module PromptRoute.

Definition GET (env : Env) (request : Request) : M Response :=
  match session_token request with
  | None => ret (NextResponse_error "Unauthorized" 401)
  | Some accessToken =>
      let* access := lift (verifyAccess env (guildId request) accessToken) in
      match access with
      | Denied => ret (NextResponse_error "Forbidden" 403)
      | Granted guildName =>
          try_catch
            (let* config := getOrCreateGuildConfig env (guildId request) guildName in
             ret (NextResponse_json
                    (PromptInfo (GuildConfig.systemPrompt config)
                                DEFAULT_SYSTEM_PROMPT
                                (isCustom_of (GuildConfig.systemPrompt config)))))
            (λ _, ret (NextResponse_error "Failed to get prompt" 500))
      end
  end.

Definition PUT (env : Env) (request : Request) : M Response :=
  match session_token request with
  | None => ret (NextResponse_error "Unauthorized" 401)
  | Some accessToken =>
      let* access := lift (verifyAccess env (guildId request) accessToken) in
      match access with
      | Denied => ret (NextResponse_error "Forbidden" 403)
      | Granted guildName =>
          try_catch
            (let* body := lift (request_fields request) in
             let* promptValue := lift (promptValue (body_systemPrompt body)) in
             let* config :=
               updateGuildPrompt env (guildId request) guildName
                 promptValue (session_user_id request) in
             ret (NextResponse_json
                    (PromptUpdated (GuildConfig.systemPrompt config)
                                   (isCustom_of (GuildConfig.systemPrompt config)))))
            (λ _, ret (NextResponse_error "Failed to update prompt" 500))
      end
  end.

End PromptRoute.

Module StatsRoute.

(** [guild?.hasBot ?? false]. *)
Definition verifyAccess (env : Env) (guildId accessToken : jsstring)
  : result bool :=
  let? guilds := getManageableGuilds env accessToken in
  Ok (match find (λ g, bool_decide (ManageableGuild.id g = guildId)) guilds with
      | Some guild => ManageableGuild.hasBot guild
      | None => false
      end).

(** The body sent while the bot has written no stats yet. *)
Definition default_stats : GuildStats.t :=
  {| GuildStats.messagesCached := JNumber 0;
     GuildStats.tokensUsed := JNumber 0;
     GuildStats.lastActivity := JString (js "Never");
     GuildStats.botUptime := JString (js "Unknown");
     GuildStats.botLatency := JNumber 0 |}.

Definition GET (env : Env) (request : Request) : M Response :=
  match session_token request with
  | None => ret (NextResponse_error "Unauthorized" 401)
  | Some accessToken =>
      let* hasAccess := lift (verifyAccess env (guildId request) accessToken) in
      if negb hasAccess then ret (NextResponse_error "Forbidden" 403)
      else
        try_catch
          (let* stats := getGuildStats (guildId request) in
           match stats with
           | None => ret (NextResponse_json (StatsBody default_stats))
           | Some stats => ret (NextResponse_json (StatsBody stats))
           end)
          (λ _, ret (NextResponse_error "Failed to get stats" 500))
  end.

End StatsRoute.

(** The endpoint that lists the caller's guilds (app/api/guilds/route.ts): it
    is not guild-scoped and runs [getManageableGuilds] inside its [try]. *)
Module GuildsRoute.

Definition GET (env : Env) (session : option Session) : M Response :=
  match usable_token (session ≫= accessToken) with
  | None => ret (NextResponse_error "Unauthorized" 401)
  | Some accessToken =>
      try_catch
        (let* guilds := lift (getManageableGuilds env accessToken) in
         ret (NextResponse_json (GuildsBody guilds)))
        (λ _, ret (NextResponse_error "Failed to fetch guilds" 500))
  end.

End GuildsRoute.

(** ** Vocabulary of the statements *)

(** A comparator is consistent when "not after" is a total preorder. *)
Definition consistent {A} (cmp : A → A → Z) : Prop :=
  (∀ a b, cmp a b <= 0 ∨ cmp b a <= 0) ∧
  (∀ a b c, cmp a b <= 0 → cmp b c <= 0 → cmp a c <= 0).

(** [canManageGuild] as a predicate, for a guild whose permission string
    [BigInt] accepts. *)
Definition manages (guild : DiscordGuild.t) : Prop :=
  ∃ permissions,
    StringToBigInt (DiscordGuild.permissions guild) = Some permissions ∧
    (DiscordGuild.owner guild = true
     ∨ Z.land permissions ADMINISTRATOR = ADMINISTRATOR
     ∨ Z.land permissions MANAGE_GUILD = MANAGE_GUILD).

Definition numeric_permissions (guild : DiscordGuild.t) : Prop :=
  is_Some (StringToBigInt (DiscordGuild.permissions guild)).

Definition returns_true (r : result bool) : bool :=
  match r with
  | Ok b => b
  | Throw _ => false
  end.

(** The caller's guild-list query failed. *)
Definition user_query_failed (env : Env) (accessToken : jsstring) : bool :=
  match discord_user_guilds env accessToken with
  | HttpOk _ => false
  | _ => true
  end.

(** The bot's guild-list query failed, or could not be made for want of a
    token. *)
Definition bot_query_failed (env : Env) : bool :=
  match usable_token (DISCORD_BOT_TOKEN env) with
  | None => true
  | Some botToken =>
      match discord_bot_guilds env botToken with
      | HttpOk _ => false
      | _ => true
      end
  end.

(** The file of a guild, if the directory has one. *)
Definition config_file (env : Env) (guildId : jsstring) (w : World)
  : option (FileContent (option GuildConfig.t)) :=
  config_files w ≫= (.!! config_path env guildId).

(** The record stored for a guild. *)
Definition stored_config (env : Env) (guildId : jsstring) (w : World)
  : option GuildConfig.t :=
  match config_file env guildId w with
  | Some (Json (Some config)) => Some config
  | _ => None
  end.

(** Nothing stops [saveGuildConfig] from writing the file of a guild. *)
Definition save_permitted (env : Env) (guildId : jsstring) (w : World) : Prop :=
  match config_files w with
  | None => configDir env ∉ denied w     (* mkdir has to create the directory *)
  | Some _ => True
  end ∧
  config_path env guildId ∉ denied w.

(** Two worlds with the same files, stats artifact and refusals. *)
Definition same_files (w w' : World) : Prop :=
  (∀ path, config_files w' ≫= (.!! path) = config_files w ≫= (.!! path)) ∧
  stats_file w' = stats_file w ∧
  denied w' = denied w.

(** Every stored record sits in the file its own [guildId] names: the
    invariant of the store ("one record per community identifier"). *)
Definition well_filed (env : Env) (w : World) : Prop :=
  ∀ id config,
    stored_config env id w = Some config →
    config_path env (GuildConfig.guildId config) = config_path env id.

(** The world after one reading of the clock. *)
Definition tick (w : World) : World :=
  mkWorld (config_files w) (stats_file w) (denied w) (S (ticks w)).

(** The world after a record has been written to its file. *)
Definition with_config (env : Env) (config : GuildConfig.t) (w : World) : World :=
  mkWorld
    (Some (<[config_path env (GuildConfig.guildId config) := JSON_stringify config]>
             (default ∅ (config_files w))))
    (stats_file w) (denied w) (ticks w).

(** The record [getOrCreateGuildConfig] synthesizes at clock reading [now]. *)
Definition default_config (guildId guildName now : jsstring) : GuildConfig.t :=
  {| GuildConfig.guildId := guildId;
     GuildConfig.guildName := guildName;
     GuildConfig.settings := DEFAULT_SETTINGS;
     GuildConfig.commands := DEFAULT_COMMANDS;
     GuildConfig.systemPrompt := None;
     GuildConfig.updatedAt := now;
     GuildConfig.updatedBy := js "system" |}.

(** A field after a shallow merge: the named value if the partial object
    names the field, the prior value otherwise. *)
Definition merged {A} (prior : A) (named : option A) (after : A) : Prop :=
  match named with
  | Some v => after = v
  | None => after = prior
  end.

(** The stats artifact gives no data: it is absent, cannot be read, does not
    parse, or parses to a falsy value (null, false, 0, the empty string). *)
Definition no_stats (w : World) : Prop :=
  match stats_file w with
  | None | Some Unreadable | Some Malformed => True
  | Some (Json v) => truthy v = false
  end.

(** The artifact has no entry for the guild: [stats.guilds?.[guildId]] is
    [undefined] or [null]. *)
Definition no_entry (stats : JsValue) (guildId : jsstring) : Prop :=
  match get_prop_opt (get_prop stats (js "guilds")) guildId with
  | None | Some JNull => True
  | Some _ => False
  end.

(** The three update functions, as one family. *)
Inductive Update : Type :=
| SetSettings (settings : option PartialSettings.t)
| SetCommands (commands : option PartialCommands.t)
| SetPrompt (systemPrompt : option jsstring).

Definition run_update (env : Env) (guildId guildName : jsstring)
    (update : Update) (updatedBy : jsstring) : M GuildConfig.t :=
  match update with
  | SetSettings settings => updateGuildSettings env guildId guildName settings updatedBy
  | SetCommands commands => updateGuildCommands env guildId guildName commands updatedBy
  | SetPrompt systemPrompt => updateGuildPrompt env guildId guildName systemPrompt updatedBy
  end.

(** The assignments an update makes to the record it loaded. *)
Definition updated (update : Update) (now updatedBy : jsstring)
    (config : GuildConfig.t) : GuildConfig.t :=
  {| GuildConfig.guildId := GuildConfig.guildId config;
     GuildConfig.guildName := GuildConfig.guildName config;
     GuildConfig.settings :=
       match update with
       | SetSettings settings =>
           spread_settings (GuildConfig.settings config)
                           (default PartialSettings.empty settings)
       | _ => GuildConfig.settings config
       end;
     GuildConfig.commands :=
       match update with
       | SetCommands commands =>
           spread_commands (GuildConfig.commands config)
                           (default PartialCommands.empty commands)
       | _ => GuildConfig.commands config
       end;
     GuildConfig.systemPrompt :=
       match update with
       | SetPrompt systemPrompt => systemPrompt
       | _ => GuildConfig.systemPrompt config
       end;
     GuildConfig.updatedAt := now;
     GuildConfig.updatedBy := updatedBy |}.

(** The record an update loads and the world it goes on in: the stored
    record, or the default one [getOrCreateGuildConfig] has just written. *)
Definition loaded (env : Env) (guildId guildName : jsstring) (w : World)
  : GuildConfig.t * World :=
  match stored_config env guildId w with
  | Some config => (config, w)
  | None =>
      let created := default_config guildId guildName (clock env (ticks w)) in
      (created, with_config env created (tick w))
  end.

(** The guild-scoped endpoints. *)
Inductive Endpoint : Type :=
| GetConfig | PutConfig
| GetCommands | PutCommands
| GetPrompt | PutPrompt
| GetStats.

Definition handle (env : Env) (endpoint : Endpoint) : Request → M Response :=
  match endpoint with
  | GetConfig => ConfigRoute.GET env
  | PutConfig => ConfigRoute.PUT env
  | GetCommands => CommandsRoute.GET env
  | PutCommands => CommandsRoute.PUT env
  | GetPrompt => PromptRoute.GET env
  | PutPrompt => PromptRoute.PUT env
  | GetStats => StatsRoute.GET env
  end.

(** The store or reader operation of an endpoint, with the projection of its
    result that the endpoint sends. *)
Definition operation (env : Env) (endpoint : Endpoint) (request : Request)
    (guildName : jsstring) : M ResponseBody :=
  match endpoint with
  | GetConfig =>
      let* config := getOrCreateGuildConfig env (guildId request) guildName in
      ret (ConfigBody config)
  | PutConfig =>
      let* body := lift (request_fields request) in
      let* config :=
        updateGuildSettings env (guildId request) guildName
          (body_settings body) (session_user_id request) in
      ret (ConfigBody config)
  | GetCommands =>
      let* config := getOrCreateGuildConfig env (guildId request) guildName in
      ret (CommandsBody (GuildConfig.commands config))
  | PutCommands =>
      let* body := lift (request_fields request) in
      let* config :=
        updateGuildCommands env (guildId request) guildName
          (body_commands body) (session_user_id request) in
      ret (CommandsBody (GuildConfig.commands config))
  | GetPrompt =>
      let* config := getOrCreateGuildConfig env (guildId request) guildName in
      ret (PromptInfo (GuildConfig.systemPrompt config) DEFAULT_SYSTEM_PROMPT
             (isCustom_of (GuildConfig.systemPrompt config)))
  | PutPrompt =>
      let* body := lift (request_fields request) in
      let* prompt := lift (promptValue (body_systemPrompt body)) in
      let* config :=
        updateGuildPrompt env (guildId request) guildName
          prompt (session_user_id request) in
      ret (PromptUpdated (GuildConfig.systemPrompt config)
             (isCustom_of (GuildConfig.systemPrompt config)))
  | GetStats =>
      let* stats := getGuildStats (guildId request) in
      ret (StatsBody (default StatsRoute.default_stats stats))
  end.

(** The message of the 500 response of an endpoint. *)
Definition failure_message (endpoint : Endpoint) : string :=
  match endpoint with
  | GetConfig => "Failed to get config"
  | PutConfig => "Failed to update config"
  | GetCommands => "Failed to get commands"
  | PutCommands => "Failed to update commands"
  | GetPrompt => "Failed to get prompt"
  | PutPrompt => "Failed to update prompt"
  | GetStats => "Failed to get stats"
  end.

(** ** Concrete scenarios *)

Module Scenario.

(** Code units compared left to right: a consistent comparator. *)
Fixpoint compare_units (a b : jsstring) : Z :=
  match a, b with
  | [], [] => 0
  | [], _ :: _ => -1
  | _ :: _, [] => 1
  | x :: a', y :: b' =>
      if (x <? y)%N then -1 else if (y <? x)%N then 1 else compare_units a' b'
  end.

Definition guild (id name : string) (owner : bool) (permissions : string)
  : DiscordGuild.t :=
  DiscordGuild.mk (js id) (js name) None owner (js permissions).

(** The caller owns guild 42, holds manage-guild in guild 7, administrator
    in guild 8, and nothing in guild 9. *)
Definition user_guilds : list DiscordGuild.t :=
  [ guild "9" "Nine" false "1024";
    guild "7" "Seven" false "32";
    guild "42" "Test Guild" true "0";
    guild "8" "Eight" false "8" ].

(** The bot is in guilds 42, 7 and 9. *)
Definition bot_guilds : list DiscordGuild.t :=
  [ guild "42" "Test Guild" false "0";
    guild "7" "Seven" false "0";
    guild "9" "Nine" false "0" ].

(** The clock stands still: every reading falls in the same millisecond. *)
Definition env : Env :=
  {| discord_user_guilds := λ _, HttpOk user_guilds;
     DISCORD_BOT_TOKEN := Some (js "bot-token");
     discord_bot_guilds := λ _, HttpOk bot_guilds;
     localeCompare := compare_units;
     configDir := js "/data/guild_configs";
     path_join := λ dir file, dir ++ js "/" ++ file;
     clock := λ _, js "2026-01-01T00:00:00.000Z" |}.

(** The same platform with the bot's guild-list query answering 503. *)
Definition env_bot_down : Env :=
  {| discord_user_guilds := discord_user_guilds env;
     DISCORD_BOT_TOKEN := DISCORD_BOT_TOKEN env;
     discord_bot_guilds := λ _, HttpError 503;
     localeCompare := localeCompare env;
     configDir := configDir env;
     path_join := path_join env;
     clock := clock env |}.

(** The same platform with the caller's guild-list query answering 401. *)
Definition env_user_down : Env :=
  {| discord_user_guilds := λ _, HttpError 401;
     DISCORD_BOT_TOKEN := DISCORD_BOT_TOKEN env;
     discord_bot_guilds := discord_bot_guilds env;
     localeCompare := localeCompare env;
     configDir := configDir env;
     path_join := path_join env;
     clock := clock env |}.

(** No configuration directory, no stats artifact. *)
Definition fresh : World := mkWorld None None ∅ 0.

(** Guild 42 has a record, stamped at the millisecond the clock shows. *)
Definition record42 : GuildConfig.t :=
  default_config (js "42") (js "Test Guild") (js "2026-01-01T00:00:00.000Z").

(** The world [getOrCreateGuildConfig] leaves when it creates that record
    in the fresh world. *)
Definition configured : World := with_config env record42 (tick fresh).

(** A stats artifact with an entry for guild 7 only. *)
Definition stats_artifact : JsValue :=
  JObject (list_to_map
    [ (js "uptime", JString (js "3 days"));
      (js "latency", JNumber (42 # 1)%Q);
      (js "totalGuilds", JNumber (1 # 1)%Q);
      (js "guilds",
       JObject (list_to_map
         [ (js "7",
            JObject (list_to_map
              [ (js "messagesCached", JNumber (12 # 1)%Q);
                (js "tokensUsed", JNumber (3400 # 1)%Q);
                (js "lastActivity", JString (js "2026-01-01T00:00:00.000Z")) ])) ]));
      (js "updatedAt", JString (js "2026-01-01T00:00:00.000Z")) ]).

Definition with_stats : World := mkWorld None (Some (Json stats_artifact)) ∅ 0.

(** The stats artifact holds the JSON literal null. *)
Definition null_stats : World := mkWorld None (Some (Json JNull)) ∅ 0.

Definition session42 : Session :=
  {| accessToken := Some (js "user-token"); user_id := js "1001" |}.

Definition only_temperature : PartialSettings.t :=
  PartialSettings.mk None None None None None None (Some (1 # 2)%Q) None None.

Definition put (guildId : string) (fields : BodyFields) : Request :=
  {| session := Some session42; guildId := js guildId; body := BodyValue fields |}.

Definition fields_prompt (p : PromptField) : BodyFields :=
  {| body_settings := None; body_commands := None; body_systemPrompt := p |}.

Definition fields_settings (s : PartialSettings.t) : BodyFields :=
  {| body_settings := Some s; body_commands := None;
     body_systemPrompt := PromptMissing |}.

End Scenario.

(** ** hooks/useGuildConfig.ts

    The values the hook computes itself for a commands or prompt change: the
    record it shows optimistically and the body it sends.  A body is given
    as [request.json()] reads it on the server: booleans, strings and null
    pass through [JSON.stringify] unchanged, and a key whose value is
    [undefined] is left out.  (A settings change is not modelled: its
    numbers may be [NaN], which [JSON.stringify] turns into null.) *)

Module useGuildConfig.

(** [{ ...data, commands: { ...data.commands, ...commands } }]. *)
Definition optimistic_commands (data : GuildConfig.t) (commands : PartialCommands.t)
  : GuildConfig.t :=
  {| GuildConfig.guildId := GuildConfig.guildId data;
     GuildConfig.guildName := GuildConfig.guildName data;
     GuildConfig.settings := GuildConfig.settings data;
     GuildConfig.commands := spread_commands (GuildConfig.commands data) commands;
     GuildConfig.systemPrompt := GuildConfig.systemPrompt data;
     GuildConfig.updatedAt := GuildConfig.updatedAt data;
     GuildConfig.updatedBy := GuildConfig.updatedBy data |}.

(** [{ ...data, systemPrompt }]. *)
Definition optimistic_prompt (data : GuildConfig.t) (systemPrompt : option jsstring)
  : GuildConfig.t :=
  {| GuildConfig.guildId := GuildConfig.guildId data;
     GuildConfig.guildName := GuildConfig.guildName data;
     GuildConfig.settings := GuildConfig.settings data;
     GuildConfig.commands := GuildConfig.commands data;
     GuildConfig.systemPrompt := systemPrompt;
     GuildConfig.updatedAt := GuildConfig.updatedAt data;
     GuildConfig.updatedBy := GuildConfig.updatedBy data |}.

(** [JSON.stringify({ commands })]. *)
Definition commands_body (commands : PartialCommands.t) : RequestBody :=
  BodyValue {| body_settings := None;
               body_commands := Some commands;
               body_systemPrompt := PromptMissing |}.

(** [JSON.stringify({ systemPrompt })], [systemPrompt] a string or null. *)
Definition prompt_body (systemPrompt : option jsstring) : RequestBody :=
  BodyValue {| body_settings := None;
               body_commands := None;
               body_systemPrompt :=
                 match systemPrompt with
                 | Some s => PromptText s
                 | None => PromptMissing
                 end |}.

End useGuildConfig.

(** ** The prompt page (guild/[guildId]/prompt/page.tsx) *)

Module PromptPage.

(** [config.systemPrompt || DEFAULT_SYSTEM_PROMPT]: what the editor is
    filled with. *)
Definition shown (config : GuildConfig.t) : jsstring :=
  match GuildConfig.systemPrompt config with
  | Some (c :: s) => c :: s
  | Some [] | None => DEFAULT_SYSTEM_PROMPT
  end.

(** [config.systemPrompt !== null]. *)
Definition isCustom (config : GuildConfig.t) : bool :=
  bool_decide (GuildConfig.systemPrompt config ≠ None).

(** [prompt !== (config.systemPrompt || DEFAULT_SYSTEM_PROMPT)]. *)
Definition hasChanges (prompt : jsstring) (config : GuildConfig.t) : bool :=
  bool_decide (prompt ≠ shown config).

(** handleSave:
    [prompt.trim() === DEFAULT_SYSTEM_PROMPT.trim() ? null : prompt.trim()]. *)
Definition promptToSave (prompt : jsstring) : option jsstring :=
  if bool_decide (trim prompt = trim DEFAULT_SYSTEM_PROMPT) then None
  else Some (trim prompt).

End PromptPage.

(** ** The commands page (guild/[guildId]/commands/page.tsx) *)

Module CommandsPage.

(** The keys of [COMMAND_INFO]. *)
Inductive Command : Type :=
| Beer | Ping | Uptime | CacheStats | ClearCache.

(** [config.commands[key]]. *)
Definition enabled (key : Command) (commands : GuildCommands.t) : bool :=
  match key with
  | Beer => GuildCommands.beer commands
  | Ping => GuildCommands.ping commands
  | Uptime => GuildCommands.uptime commands
  | CacheStats => GuildCommands.cacheStats commands
  | ClearCache => GuildCommands.clearCache commands
  end.

(** [{ [command]: enabled }], the object handleToggle passes on. *)
Definition only (command : Command) (enabled : bool) : PartialCommands.t :=
  {| PartialCommands.beer := match command with Beer => Some enabled | _ => None end;
     PartialCommands.ping := match command with Ping => Some enabled | _ => None end;
     PartialCommands.uptime := match command with Uptime => Some enabled | _ => None end;
     PartialCommands.cacheStats :=
       match command with CacheStats => Some enabled | _ => None end;
     PartialCommands.clearCache :=
       match command with ClearCache => Some enabled | _ => None end |}.

(** The click on a command's switch: [handleToggle(key, !enabled)]. *)
Definition toggle (key : Command) (config : GuildConfig.t) : PartialCommands.t :=
  only key (negb (enabled key (GuildConfig.commands config))).

End CommandsPage.

#[global] Instance Command_eq_dec : EqDecision CommandsPage.Command.
Proof. solve_decision. Defined.

(** ** The sidebar (components/layout/Sidebar.tsx) *)

Module Sidebar.

(** [\d]. *)
Definition isDigit (c : N) : bool := ((48 <=? c) && (c <=? 57))%N.

(** The longest run of digits a string starts with. *)
Fixpoint digits_prefix (s : jsstring) : jsstring :=
  match s with
  | c :: s' => if isDigit c then c :: digits_prefix s' else []
  | [] => []
  end.

(** What is left of [s] after the literal [lit], if [s] starts with it. *)
Fixpoint after_literal (lit s : jsstring) : option jsstring :=
  match lit, s with
  | [], _ => Some s
  | x :: lit', y :: s' => if (x =? y)%N then after_literal lit' s' else None
  | _ :: _, [] => None
  end.

(** The pattern [/\/dashboard\/guild\/(\d+)/] tried at the start of [s]: the
    capture group, if it matches there. *)
Definition match_here (s : jsstring) : option jsstring :=
  match after_literal (js "/dashboard/guild/") s with
  | Some rest =>
      match digits_prefix rest with
      | [] => None
      | d :: ds => Some (d :: ds)
      end
  | None => None
  end.

(** [pathname.match(/\/dashboard\/guild\/(\d+)/)?.[1]]: the leftmost match. *)
Fixpoint guildId_of (pathname : jsstring) : option jsstring :=
  match match_here pathname with
  | Some guildId => Some guildId
  | None =>
      match pathname with
      | [] => None
      | _ :: rest => guildId_of rest
      end
  end.

(** The [href]s of the navigation items, in order. *)
Definition hrefs (guildId : jsstring) : list jsstring :=
  [ js "/dashboard/guild/" ++ guildId;
    js "/dashboard/guild/" ++ guildId ++ js "/config";
    js "/dashboard/guild/" ++ guildId ++ js "/commands";
    js "/dashboard/guild/" ++ guildId ++ js "/prompt";
    js "/dashboard/guild/" ++ guildId ++ js "/stats" ].

(** [navItems]: empty off the guild pages. *)
Definition navItems (pathname : jsstring) : list jsstring :=
  match guildId_of pathname with
  | Some guildId => hrefs guildId
  | None => []
  end.

(** [pathname === item.href]. *)
Definition isActive (pathname href : jsstring) : bool :=
  bool_decide (pathname = href).

End Sidebar.

(** ** Further vocabulary *)

(** Two records that differ at most in [updatedAt] and [updatedBy]. *)
Definition same_content (a b : GuildConfig.t) : Prop :=
  GuildConfig.guildId a = GuildConfig.guildId b ∧
  GuildConfig.guildName a = GuildConfig.guildName b ∧
  GuildConfig.settings a = GuildConfig.settings b ∧
  GuildConfig.commands a = GuildConfig.commands b ∧
  GuildConfig.systemPrompt a = GuildConfig.systemPrompt b.

(** [{ ...first, ...second }] at [Partial<GuildSettings>]. *)
Definition spread_partial (first second : PartialSettings.t) : PartialSettings.t :=
  let pick {A} (x y : option A) : option A :=
    match y with Some v => Some v | None => x end in
  {| PartialSettings.maxTokensPerChannel :=
       pick (PartialSettings.maxTokensPerChannel first)
            (PartialSettings.maxTokensPerChannel second);
     PartialSettings.messageExpiryDays :=
       pick (PartialSettings.messageExpiryDays first)
            (PartialSettings.messageExpiryDays second);
     PartialSettings.charsPerTokenEstimate :=
       pick (PartialSettings.charsPerTokenEstimate first)
            (PartialSettings.charsPerTokenEstimate second);
     PartialSettings.maxResponseTokens :=
       pick (PartialSettings.maxResponseTokens first)
            (PartialSettings.maxResponseTokens second);
     PartialSettings.scoreThreshold :=
       pick (PartialSettings.scoreThreshold first)
            (PartialSettings.scoreThreshold second);
     PartialSettings.rateLimitSeconds :=
       pick (PartialSettings.rateLimitSeconds first)
            (PartialSettings.rateLimitSeconds second);
     PartialSettings.temperature :=
       pick (PartialSettings.temperature first)
            (PartialSettings.temperature second);
     PartialSettings.model :=
       pick (PartialSettings.model first) (PartialSettings.model second);
     PartialSettings.skipCategories :=
       pick (PartialSettings.skipCategories first)
            (PartialSettings.skipCategories second) |}.

(** Two updates that assign to different sub-objects of the record. *)
Definition different_parts (u1 u2 : Update) : Prop :=
  match u1, u2 with
  | SetSettings _, SetSettings _
  | SetCommands _, SetCommands _
  | SetPrompt _, SetPrompt _ => False
  | _, _ => True
  end.

(** An update that names no field: the sub-object is [undefined] or [{}]. *)
Definition names_nothing (update : Update) : Prop :=
  match update with
  | SetSettings None | SetCommands None => True
  | SetSettings (Some settings) => settings = PartialSettings.empty
  | SetCommands (Some commands) => commands = PartialCommands.empty
  | SetPrompt _ => False
  end.

(** The endpoints that write on purpose. *)
Definition is_put (endpoint : Endpoint) : bool :=
  match endpoint with
  | PutConfig | PutCommands | PutPrompt => true
  | _ => false
  end.

(** Further scenarios. *)
Module Cases.

(** The world of [Scenario.configured] with the file of guild 42 write
    protected. *)
Definition protected : World :=
  mkWorld (config_files Scenario.configured) None
          {[ config_path Scenario.env (js "42") ]} 1.

(** The file of guild 42 is there and cannot be read. *)
Definition unreadable : World :=
  mkWorld (Some {[ config_path Scenario.env (js "42") := Unreadable ]}) None ∅ 0.

(** The caller's list has a guild whose permission string is not a number. *)
Definition env_bad_permissions : Env :=
  {| discord_user_guilds :=
       λ _, HttpOk (Scenario.guild "5" "Five" true "admin" :: Scenario.user_guilds);
     DISCORD_BOT_TOKEN := DISCORD_BOT_TOKEN Scenario.env;
     discord_bot_guilds := discord_bot_guilds Scenario.env;
     localeCompare := localeCompare Scenario.env;
     configDir := configDir Scenario.env;
     path_join := path_join Scenario.env;
     clock := clock Scenario.env |}.

Definition get (guildId : string) : Request :=
  {| session := Some Scenario.session42; guildId := js guildId; body := BodyNull |}.

Definition request (guildId : string) (body : RequestBody) : Request :=
  {| session := Some Scenario.session42; guildId := js guildId; body := body |}.

Definition only_model : PartialSettings.t :=
  PartialSettings.mk None None None None None None None (Some (js "claude-haiku")) None.

End Cases.

(** * Properties *)

(** Unfolds an endpoint down to its handler's text. *)
Ltac unfold_handlers :=
  unfold handle, ConfigRoute.GET, ConfigRoute.PUT, CommandsRoute.GET,
    CommandsRoute.PUT, PromptRoute.GET, PromptRoute.PUT, StatsRoute.GET.

(** ** Results and the world monad *)

Lemma rbind_Ok {A B} (r : result A) (k : A → result B) (b : B) :
  rbind r k = Ok b ↔ ∃ a, r = Ok a ∧ k a = Ok b.
Proof.
  destruct r as [a|e]; simpl; split.
  - eauto.
  - intros (a' & Ha & Hk). by inversion Ha; subst.
  - discriminate.
  - intros (a' & Ha & _). discriminate.
Qed.

(** ** Sorting *)

Section sorting.
Context {A : Type} (cmp : A → A → Z).

Lemma sort_insert_perm (x : A) (l : list A) :
  Permutation (sort_insert cmp x l) (x :: l).
Proof.
  induction l as [|y l IH]; simpl; [done|].
  destruct (cmp x y <=? 0); [done|].
  rewrite IH. apply perm_swap.
Qed.

Lemma Array_sort_perm (l : list A) : Permutation (Array_sort cmp l) l.
Proof.
  induction l as [|x l IH]; simpl; [done|].
  unfold Array_sort in *. simpl. rewrite sort_insert_perm. by constructor.
Qed.

Lemma Array_sort_In (x : A) (l : list A) : In x (Array_sort cmp l) ↔ In x l.
Proof.
  split; apply Permutation_in; [|symmetry]; apply Array_sort_perm.
Qed.


Lemma sort_insert_sorted (x : A) (l : list A) :
  consistent cmp →
  StronglySorted (λ a b, cmp a b <= 0) l →
  StronglySorted (λ a b, cmp a b <= 0) (sort_insert cmp x l).
Proof.
  intros [Htot Htrans]. induction 1 as [|y l Hs IH Hy]; simpl.
  - repeat constructor.
  - destruct (Z.leb_spec (cmp x y) 0) as [Hxy|Hxy].
    + constructor; [by constructor|].
      constructor; [done|].
      eapply Forall_impl; [exact Hy|]. intros z Hz. by eapply Htrans.
    + constructor; [done|].
      assert (Hyx : cmp y x <= 0) by (destruct (Htot x y); [lia|done]).
      apply Forall_forall. intros z Hz.
      rewrite (sort_insert_perm x l) in Hz.
      apply elem_of_cons in Hz as [->|Hz]; [done|].
      rewrite Forall_forall in Hy. by apply Hy.
Qed.

Lemma Array_sort_sorted (l : list A) :
  consistent cmp → StronglySorted (λ a b, cmp a b <= 0) (Array_sort cmp l).
Proof.
  intros Hc. induction l as [|x l IH]; simpl; [constructor|].
  by apply sort_insert_sorted.
Qed.
End sorting.

(** ** The permission adapter *)


Lemma canManageGuild_true (guild : DiscordGuild.t) :
  canManageGuild guild = Ok true ↔ manages guild.
Proof.
  unfold canManageGuild, manages, BigInt.
  destruct (StringToBigInt _) as [p|]; simpl.
  - split.
    + intros [= H]. exists p. split; [done|].
      apply orb_true_iff in H as [H|H]; [apply orb_true_iff in H as [H|H]|].
      * by left.
      * right; left. by apply Z.eqb_eq.
      * right; right. by apply Z.eqb_eq.
    + intros (p' & [= <-] & H). f_equal.
      destruct H as [->|[H|H]]; [done| |].
      * apply Z.eqb_eq in H. rewrite H. by rewrite orb_true_r.
      * apply Z.eqb_eq in H. rewrite H. by rewrite orb_true_r.
  - split; [discriminate|]. by intros (p' & ? & _).
Qed.

Lemma canManageGuild_returns (guild : DiscordGuild.t) :
  numeric_permissions guild → ∃ b, canManageGuild guild = Ok b.
Proof.
  intros [p Hp]. unfold canManageGuild, BigInt. rewrite Hp. simpl. eauto.
Qed.

Lemma filter_result_returns {A} (p : A → result bool) (l : list A) :
  Forall (λ x, ∃ b, p x = Ok b) l →
  ∃ r, filter_result p l = Ok r ∧ ∀ x, In x r ↔ In x l ∧ p x = Ok true.
Proof.
  induction 1 as [|x l [b Hb] _ (r & Hr & IH)]; simpl.
  - exists []. split; [done|]. simpl. tauto.
  - rewrite Hb, Hr. simpl. destruct b.
    + eexists. split; [done|]. intros y. simpl. rewrite IH.
      split; [intros [<-|[? ?]]; auto|intros [[->|?] ?]; auto].
    + eexists. split; [done|]. intros y. rewrite IH.
      split; [intros [? ?]; auto|]. intros [[<-|?] Hy]; [congruence|auto].
Qed.


Lemma filter_result_filter {A} (p : A → result bool) (l r : list A) :
  filter_result p l = Ok r → r = List.filter (λ x, returns_true (p x)) l.
Proof.
  revert r. induction l as [|x l IH]; simpl; intros r.
  - by intros [= <-].
  - destruct (p x) as [b|e] eqn:Hb; simpl; [|discriminate].
    destruct (filter_result p l) as [r'|e]; simpl; [|discriminate].
    intros [= <-]. rewrite (IH r' eq_refl). by destruct b.
Qed.

(** The list [getManageableGuilds] returns once the user's guilds have been
    fetched and every permission string is numeric. *)
Lemma getManageableGuilds_returns (env : Env) (token : jsstring)
    (userGuilds : list DiscordGuild.t) :
  discord_user_guilds env token = HttpOk userGuilds →
  Forall numeric_permissions userGuilds →
  ∃ manageable,
    filter_result canManageGuild userGuilds = Ok manageable ∧
    (∀ g, In g manageable ↔ In g userGuilds ∧ manages g) ∧
    getManageableGuilds env token =
      Ok (Array_sort (compareGuilds env)
            (map (toManageable (list_to_set (getBotGuilds env))) manageable)).
Proof.
  intros Hfetch Hnum.
  destruct (filter_result_returns canManageGuild userGuilds) as (r & Hr & Hin).
  { eapply Forall_impl; [exact Hnum|]. apply canManageGuild_returns. }
  exists r. split; [done|]. split.
  - intros g. rewrite Hin. by rewrite canManageGuild_true.
  - unfold getManageableGuilds, getUserGuilds. rewrite Hfetch. simpl.
    by rewrite Hr.
Qed.

Lemma hasBot_toManageable (env : Env) (g : DiscordGuild.t) :
  ManageableGuild.hasBot (toManageable (list_to_set (getBotGuilds env)) g) = true
  ↔ DiscordGuild.id g ∈ getBotGuilds env.
Proof.
  simpl. rewrite bool_decide_eq_true. apply elem_of_list_to_set.
Qed.

(** What access verification returns once the caller's guilds are known. *)
Lemma verifyAccess_decides (env : Env) (token G : jsstring)
    (userGuilds : list DiscordGuild.t) :
  discord_user_guilds env token = HttpOk userGuilds →
  Forall numeric_permissions userGuilds →
  ∃ access,
    verifyAccess env G token = Ok access ∧
    (authorized access = true ↔
       G ∈ getBotGuilds env ∧
       ∃ guild, In guild userGuilds ∧ DiscordGuild.id guild = G ∧ manages guild).
Proof.
  intros Hfetch Hnum.
  destruct (getManageableGuilds_returns env token userGuilds Hfetch Hnum)
    as (r & _ & Hin & Hget).
  unfold verifyAccess. rewrite Hget. simpl.
  set (sorted := Array_sort _ _).
  assert (Hsorted : ∀ m, In m sorted ↔
            ∃ g, m = toManageable (list_to_set (getBotGuilds env)) g
                 ∧ In g userGuilds ∧ manages g).
  { intros m. unfold sorted. rewrite Array_sort_In, in_map_iff.
    split.
    - intros (g & Heq & Hg). exists g. split; [done|]. by apply Hin.
    - intros (g & Heq & Hg). exists g. split; [done|]. by apply Hin. }
  destruct (find _ sorted) as [guild|] eqn:Hfind.
  - apply find_some in Hfind as [Hm Hid]. apply bool_decide_eq_true in Hid.
    apply Hsorted in Hm as (g & -> & Hg & Hman). simpl in Hid.
    destruct (ManageableGuild.hasBot _) eqn:Hbot; eexists; (split; [done|]).
    + apply hasBot_toManageable in Hbot. rewrite Hid in Hbot.
      split; [intros _|done]. split; [done|]. by exists g.
    + split; [done|]. intros [HG _].
      assert (ManageableGuild.hasBot
                (toManageable (list_to_set (getBotGuilds env)) g) = true)
        by (apply hasBot_toManageable; by rewrite Hid).
      congruence.
  - eexists. split; [done|]. split; [done|].
    intros (_ & g & Hg & Hid & Hman). exfalso.
    assert (Hm : In (toManageable (list_to_set (getBotGuilds env)) g) sorted).
    { apply Hsorted. by exists g. }
    apply (find_none _ _ Hfind) in Hm. simpl in Hm.
    by rewrite bool_decide_eq_true_2 in Hm.
Qed.

Lemma not_authorized_Denied (access : Access) :
  authorized access ≠ true → access = Denied.
Proof. by destruct access. Qed.

(** What [getBotGuilds] returns when the bot's query succeeds: the
    identifiers Discord lists for the bot, in Discord's order. *)
Lemma getBotGuilds_fetched (env : Env) (botToken : jsstring)
    (botGuilds : list DiscordGuild.t) :
  DISCORD_BOT_TOKEN env = Some botToken →
  botToken ≠ [] →
  discord_bot_guilds env botToken = HttpOk botGuilds →
  getBotGuilds env = map DiscordGuild.id botGuilds.
Proof.
  intros Htoken Hne Hfetch. unfold getBotGuilds. rewrite Htoken.
  destruct botToken as [|c t]; [done|]. simpl. by rewrite Hfetch.
Qed.

(** C1.  Discord has answered both guild-list queries: the caller's, with
    numeric permission strings, and the bot's, made with a non-empty
    [DISCORD_BOT_TOKEN].  Then access verification returns, and it returns
    "authorized" exactly when the bot is in the requested guild (Discord
    lists the guild for the bot) and the caller's list has that guild with
    the owner flag, the administrator bit (0x8) or the manage-guild bit
    (0x20); where the bot is absent it returns "not authorized" whatever the
    bitmask and ownership. *)
Theorem verifyAccess_authorized_iff (env : Env) (token botToken G : jsstring)
    (userGuilds botGuilds : list DiscordGuild.t) :
  discord_user_guilds env token = HttpOk userGuilds →
  Forall numeric_permissions userGuilds →
  DISCORD_BOT_TOKEN env = Some botToken →
  botToken ≠ [] →
  discord_bot_guilds env botToken = HttpOk botGuilds →
  ∃ access,
    verifyAccess env G token = Ok access ∧
    (authorized access = true ↔
       G ∈ map DiscordGuild.id botGuilds ∧
       ∃ guild permissions,
         guild ∈ userGuilds ∧ DiscordGuild.id guild = G ∧
         StringToBigInt (DiscordGuild.permissions guild) = Some permissions ∧
         (DiscordGuild.owner guild = true
          ∨ Z.land permissions 0x8 = 0x8
          ∨ Z.land permissions 0x20 = 0x20)) ∧
    (G ∉ map DiscordGuild.id botGuilds → access = Denied).
Proof.
  intros Hfetch Hnum Htoken Hne Hbot.
  destruct (verifyAccess_decides env token G userGuilds Hfetch Hnum)
    as (access & Hrun & Hiff).
  rewrite (getBotGuilds_fetched env botToken botGuilds Htoken Hne Hbot) in Hiff.
  exists access. split; [done|]. split.
  - rewrite Hiff. split.
    + intros (HG & g & Hg & Hid & p & Hp & Hperm). split; [done|].
      exists g, p. by rewrite list_elem_of_In.
    + intros (HG & g & p & Hg & Hid & Hp & Hperm). split; [done|].
      exists g. rewrite <- list_elem_of_In. split; [done|]. split; [done|].
      by exists p.
  - intros HG. apply not_authorized_Denied. rewrite Hiff. tauto.
Qed.

Lemma Scenario_user_guilds_numeric :
  Forall numeric_permissions Scenario.user_guilds.
Proof. repeat constructor; by vm_compute; eexists. Qed.

(** The bot is in guild 7, where the caller holds the manage-guild bit:
    access is granted.  The caller is administrator of guild 8, where the
    bot is not: access is denied. *)
Lemma verifyAccess_authorized_iff_witness :
  (∃ guildName,
     verifyAccess Scenario.env (js "7") (js "user-token") = Ok (Granted guildName)) ∧
  verifyAccess Scenario.env (js "8") (js "user-token") = Ok Denied.
Proof.
  split.
  - destruct (verifyAccess_authorized_iff Scenario.env (js "user-token")
                (js "bot-token") (js "7") Scenario.user_guilds Scenario.bot_guilds
                eq_refl Scenario_user_guilds_numeric eq_refl)
      as (access & Hrun & Hiff & _); [discriminate|reflexivity|].
    assert (Hauth : authorized access = true).
    { apply Hiff. split.
      - apply list_elem_of_In. right; left. reflexivity.
      - exists (Scenario.guild "7" "Seven" false "32"), 32. split.
        + apply list_elem_of_In. right; left. reflexivity.
        + split; [reflexivity|]. split; [reflexivity|]. right; right. reflexivity. }
    destruct access as [|guildName]; [discriminate|]. by exists guildName.
  - destruct (verifyAccess_authorized_iff Scenario.env (js "user-token")
                (js "bot-token") (js "8") Scenario.user_guilds Scenario.bot_guilds
                eq_refl Scenario_user_guilds_numeric eq_refl)
      as (access & Hrun & _ & Hdenied); [discriminate|reflexivity|].
    rewrite Hrun, Hdenied; [reflexivity|].
    intros Hin%list_elem_of_In. simpl in Hin.
    destruct Hin as [H|[H|[H|[]]]]; discriminate.
Defined.

(** Why the permission strings have to be numeric: [BigInt] is evaluated
    before the owner flag is looked at, so one string it rejects makes
    [canManageGuild] throw, whoever owns the guild. *)
Lemma canManageGuild_throws (guild : DiscordGuild.t) :
  ¬ numeric_permissions guild → canManageGuild guild = Throw SyntaxError.
Proof.
  unfold numeric_permissions, canManageGuild, BigInt.
  destruct (StringToBigInt _); [|done]. intros []. by eexists.
Qed.

Lemma compareGuilds_consistent (env : Env) :
  consistent (localeCompare env) → consistent (compareGuilds env).
Proof.
  intros [Htot Htrans]. split.
  - intros a b. unfold compareGuilds.
    destruct (ManageableGuild.hasBot a), (ManageableGuild.hasBot b); simpl;
      first [apply Htot | lia].
  - intros a b c. unfold compareGuilds.
    destruct (ManageableGuild.hasBot a), (ManageableGuild.hasBot b),
      (ManageableGuild.hasBot c); simpl; first [apply Htrans | lia].
Qed.

Lemma StronglySorted_lookup {A} (R : A → A → Prop) (l : list A) (i j : nat) (a b : A) :
  StronglySorted R l → (i < j)%nat → l !! i = Some a → l !! j = Some b → R a b.
Proof.
  intros Hs. revert i j. induction Hs as [|x l Hs IH Hx]; intros i j Hij Hi Hj.
  - done.
  - destruct j as [|j]; [lia|]. simpl in Hj.
    destruct i as [|i]; simpl in Hi.
    + injection Hi as <-. rewrite Forall_forall in Hx.
      apply Hx. by eapply list_elem_of_lookup_2.
    + apply (IH i j); [lia|done..].
Qed.

Lemma Scenario_compare_units_consistent : consistent Scenario.compare_units.
Proof.
  split.
  - intros a. induction a as [|x a IH]; intros [|y b]; simpl; try lia.
    destruct (N.ltb_spec x y), (N.ltb_spec y x); try lia. apply IH.
  - intros a. induction a as [|x a IH]; intros [|y b] [|z c]; simpl; try lia.
    destruct (N.ltb_spec x y), (N.ltb_spec y x), (N.ltb_spec y z),
      (N.ltb_spec z y), (N.ltb_spec x z), (N.ltb_spec z x); try lia.
    apply IH.
Qed.

(** C8.  Once the caller's guilds have been fetched, with numeric permission
    strings and a consistent [localeCompare], [getManageableGuilds] returns
    exactly the caller's guilds that [canManageGuild] accepts, each tagged
    [hasBot] iff the bot's guild set has its identifier, ordered with every
    guild that has the bot before every guild that has not and, within each
    of the two groups, by name in [localeCompare] order. *)
Theorem getManageableGuilds_sorted (env : Env) (token : jsstring)
    (userGuilds : list DiscordGuild.t) :
  discord_user_guilds env token = HttpOk userGuilds →
  Forall numeric_permissions userGuilds →
  consistent (localeCompare env) →
  ∃ guilds,
    getManageableGuilds env token = Ok guilds ∧
    Permutation guilds
      (map (λ guild,
              {| ManageableGuild.id := DiscordGuild.id guild;
                 ManageableGuild.name := DiscordGuild.name guild;
                 ManageableGuild.icon := DiscordGuild.icon guild;
                 ManageableGuild.hasBot :=
                   bool_decide (DiscordGuild.id guild ∈ getBotGuilds env) |})
           (List.filter (λ guild, returns_true (canManageGuild guild)) userGuilds)) ∧
    (∀ i j a b,
       (i < j)%nat → guilds !! i = Some a → guilds !! j = Some b →
       (ManageableGuild.hasBot b = true → ManageableGuild.hasBot a = true) ∧
       (ManageableGuild.hasBot a = ManageableGuild.hasBot b →
        localeCompare env (ManageableGuild.name a) (ManageableGuild.name b) <= 0)).
Proof.
  intros Hfetch Hnum Hcons.
  destruct (getManageableGuilds_returns env token userGuilds Hfetch Hnum)
    as (r & Hr & _ & Hget).
  eexists. split; [exact Hget|]. split.
  - rewrite Array_sort_perm. rewrite (filter_result_filter _ _ _ Hr).
    erewrite map_ext; [reflexivity|]. intros g. unfold toManageable. f_equal.
    apply bool_decide_ext. apply elem_of_list_to_set.
  - intros i j a b Hij Hi Hj.
    assert (Hab : compareGuilds env a b <= 0).
    { eapply (StronglySorted_lookup (λ x y, compareGuilds env x y <= 0));
        [|exact Hij|exact Hi|exact Hj].
      apply Array_sort_sorted. by apply compareGuilds_consistent. }
    unfold compareGuilds in Hab.
    destruct (ManageableGuild.hasBot a), (ManageableGuild.hasBot b);
      simpl in Hab; split; intros; first [done | lia].
Qed.

Lemma getManageableGuilds_sorted_witness :
  ∃ guilds,
    getManageableGuilds Scenario.env (js "user-token") = Ok guilds ∧
    map ManageableGuild.name guilds = [js "Seven"; js "Test Guild"; js "Eight"] ∧
    map ManageableGuild.hasBot guilds = [true; true; false].
Proof.
  destruct (getManageableGuilds_sorted Scenario.env (js "user-token")
              Scenario.user_guilds eq_refl Scenario_user_guilds_numeric
              Scenario_compare_units_consistent) as (guilds & Hget & _).
  exists guilds. split; [exact Hget|].
  vm_compute in Hget. injection Hget as <-. split; reflexivity.
Defined.

(** ** The configuration store *)

Lemma getGuildConfig_run (env : Env) (id : jsstring) (w : World) :
  getGuildConfig env id w = (Ok (stored_config env id w), w).
Proof.
  unfold getGuildConfig, stored_config, config_file, try_catch, bind,
    readFile_config, lift, ret.
  destruct (config_files w ≫= _) as [[| |[c|]]|]; reflexivity.
Qed.

Lemma save_permitted_tick (env : Env) (id : jsstring) (w : World) :
  save_permitted env id (tick w) ↔ save_permitted env id w.
Proof. reflexivity. Qed.

Lemma saveGuildConfig_permitted (env : Env) (config : GuildConfig.t) (w : World) :
  save_permitted env (GuildConfig.guildId config) w →
  saveGuildConfig env config w = (Ok tt, with_config env config w).
Proof.
  unfold save_permitted, saveGuildConfig, with_config, bind,
    existsSync_configDir, mkdir, writeFile, ret.
  destruct w as [[files|] stats den n]; simpl; intros [Hdir Hfile];
    repeat (case_bool_decide; simpl); done.
Qed.

Lemma saveGuildConfig_refused (env : Env) (config : GuildConfig.t) (w : World) :
  ¬ save_permitted env (GuildConfig.guildId config) w →
  ∃ w', saveGuildConfig env config w = (Throw EACCES, w') ∧
        same_files w w' ∧ ticks w' = ticks w.
Proof.
  unfold save_permitted, saveGuildConfig, bind,
    existsSync_configDir, mkdir, writeFile, ret, same_files.
  destruct w as [[files|] stats den n]; simpl; intros Hno;
    repeat (case_bool_decide; simpl);
    try (eexists; split; [reflexivity|]; simpl; try done); try tauto.
Qed.

Lemma config_file_with_config (env : Env) (config : GuildConfig.t) (w : World) :
  config_file env (GuildConfig.guildId config) (with_config env config w)
  = Some (JSON_stringify config).
Proof. unfold config_file, with_config. simpl. apply lookup_insert_eq. Qed.

Lemma stored_with_config (env : Env) (config : GuildConfig.t) (w : World) :
  stored_config env (GuildConfig.guildId config) (with_config env config w)
  = Some config.
Proof. unfold stored_config. by rewrite config_file_with_config. Qed.

Lemma config_file_with_config_ne (env : Env) (config : GuildConfig.t)
    (id : jsstring) (w : World) :
  config_path env id ≠ config_path env (GuildConfig.guildId config) →
  config_file env id (with_config env config w) = config_file env id w.
Proof.
  intros Hne. unfold config_file, with_config. simpl.
  rewrite lookup_insert_ne by done.
  destruct (config_files w); simpl; [done|apply lookup_empty].
Qed.

Lemma getOrCreate_existing (env : Env) (id name : jsstring) (w : World)
    (config : GuildConfig.t) :
  stored_config env id w = Some config →
  getOrCreateGuildConfig env id name w = (Ok config, w).
Proof.
  intros H. unfold getOrCreateGuildConfig, bind.
  by rewrite getGuildConfig_run, H.
Qed.

Lemma getOrCreate_created (env : Env) (id name : jsstring) (w : World) :
  stored_config env id w = None →
  save_permitted env id w →
  let created := default_config id name (clock env (ticks w)) in
  getOrCreateGuildConfig env id name w
  = (Ok created, with_config env created (tick w)).
Proof.
  intros H Hperm. unfold getOrCreateGuildConfig, bind.
  rewrite getGuildConfig_run, H. unfold Date_toISOString. fold (tick w).
  fold (default_config id name (clock env (ticks w))).
  by rewrite saveGuildConfig_permitted.
Qed.

Lemma getOrCreate_refused (env : Env) (id name : jsstring) (w : World) :
  stored_config env id w = None →
  ¬ save_permitted env id w →
  ∃ w', getOrCreateGuildConfig env id name w = (Throw EACCES, w') ∧
        same_files w w'.
Proof.
  intros H Hperm. unfold getOrCreateGuildConfig, bind.
  rewrite getGuildConfig_run, H. unfold Date_toISOString. fold (tick w).
  fold (default_config id name (clock env (ticks w))).
  destruct (saveGuildConfig_refused env
              (default_config id name (clock env (ticks w))) (tick w))
    as (w' & -> & Hsame & _); [done|].
  by exists w'.
Qed.

Lemma save_permitted_dec (env : Env) (id : jsstring) (w : World) :
  save_permitted env id w ∨ ¬ save_permitted env id w.
Proof.
  unfold save_permitted.
  destruct (config_files w);
    [|destruct (decide (configDir env ∈ denied w))];
    destruct (decide (config_path env id ∈ denied w)); tauto.
Qed.

Lemma Scenario_fresh_permitted (id : jsstring) :
  save_permitted Scenario.env id Scenario.fresh.
Proof. split; apply not_elem_of_empty. Qed.

(** C4.  Where the file of a guild is absent or does not parse,
    [getOrCreateGuildConfig id name] synthesizes the record with [guildId = id],
    [guildName = name], the built-in default settings and commands,
    [systemPrompt = null], [updatedBy = "system"] and [updatedAt] the current
    clock reading; with the write permitted it persists that record in the
    guild's file and returns it.  A parse failure is handled like absence and
    never surfaces: the only error the operation can raise is a refused
    write. *)
Theorem getOrCreateGuildConfig_creates (env : Env) (id name : jsstring) (w : World) :
  config_file env id w = None ∨ config_file env id w = Some Malformed →
  let created :=
    {| GuildConfig.guildId := id;
       GuildConfig.guildName := name;
       GuildConfig.settings := DEFAULT_SETTINGS;
       GuildConfig.commands := DEFAULT_COMMANDS;
       GuildConfig.systemPrompt := None;
       GuildConfig.updatedAt := clock env (ticks w);
       GuildConfig.updatedBy := js "system" |} in
  (save_permitted env id w →
     ∃ w', getOrCreateGuildConfig env id name w = (Ok created, w') ∧
           config_file env id w' = Some (JSON_stringify created) ∧
           getGuildConfig env id w' = (Ok (Some created), w')) ∧
  (fst (getOrCreateGuildConfig env id name w) = Ok created
   ∨ fst (getOrCreateGuildConfig env id name w) = Throw EACCES).
Proof.
  intros Hfile created.
  assert (Hnone : stored_config env id w = None).
  { unfold stored_config. by destruct Hfile as [-> | ->]. }
  fold (default_config id name (clock env (ticks w))) in created.
  split.
  - intros Hperm. eexists. split; [by apply getOrCreate_created|].
    split; [apply (config_file_with_config env created)|].
    rewrite getGuildConfig_run.
    by rewrite (stored_with_config env created).
  - destruct (save_permitted_dec env id w) as [Hperm|Hperm].
    + left. by rewrite getOrCreate_created.
    + right. destruct (getOrCreate_refused env id name w Hnone Hperm)
        as (w' & -> & _). done.
Qed.

Lemma getOrCreateGuildConfig_creates_witness :
  ∃ w',
    getOrCreateGuildConfig Scenario.env (js "42") (js "Test Guild") Scenario.fresh
    = (Ok Scenario.record42, w') ∧
    config_file Scenario.env (js "42") w' = Some (JSON_stringify Scenario.record42) ∧
    getGuildConfig Scenario.env (js "42") w' = (Ok (Some Scenario.record42), w').
Proof.
  exact (proj1 (getOrCreateGuildConfig_creates Scenario.env (js "42")
                  (js "Test Guild") Scenario.fresh (or_introl eq_refl))
               (Scenario_fresh_permitted (js "42"))).
Defined.

(** C5.  For a guild whose file, if it has one, can be read,
    [getOrCreateGuildConfig] is idempotent: whenever a call returns a record,
    the same call made next returns that very record and leaves the world as
    it is; and a call returns whenever the write it may need is permitted.
    (A file that [readFile] rejects is left out: on disk, overwriting such
    a file does not make it readable, and every call creates the record
    anew.) *)
Theorem getOrCreateGuildConfig_idempotent (env : Env) (id name : jsstring) (w : World) :
  config_file env id w ≠ Some Unreadable →
  (∀ config w1,
     getOrCreateGuildConfig env id name w = (Ok config, w1) →
     getOrCreateGuildConfig env id name w1 = (Ok config, w1)) ∧
  (save_permitted env id w →
   ∃ config w1, getOrCreateGuildConfig env id name w = (Ok config, w1)).
Proof.
  intros _.
  destruct (stored_config env id w) as [c|] eqn:Hstored.
  - rewrite (getOrCreate_existing env id name w c Hstored). split.
    + intros config w1 [= <- <-]. by apply getOrCreate_existing.
    + eauto.
  - destruct (save_permitted_dec env id w) as [Hperm|Hperm].
    + rewrite (getOrCreate_created env id name w Hstored Hperm). split.
      * intros config w1 [= <- <-]. apply getOrCreate_existing.
        apply (stored_with_config env (default_config id name (clock env (ticks w)))).
      * eauto.
    + destruct (getOrCreate_refused env id name w Hstored Hperm) as (w' & -> & _).
      split; [discriminate|done].
Qed.

Lemma getOrCreateGuildConfig_idempotent_witness :
  config_file Scenario.env (js "42") Scenario.fresh = None ∧
  getOrCreateGuildConfig Scenario.env (js "42") (js "Test Guild") Scenario.fresh
  = (Ok Scenario.record42, Scenario.configured) ∧
  getOrCreateGuildConfig Scenario.env (js "42") (js "Test Guild") Scenario.configured
  = (Ok Scenario.record42, Scenario.configured).
Proof.
  assert (Hfile : config_file Scenario.env (js "42") Scenario.fresh = None)
    by reflexivity.
  assert (H : getOrCreateGuildConfig Scenario.env (js "42") (js "Test Guild")
                Scenario.fresh = (Ok Scenario.record42, Scenario.configured)).
  { rewrite getOrCreate_created; [|reflexivity|apply Scenario_fresh_permitted].
    reflexivity. }
  split; [exact Hfile|]. split; [exact H|].
  refine (proj1 (getOrCreateGuildConfig_idempotent Scenario.env (js "42")
                   (js "Test Guild") Scenario.fresh _) _ _ H).
  rewrite Hfile. discriminate.
Defined.

(** ** The endpoints *)

Lemma StatsRoute_verifyAccess_authorized (env : Env) (G token : jsstring) :
  StatsRoute.verifyAccess env G token
  = (let? access := verifyAccess env G token in Ok (authorized access)).
Proof.
  unfold StatsRoute.verifyAccess, verifyAccess.
  destruct (getManageableGuilds env token) as [guilds|e]; simpl; [|done].
  destruct (find _ guilds) as [guild|]; [|done].
  by destruct (ManageableGuild.hasBot guild).
Qed.

Lemma handle_unauthenticated (env : Env) (endpoint : Endpoint)
    (request : Request) (w : World) :
  session_token request = None →
  handle env endpoint request w = (Ok (NextResponse_error "Unauthorized" 401), w).
Proof. intros Hs. destruct endpoint; unfold_handlers; by rewrite Hs. Qed.

Lemma handle_verification_throws (env : Env) (endpoint : Endpoint)
    (request : Request) (token : jsstring) (e : Exn) (w : World) :
  session_token request = Some token →
  verifyAccess env (guildId request) token = Throw e →
  handle env endpoint request w = (Throw e, w).
Proof.
  intros Hs Hv. destruct endpoint; unfold_handlers; rewrite Hs;
    unfold bind, lift; rewrite ?StatsRoute_verifyAccess_authorized, Hv; done.
Qed.

Lemma handle_denied (env : Env) (endpoint : Endpoint)
    (request : Request) (token : jsstring) (w : World) :
  session_token request = Some token →
  verifyAccess env (guildId request) token = Ok Denied →
  handle env endpoint request w = (Ok (NextResponse_error "Forbidden" 403), w).
Proof.
  intros Hs Hv. destruct endpoint; unfold_handlers; rewrite Hs;
    unfold bind, lift; rewrite ?StatsRoute_verifyAccess_authorized, Hv; done.
Qed.

Lemma handle_granted (env : Env) (endpoint : Endpoint)
    (request : Request) (token guildName : jsstring) (w : World) :
  session_token request = Some token →
  verifyAccess env (guildId request) token = Ok (Granted guildName) →
  handle env endpoint request w
  = match operation env endpoint request guildName w with
    | (Ok result, w') => (Ok (NextResponse_json result), w')
    | (Throw _, w') => (Ok (NextResponse_error (failure_message endpoint) 500), w')
    end.
Proof.
  intros Hs Hv. destruct endpoint; unfold_handlers; rewrite Hs;
    unfold bind at 1, lift at 1;
    rewrite ?StatsRoute_verifyAccess_authorized, Hv; simpl;
    unfold try_catch, bind, lift, ret;
    repeat case_match; simplify_eq; done.
Qed.

(** C3.  Every guild-scoped endpoint, on every request: without a session
    token it answers 401 Unauthorized; with one and access verification
    returning "not authorized" it answers 403 Forbidden; with access granted
    it runs its store or reader operation and answers 500 when the operation
    fails and 200 with the operation's result when it succeeds.  Up to the
    end of access verification nothing is written: on a 401 or a 403 the
    world, stored configuration included, is unchanged. *)
Theorem endpoint_protocol (env : Env) (endpoint : Endpoint)
    (request : Request) (w : World) :
  (session_token request = None →
   handle env endpoint request w
   = (Ok {| status := 401; payload := ErrorBody (js "Unauthorized") |}, w)) ∧
  (∀ token,
     session_token request = Some token →
     verifyAccess env (guildId request) token = Ok Denied →
     handle env endpoint request w
     = (Ok {| status := 403; payload := ErrorBody (js "Forbidden") |}, w)) ∧
  (∀ token guildName,
     session_token request = Some token →
     verifyAccess env (guildId request) token = Ok (Granted guildName) →
     (∀ e w',
        operation env endpoint request guildName w = (Throw e, w') →
        handle env endpoint request w
        = (Ok {| status := 500;
                 payload := ErrorBody (js (failure_message endpoint)) |}, w')) ∧
     (∀ result w',
        operation env endpoint request guildName w = (Ok result, w') →
        handle env endpoint request w
        = (Ok {| status := 200; payload := result |}, w'))) ∧
  (∀ response w',
     handle env endpoint request w = (Ok response, w') →
     status response = 401 ∨ status response = 403 →
     w' = w).
Proof.
  split; [apply handle_unauthenticated|].
  split; [intros token; apply handle_denied|]. split.
  - intros token guildName Hs Hv.
    rewrite (handle_granted env endpoint request token guildName w Hs Hv).
    split; intros ? w' ->; reflexivity.
  - intros response w' Hrun Hstatus.
    destruct (session_token request) as [token|] eqn:Hs.
    + destruct (verifyAccess env (guildId request) token) as [[|guildName]|e] eqn:Hv.
      * rewrite (handle_denied env endpoint request token w Hs Hv) in Hrun.
        by injection Hrun.
      * rewrite (handle_granted env endpoint request token guildName w Hs Hv) in Hrun.
        destruct (operation env endpoint request guildName w) as [[result|e] w''];
          injection Hrun as <- <-; simpl in Hstatus; lia.
      * rewrite (handle_verification_throws env endpoint request token e w Hs Hv)
          in Hrun. discriminate.
    + rewrite (handle_unauthenticated env endpoint request w Hs) in Hrun.
      by injection Hrun.
Qed.

(** ** Failing upstream queries *)

Lemma getBotGuilds_failed (env : Env) :
  bot_query_failed env = true → getBotGuilds env = [].
Proof.
  unfold bot_query_failed, getBotGuilds.
  destruct (usable_token _); [|done]. by destruct (discord_bot_guilds _ _).
Qed.

Lemma verifyAccess_user_query_failed (env : Env) (G token : jsstring) :
  user_query_failed env token = true →
  ∃ e, getUserGuilds env token = Throw e ∧ verifyAccess env G token = Throw e.
Proof.
  unfold user_query_failed, verifyAccess, getManageableGuilds, getUserGuilds.
  destruct (discord_user_guilds env token); simpl; eauto. discriminate.
Qed.

(** C2, counterexample.  With the bot's guild-list query answering 503, the
    owner of guild 42, whom the same platform admits when that query works,
    is told "not authorized": the endpoint answers 403 Forbidden, and no
    failure reaches the caller. *)
Lemma bot_query_failure_answers_forbidden :
  bot_query_failed Scenario.env_bot_down = true ∧
  verifyAccess Scenario.env (js "42") (js "user-token")
  = Ok (Granted (js "Test Guild")) ∧
  verifyAccess Scenario.env_bot_down (js "42") (js "user-token") = Ok Denied ∧
  fst (ConfigRoute.PUT Scenario.env_bot_down
         (Scenario.put "42" (Scenario.fields_settings Scenario.only_temperature))
         Scenario.configured)
  = Ok {| status := 403; payload := ErrorBody (js "Forbidden") |}.
Proof. vm_compute. repeat split. Qed.

(** C2, as amended.  On every request that carries a session token: a
    failure of the caller's guild-list query is rethrown by [getUserGuilds],
    leaves access verification as that error and leaves the guild-scoped
    endpoint uncaught, with nothing written (the guild-list endpoint, which
    has the call inside its [try], answers 500); a failure of the bot's guild-list query
    (or a missing bot token) is caught inside [getBotGuilds] and replaced by
    the empty list, so that verification answers "not authorized" and the
    endpoint 403 Forbidden for every guild, as if the bot were in none. *)
Theorem upstream_failure_outcomes (env : Env) (endpoint : Endpoint)
    (request : Request) (token : jsstring) (w : World) :
  session_token request = Some token →
  (user_query_failed env token = true →
   ∃ e, getUserGuilds env token = Throw e ∧
        verifyAccess env (guildId request) token = Throw e ∧
        handle env endpoint request w = (Throw e, w) ∧
        GuildsRoute.GET env (session request) w
        = (Ok {| status := 500; payload := ErrorBody (js "Failed to fetch guilds") |},
           w)) ∧
  (bot_query_failed env = true →
   getBotGuilds env = [] ∧
   ∀ userGuilds,
     discord_user_guilds env token = HttpOk userGuilds →
     Forall numeric_permissions userGuilds →
     verifyAccess env (guildId request) token = Ok Denied ∧
     handle env endpoint request w
     = (Ok {| status := 403; payload := ErrorBody (js "Forbidden") |}, w)).
Proof.
  intros Hs. split.
  - intros Hfail.
    destruct (verifyAccess_user_query_failed env (guildId request) token Hfail)
      as (e & Hget & Hv).
    exists e. split; [done|]. split; [done|]. split.
    + by apply (handle_verification_throws env endpoint request token).
    + unfold GuildsRoute.GET. unfold session_token in Hs. rewrite Hs.
      unfold try_catch, bind, lift, getManageableGuilds. by rewrite Hget.
  - intros Hfail. pose proof (getBotGuilds_failed env Hfail) as Hbot.
    split; [done|]. intros userGuilds Hfetch Hnum.
    destruct (verifyAccess_decides env token (guildId request) userGuilds
                Hfetch Hnum) as (access & Hv & Hiff).
    assert (access = Denied) as ->.
    { apply not_authorized_Denied. rewrite Hiff, Hbot.
      intros [Hin _]. by apply elem_of_nil in Hin. }
    split; [done|]. by apply (handle_denied env endpoint request token).
Qed.

Lemma upstream_failure_outcomes_witness :
  (∃ e, getUserGuilds Scenario.env_user_down (js "user-token") = Throw e ∧
        verifyAccess Scenario.env_user_down (js "42") (js "user-token") = Throw e ∧
        handle Scenario.env_user_down PutConfig
          (Scenario.put "42" (Scenario.fields_settings Scenario.only_temperature))
          Scenario.configured
        = (Throw e, Scenario.configured) ∧
        GuildsRoute.GET Scenario.env_user_down (Some Scenario.session42)
          Scenario.configured
        = (Ok {| status := 500; payload := ErrorBody (js "Failed to fetch guilds") |},
           Scenario.configured)) ∧
  verifyAccess Scenario.env_bot_down (js "42") (js "user-token") = Ok Denied ∧
  handle Scenario.env_bot_down PutConfig
    (Scenario.put "42" (Scenario.fields_settings Scenario.only_temperature))
    Scenario.configured
  = (Ok {| status := 403; payload := ErrorBody (js "Forbidden") |},
     Scenario.configured).
Proof.
  split.
  - exact (proj1 (upstream_failure_outcomes Scenario.env_user_down PutConfig
                    (Scenario.put "42" (Scenario.fields_settings Scenario.only_temperature))
                    (js "user-token") Scenario.configured eq_refl) eq_refl).
  - exact (proj2 (proj2 (upstream_failure_outcomes Scenario.env_bot_down PutConfig
                    (Scenario.put "42" (Scenario.fields_settings Scenario.only_temperature))
                    (js "user-token") Scenario.configured eq_refl) eq_refl)
                 Scenario.user_guilds eq_refl Scenario_user_guilds_numeric).
Defined.

Lemma endpoint_protocol_witness :
  handle Scenario.env PutConfig
    {| session := None; guildId := js "42"; body := BodyNull |} Scenario.configured
  = (Ok {| status := 401; payload := ErrorBody (js "Unauthorized") |},
     Scenario.configured) ∧
  handle Scenario.env PutConfig
    (Scenario.put "8" (Scenario.fields_settings Scenario.only_temperature))
    Scenario.configured
  = (Ok {| status := 403; payload := ErrorBody (js "Forbidden") |},
     Scenario.configured) ∧
  handle Scenario.env PutConfig
    {| session := Some Scenario.session42; guildId := js "42"; body := BodyUnreadable |}
    Scenario.configured
  = (Ok {| status := 500; payload := ErrorBody (js "Failed to update config") |},
     Scenario.configured).
Proof.
  split; [|split].
  - exact (proj1 (endpoint_protocol Scenario.env PutConfig
                    {| session := None; guildId := js "42"; body := BodyNull |}
                    Scenario.configured)
             eq_refl).
  - refine (proj1 (proj2 (endpoint_protocol Scenario.env PutConfig
                    (Scenario.put "8" (Scenario.fields_settings Scenario.only_temperature))
                    Scenario.configured))
             (js "user-token") eq_refl _).
    vm_compute. reflexivity.
  - refine (proj1 (proj1 (proj2 (proj2
             (endpoint_protocol Scenario.env PutConfig
                {| session := Some Scenario.session42; guildId := js "42";
                   body := BodyUnreadable |}
                Scenario.configured)))
             (js "user-token") (js "Test Guild") eq_refl _)
             SyntaxError Scenario.configured eq_refl).
    vm_compute. reflexivity.
Defined.

(** ** The update functions *)

Lemma loaded_guildId (env : Env) (id name : jsstring) (w : World) :
  stored_config env id w = None →
  GuildConfig.guildId (fst (loaded env id name w)) = id.
Proof. intros H. unfold loaded. by rewrite H. Qed.

Lemma getOrCreate_loaded (env : Env) (id name : jsstring) (w : World) :
  save_permitted env (GuildConfig.guildId (fst (loaded env id name w))) w →
  getOrCreateGuildConfig env id name w
  = (Ok (fst (loaded env id name w)), snd (loaded env id name w)).
Proof.
  unfold loaded. destruct (stored_config env id w) as [c|] eqn:Hs; simpl.
  - intros _. by apply getOrCreate_existing.
  - intros Hperm. by apply getOrCreate_created.
Qed.

Lemma save_permitted_loaded (env : Env) (id name id' : jsstring) (w : World) :
  save_permitted env id' w → save_permitted env id' (snd (loaded env id name w)).
Proof.
  unfold loaded. destruct (stored_config env id w); simpl; [done|].
  intros [_ H]. by split.
Qed.

Lemma same_files_stored (env : Env) (id : jsstring) (w w' : World) :
  same_files w w' → stored_config env id w' = stored_config env id w.
Proof.
  intros (Hf & _ & _). unfold stored_config, config_file. by rewrite Hf.
Qed.

Lemma same_files_refl (w : World) : same_files w w.
Proof. done. Qed.

Lemma same_files_tick (w w' : World) : same_files (tick w) w' → same_files w w'.
Proof. done. Qed.

(** An update whose write is permitted. *)
Lemma run_update_permitted (env : Env) (id name : jsstring) (update : Update)
    (actor : jsstring) (w : World) :
  let base := fst (loaded env id name w) in
  let w0 := snd (loaded env id name w) in
  save_permitted env (GuildConfig.guildId base) w →
  let after := updated update (clock env (ticks w0)) actor base in
  run_update env id name update actor w
  = (Ok after, with_config env after (tick w0)).
Proof.
  intros base w0 Hperm after.
  pose proof (getOrCreate_loaded env id name w Hperm) as Hload.
  pose proof (save_permitted_loaded env id name _ w Hperm) as Hperm0.
  fold base w0 in Hload, Hperm0.
  destruct update; simpl;
    unfold updateGuildSettings, updateGuildCommands, updateGuildPrompt, bind;
    rewrite Hload; unfold Date_toISOString; fold (tick w0);
    match goal with
    | |- context [saveGuildConfig env ?c (tick w0)] =>
        change c with after;
        rewrite (saveGuildConfig_permitted env after (tick w0)) by exact Hperm0
    end; reflexivity.
Qed.

(** An update whose write is refused changes no file. *)
Lemma run_update_refused (env : Env) (id name : jsstring) (update : Update)
    (actor : jsstring) (w : World) :
  ¬ save_permitted env (GuildConfig.guildId (fst (loaded env id name w))) w →
  ∃ w', run_update env id name update actor w = (Throw EACCES, w') ∧
        same_files w w'.
Proof.
  intros Hperm. unfold loaded in Hperm.
  destruct (stored_config env id w) as [c|] eqn:Hs; simpl in Hperm.
  - pose proof (getOrCreate_existing env id name w c Hs) as Hload.
    destruct update; simpl;
      unfold updateGuildSettings, updateGuildCommands, updateGuildPrompt, bind;
      rewrite Hload; unfold Date_toISOString; fold (tick w);
      match goal with
      | |- context [saveGuildConfig env ?c' (tick w)] =>
          destruct (saveGuildConfig_refused env c' (tick w) Hperm)
            as (w' & -> & Hsame & _)
      end; by exists w'.
  - destruct (getOrCreate_refused env id name w Hs Hperm) as (w' & Hload & Hsame).
    exists w'. split; [|done].
    destruct update; simpl;
      unfold updateGuildSettings, updateGuildCommands, updateGuildPrompt, bind;
      by rewrite Hload.
Qed.

Lemma loaded_existing (env : Env) (id name : jsstring) (w : World)
    (prior : GuildConfig.t) :
  stored_config env id w = Some prior → loaded env id name w = (prior, w).
Proof. intros H. unfold loaded. by rewrite H. Qed.

(** C6, counterexample.  Guild 42 has a record stamped
    2026-01-01T00:00:00.000Z and the clock still shows that millisecond: the
    settings update goes through, and [updatedAt] is the same string as
    before, not a later one. *)
Lemma updatedAt_not_increased :
  stored_config Scenario.env (js "42") Scenario.configured = Some Scenario.record42 ∧
  ∃ after w',
    updateGuildSettings Scenario.env (js "42") (js "Test Guild")
      (Some Scenario.only_temperature) (js "1001") Scenario.configured
    = (Ok after, w') ∧
    GuildConfig.updatedAt after = GuildConfig.updatedAt Scenario.record42 ∧
    jsstring_ltb (GuildConfig.updatedAt Scenario.record42)
                 (GuildConfig.updatedAt after) = false.
Proof.
  split; [by vm_compute|].
  pose proof (run_update_permitted Scenario.env (js "42") (js "Test Guild")
                (SetSettings (Some Scenario.only_temperature)) (js "1001")
                Scenario.configured) as Hrun.
  simpl in Hrun. eexists _, _. split.
  - apply Hrun. split; [done|apply not_elem_of_empty].
  - by vm_compute.
Qed.

(** C6, as amended.  For a stored record and a partial settings object,
    [updateGuildSettings] (its write permitted) returns and stores a record
    in which every settings field the partial object names has the named
    value and every other settings field its prior value, [commands],
    [systemPrompt], [guildId] and [guildName] are unchanged, [updatedBy] is
    the supplied actor, and [updatedAt] is the clock reading taken by the
    update (later than the prior stamp only if the clock has moved on). *)
Theorem updateGuildSettings_frame (env : Env) (id name actor : jsstring)
    (partial : PartialSettings.t) (w : World) (prior : GuildConfig.t) :
  stored_config env id w = Some prior →
  save_permitted env (GuildConfig.guildId prior) w →
  ∃ after w',
    updateGuildSettings env id name (Some partial) actor w = (Ok after, w') ∧
    stored_config env (GuildConfig.guildId prior) w' = Some after ∧
    (let old := GuildConfig.settings prior in
     let new := GuildConfig.settings after in
     merged (GuildSettings.maxTokensPerChannel old)
            (PartialSettings.maxTokensPerChannel partial)
            (GuildSettings.maxTokensPerChannel new) ∧
     merged (GuildSettings.messageExpiryDays old)
            (PartialSettings.messageExpiryDays partial)
            (GuildSettings.messageExpiryDays new) ∧
     merged (GuildSettings.charsPerTokenEstimate old)
            (PartialSettings.charsPerTokenEstimate partial)
            (GuildSettings.charsPerTokenEstimate new) ∧
     merged (GuildSettings.maxResponseTokens old)
            (PartialSettings.maxResponseTokens partial)
            (GuildSettings.maxResponseTokens new) ∧
     merged (GuildSettings.scoreThreshold old)
            (PartialSettings.scoreThreshold partial)
            (GuildSettings.scoreThreshold new) ∧
     merged (GuildSettings.rateLimitSeconds old)
            (PartialSettings.rateLimitSeconds partial)
            (GuildSettings.rateLimitSeconds new) ∧
     merged (GuildSettings.temperature old)
            (PartialSettings.temperature partial)
            (GuildSettings.temperature new) ∧
     merged (GuildSettings.model old)
            (PartialSettings.model partial)
            (GuildSettings.model new) ∧
     merged (GuildSettings.skipCategories old)
            (PartialSettings.skipCategories partial)
            (GuildSettings.skipCategories new)) ∧
    GuildConfig.commands after = GuildConfig.commands prior ∧
    GuildConfig.systemPrompt after = GuildConfig.systemPrompt prior ∧
    GuildConfig.guildId after = GuildConfig.guildId prior ∧
    GuildConfig.guildName after = GuildConfig.guildName prior ∧
    GuildConfig.updatedAt after = clock env (ticks w) ∧
    GuildConfig.updatedBy after = actor.
Proof.
  intros Hstored Hperm.
  pose proof (run_update_permitted env id name (SetSettings (Some partial)) actor w)
    as Hrun.
  rewrite (loaded_existing env id name w prior Hstored) in Hrun. simpl in Hrun.
  specialize (Hrun Hperm).
  eexists _, _. split; [exact Hrun|]. split.
  - apply (stored_with_config env
             (updated (SetSettings (Some partial)) (clock env (ticks w)) actor prior)).
  - simpl. unfold merged. destruct partial as [f1 f2 f3 f4 f5 f6 f7 f8 f9]. simpl.
    destruct f1, f2, f3, f4, f5, f6, f7, f8, f9; done.
Qed.

Lemma updateGuildSettings_frame_witness :
  ∃ after w',
    updateGuildSettings Scenario.env (js "42") (js "Another Name")
      (Some Scenario.only_temperature) (js "1001") Scenario.configured
    = (Ok after, w') ∧
    stored_config Scenario.env (js "42") w' = Some after ∧
    GuildSettings.temperature (GuildConfig.settings after) = (1 # 2)%Q ∧
    GuildSettings.scoreThreshold (GuildConfig.settings after) = (8 # 1)%Q ∧
    GuildConfig.commands after = DEFAULT_COMMANDS ∧
    GuildConfig.guildName after = js "Test Guild" ∧
    GuildConfig.updatedBy after = js "1001".
Proof.
  destruct (updateGuildSettings_frame Scenario.env (js "42") (js "Another Name")
              (js "1001") Scenario.only_temperature Scenario.configured
              Scenario.record42)
    as (after & w' & Hrun & Hstored & Hsettings & Hcommands & _ & _ & Hname & _ & Hby).
  - by vm_compute.
  - split; [done|apply not_elem_of_empty].
  - exists after, w'. simpl in Hsettings.
    destruct Hsettings as (_ & _ & _ & _ & Hscore & _ & Htemp & _).
    repeat split; assumption.
Defined.

Lemma stored_config_with_config (env : Env) (config : GuildConfig.t)
    (id : jsstring) (w : World) :
  stored_config env id (with_config env config w)
  = if decide (config_path env id = config_path env (GuildConfig.guildId config))
    then Some config
    else stored_config env id w.
Proof.
  case_decide as Hpath.
  - unfold stored_config, config_file. rewrite Hpath.
    fold (config_file env (GuildConfig.guildId config) (with_config env config w)).
    by rewrite config_file_with_config.
  - unfold stored_config. by rewrite config_file_with_config_ne.
Qed.

(** The store keeps its invariant. *)
Lemma well_filed_with_config (env : Env) (config : GuildConfig.t) (w : World) :
  well_filed env w → well_filed env (with_config env config w).
Proof.
  intros Hw id c. rewrite stored_config_with_config.
  case_decide as Hpath; [by intros [= <-]|]. apply Hw.
Qed.

Lemma well_filed_same_files (env : Env) (w w' : World) :
  same_files w w' → well_filed env w → well_filed env w'.
Proof.
  intros Hsame Hw id c. rewrite (same_files_stored env id w w' Hsame). apply Hw.
Qed.

Lemma getOrCreate_well_filed (env : Env) (id name : jsstring) (w : World) :
  well_filed env w → well_filed env (snd (getOrCreateGuildConfig env id name w)).
Proof.
  intros Hw. destruct (stored_config env id w) as [c|] eqn:Hstored.
  - by rewrite (getOrCreate_existing env id name w c Hstored).
  - destruct (save_permitted_dec env id w) as [Hperm|Hperm].
    + rewrite (getOrCreate_created env id name w Hstored Hperm). simpl.
      by apply well_filed_with_config.
    + destruct (getOrCreate_refused env id name w Hstored Hperm)
        as (w' & -> & Hsame). simpl. by eapply well_filed_same_files.
Qed.

Lemma run_update_well_filed (env : Env) (id name : jsstring) (update : Update)
    (actor : jsstring) (w : World) :
  well_filed env w → well_filed env (snd (run_update env id name update actor w)).
Proof.
  intros Hw.
  destruct (save_permitted_dec env
              (GuildConfig.guildId (fst (loaded env id name w))) w) as [Hperm|Hperm].
  - rewrite (run_update_permitted env id name update actor w Hperm). simpl.
    apply well_filed_with_config. unfold loaded.
    destruct (stored_config env id w); simpl; [done|].
    by apply well_filed_with_config.
  - destruct (run_update_refused env id name update actor w Hperm)
      as (w' & -> & Hsame). simpl. by eapply well_filed_same_files.
Qed.



(** ** The stats reader *)

Lemma getBotStats_run (w : World) :
  getBotStats w
  = (Ok match stats_file w with
        | Some (Json stats) => stats
        | _ => JNull
        end, w).
Proof.
  unfold getBotStats, try_catch, bind, readFile_stats, lift, ret.
  by destruct (stats_file w) as [[| |stats]|].
Qed.

(** C7, counterexample.  The stats artifact is present and parses (to the
    JSON literal null), and [getGuildStats] gives the "no data" signal. *)
Lemma null_artifact_gives_no_data :
  stats_file Scenario.null_stats = Some (Json JNull) ∧
  JSON_parse (Json JNull) = Ok JNull ∧
  getGuildStats (js "42") Scenario.null_stats = (Ok None, Scenario.null_stats).
Proof. by vm_compute. Qed.

(** C7, as amended.  [getGuildStats] never throws and writes nothing.  It
    returns the "no data" signal (null) exactly when the stats artifact is
    absent, cannot be read, does not parse, or parses to a falsy value
    (null, false, 0, the empty string).  When the artifact parses to
    anything else and has no entry for the guild, it returns
    [messagesCached = 0], [tokensUsed = 0], [lastActivity = "Never"], with
    [botUptime] and [botLatency] the artifact's top-level [uptime] and
    [latency] ("Unknown" and 0 where the artifact has none). *)
Theorem getGuildStats_no_data (id : jsstring) (w : World) :
  (∃ r, getGuildStats id w = (Ok r, w)) ∧
  (fst (getGuildStats id w) = Ok None ↔ no_stats w) ∧
  (∀ stats,
     stats_file w = Some (Json stats) →
     truthy stats = true →
     no_entry stats id →
     fst (getGuildStats id w)
     = Ok (Some
         {| GuildStats.messagesCached := JNumber 0;
            GuildStats.tokensUsed := JNumber 0;
            GuildStats.lastActivity := JString (js "Never");
            GuildStats.botUptime :=
              match get_prop stats (js "uptime") with
              | None | Some JNull => JString (js "Unknown")
              | Some uptime => uptime
              end;
            GuildStats.botLatency :=
              match get_prop stats (js "latency") with
              | None | Some JNull => JNumber 0
              | Some latency => latency
              end |})).
Proof.
  unfold getGuildStats, bind, no_stats. rewrite getBotStats_run.
  destruct (stats_file w) as [[| |stats]|] eqn:Hfile; simpl.
  1, 2, 4: (split; [by eexists|]; split; [done|]; intros; discriminate).
  destruct (truthy stats) eqn:Htruthy; simpl.
  - split; [by eexists|]. split; [split; discriminate|].
    intros stats' [= <-] _ Hentry. unfold no_entry in Hentry.
    unfold ret. simpl. do 2 f_equal.
    destruct (get_prop_opt (get_prop stats (js "guilds")) id) as [[]|];
      done.
  - split; [by eexists|]. split; [done|].
    intros stats' [= <-]. congruence.
Qed.

Lemma getGuildStats_no_data_witness :
  fst (getGuildStats (js "42") Scenario.with_stats)
  = Ok (Some
      {| GuildStats.messagesCached := JNumber 0;
         GuildStats.tokensUsed := JNumber 0;
         GuildStats.lastActivity := JString (js "Never");
         GuildStats.botUptime := JString (js "3 days");
         GuildStats.botLatency := JNumber (42 # 1)%Q |}).
Proof.
  refine (proj2 (proj2 (getGuildStats_no_data (js "42") Scenario.with_stats))
            Scenario.stats_artifact eq_refl eq_refl _).
  by vm_compute.
Defined.

(** ** Trimming and the prompt endpoint *)

Lemma blank_head (c : N) (t : jsstring) : blank (c :: t) → isWhiteSpace c = true.
Proof. unfold blank. by intros [H _]%Forall_cons. Qed.

Lemma trimStart_blank (s : jsstring) : trimStart s = [] ↔ blank s.
Proof.
  unfold blank. induction s as [|c s IH]; simpl.
  - split; [constructor|done].
  - destruct (isWhiteSpace c) eqn:Hc.
    + rewrite IH. split; [by constructor|]. by inversion 1.
    + split; [done|]. inversion 1; congruence.
Qed.

Lemma trimStart_head (s : jsstring) (c : N) (t : jsstring) :
  trimStart s = c :: t → isWhiteSpace c = false.
Proof.
  induction s as [|x s IH]; simpl; [done|].
  destruct (isWhiteSpace x) eqn:Hx; [done|]. by intros [= <- _].
Qed.

Lemma trimStart_keeps_last (l : jsstring) (x : N) :
  isWhiteSpace x = false → ∃ l', trimStart (l ++ [x]) = l' ++ [x].
Proof.
  intros Hx. induction l as [|y l [l' IH]]; simpl.
  - rewrite Hx. by exists [].
  - destruct (isWhiteSpace y); [by exists l'|]. by exists (y :: l).
Qed.

Lemma blank_rev (s : jsstring) : blank (rev s) ↔ blank s.
Proof.
  unfold blank. rewrite !Forall_forall.
  split; intros H c Hc; apply H; revert Hc;
    rewrite !list_elem_of_In, <- in_rev; done.
Qed.

Lemma trim_blank (s : jsstring) : trim s = [] ↔ blank s.
Proof.
  unfold trim, trimEnd. rewrite <- (trimStart_blank s). split.
  - intros H. apply (f_equal (@rev N)) in H. rewrite rev_involutive in H.
    simpl in H. apply (proj1 (trimStart_blank _)) in H.
    apply (proj1 (blank_rev _)) in H.
    destruct (trimStart s) as [|c t] eqn:Hs; [done|].
    apply trimStart_head in Hs. apply blank_head in H. congruence.
  - by intros ->.
Qed.

Lemma trim_head (s : jsstring) (c : N) (t : jsstring) :
  trim s = c :: t → isWhiteSpace c = false.
Proof.
  unfold trim, trimEnd.
  destruct (trimStart s) as [|x u] eqn:Hs; [done|].
  pose proof (trimStart_head _ _ _ Hs) as Hx. simpl.
  destruct (trimStart_keeps_last (rev u) x Hx) as [l' ->].
  rewrite rev_app_distr. simpl. by intros [= <- _].
Qed.

Lemma isCustom_of_spec (systemPrompt : option jsstring) :
  isCustom_of systemPrompt = match systemPrompt with None => false | Some _ => true end.
Proof. by destruct systemPrompt. Qed.

(** What [body.systemPrompt?.trim() || null] evaluates to. *)
Lemma promptValue_spec (p : PromptField) :
  p ≠ PromptOther →
  ∃ value,
    promptValue p = Ok value ∧
    match p with
    | PromptText s => (blank s → value = None) ∧ (¬ blank s → value = Some (trim s))
    | _ => value = None
    end ∧
    (∀ t, value = Some t → ¬ blank t).
Proof.
  intros Hp. destruct p as [|s|]; [by exists None| |done].
  unfold promptValue. destruct (trim s) as [|c t] eqn:Htrim.
  - exists None. split; [done|]. split; [|done].
    split; [done|]. intros Hs. exfalso. by apply Hs, trim_blank.
  - exists (Some (c :: t)). split; [done|]. split.
    + split; [|done]. intros Hs. apply trim_blank in Hs. congruence.
    + intros ? [= <-] Hb. apply trim_head in Htrim.
      apply blank_head in Hb. congruence.
Qed.

(** C9.  On an authorized prompt write whose body carries a prompt that is
    missing (or null) or a string, the value written is null when the prompt
    is missing, empty or white space only, and the trimmed prompt otherwise,
    so it is never an empty or white-space-only string.  Whenever the
    endpoint answers 200, the record stored for the guild has exactly that
    [systemPrompt] and the response reports it, with [isCustom] false
    exactly when it is null; and the endpoint answers 200 whenever the write
    is permitted. *)
Theorem prompt_write_normalized (env : Env) (request : Request)
    (token guildName : jsstring) (fields : BodyFields) (w : World) :
  session_token request = Some token →
  verifyAccess env (guildId request) token = Ok (Granted guildName) →
  body request = BodyValue fields →
  body_systemPrompt fields ≠ PromptOther →
  let target :=
    GuildConfig.guildId (fst (loaded env (guildId request) guildName w)) in
  ∃ value,
    match body_systemPrompt fields with
    | PromptText s => (blank s → value = None) ∧ (¬ blank s → value = Some (trim s))
    | _ => value = None
    end ∧
    (∀ t, value = Some t → ¬ blank t) ∧
    (isCustom_of value = false ↔ value = None) ∧
    (∀ response w',
       PromptRoute.PUT env request w = (Ok response, w') →
       status response = 200 →
       payload response = PromptUpdated value (isCustom_of value) ∧
       ∃ config,
         stored_config env target w' = Some config ∧
         GuildConfig.systemPrompt config = value) ∧
    (save_permitted env target w →
     ∃ w', PromptRoute.PUT env request w
           = (Ok {| status := 200;
                    payload := PromptUpdated value (isCustom_of value) |}, w')).
Proof.
  intros Hs Hv Hbody Hp target.
  destruct (promptValue_spec (body_systemPrompt fields) Hp)
    as (value & Hvalue & Hshape & Hblank).
  exists value. split; [done|]. split; [done|]. split.
  { rewrite isCustom_of_spec. by destruct value. }
  change (PromptRoute.PUT env request w) with (handle env PutPrompt request w).
  rewrite (handle_granted env PutPrompt request token guildName w Hs Hv).
  assert (Hop : operation env PutPrompt request guildName w
                = match run_update env (guildId request) guildName
                          (SetPrompt value) (session_user_id request) w with
                  | (Ok config, w') =>
                      (Ok (PromptUpdated (GuildConfig.systemPrompt config)
                             (isCustom_of (GuildConfig.systemPrompt config))), w')
                  | (Throw e, w') => (Throw e, w')
                  end).
  { unfold operation, bind at 1, lift at 1, request_fields. rewrite Hbody.
    unfold bind at 1, lift at 1. rewrite Hvalue. reflexivity. }
  rewrite Hop. clear Hop.
  pose proof (run_update_permitted env (guildId request) guildName
                (SetPrompt value) (session_user_id request) w) as Hok.
  pose proof (run_update_refused env (guildId request) guildName
                (SetPrompt value) (session_user_id request) w) as Hno.
  cbv zeta in Hok. fold target in Hok, Hno.
  destruct (save_permitted_dec env target w) as [Hperm|Hperm].
  - rewrite (Hok Hperm). simpl. split; [|eauto].
    intros response w' [= <- <-] _. split; [done|].
    eexists. split.
    + apply (stored_with_config env
               (updated (SetPrompt value) _ (session_user_id request)
                  (fst (loaded env (guildId request) guildName w)))).
    + reflexivity.
  - destruct (Hno Hperm) as (w1 & -> & _). split; [|done].
    intros response w' [= <- <-]. simpl. lia.
Qed.

Lemma prompt_write_normalized_witness :
  ∃ w' config,
    PromptRoute.PUT Scenario.env
      (Scenario.put "42"
         (Scenario.fields_prompt (PromptText (js "   ")))) Scenario.configured
    = (Ok {| status := 200; payload := PromptUpdated None false |}, w') ∧
    stored_config Scenario.env (js "42") w' = Some config ∧
    GuildConfig.systemPrompt config = None.
Proof.
  destruct (prompt_write_normalized Scenario.env
              (Scenario.put "42" (Scenario.fields_prompt (PromptText (js "   "))))
              (js "user-token") (js "Test Guild")
              (Scenario.fields_prompt (PromptText (js "   ")))
              Scenario.configured)
    as (value & Hshape & _ & _ & Hstored & Hreturns).
  - reflexivity.
  - by vm_compute.
  - reflexivity.
  - discriminate.
  - simpl in Hshape. destruct Hshape as [Hnull _].
    rewrite Hnull in * by (repeat constructor).
    destruct Hreturns as [w' Hrun].
    { split; [done|apply not_elem_of_empty]. }
    destruct (Hstored _ _ Hrun eq_refl) as (_ & config & Hconfig & Hprompt).
    exists w', config. split; [exact Hrun|]. split; [|done].
    exact Hconfig.
Defined.

(** * Further properties *)

(** ** The store: creating, updating, composing updates *)

Lemma Scenario_configured_permitted (id : jsstring) :
  save_permitted Scenario.env id Scenario.configured.
Proof. split; [done|apply not_elem_of_empty]. Qed.

Lemma Scenario_configured_stored :
  stored_config Scenario.env (js "42") Scenario.configured = Some Scenario.record42.
Proof. by vm_compute. Qed.

Lemma Cases_protected_refused :
  ¬ save_permitted Scenario.env (js "42") Cases.protected.
Proof. intros [_ H]. apply H. simpl. set_solver. Qed.

Lemma Cases_protected_stored :
  stored_config Scenario.env (js "42") Cases.protected = Some Scenario.record42.
Proof. by vm_compute. Qed.

Lemma run_update_existing (env : Env) (id name : jsstring) (update : Update)
    (actor : jsstring) (w : World) (prior : GuildConfig.t) :
  stored_config env id w = Some prior →
  save_permitted env (GuildConfig.guildId prior) w →
  run_update env id name update actor w
  = (Ok (updated update (clock env (ticks w)) actor prior),
     with_config env (updated update (clock env (ticks w)) actor prior) (tick w)).
Proof.
  intros Hstored Hperm.
  pose proof (run_update_permitted env id name update actor w) as Hrun.
  rewrite (loaded_existing env id name w prior Hstored) in Hrun.
  by apply Hrun.
Qed.

Lemma save_permitted_with_config (env : Env) (config : GuildConfig.t)
    (id : jsstring) (w : World) :
  save_permitted env id w → save_permitted env id (with_config env config w).
Proof. intros [_ H]. by split. Qed.

(** X3.  When the file of a guild cannot be read, or holds the JSON literal
    null, [getOrCreateGuildConfig] treats the guild as new: with the write
    permitted it replaces the file by the default record and returns that
    record. *)
Theorem getOrCreate_replaces_unusable (env : Env) (id name : jsstring) (w : World) :
  config_file env id w = Some Unreadable ∨ config_file env id w = Some (Json None) →
  save_permitted env id w →
  ∃ w',
    getOrCreateGuildConfig env id name w
    = (Ok (default_config id name (clock env (ticks w))), w') ∧
    config_file env id w'
    = Some (Json (Some (default_config id name (clock env (ticks w))))).
Proof.
  intros Hfile Hperm.
  assert (Hnone : stored_config env id w = None).
  { unfold stored_config. by destruct Hfile as [-> | ->]. }
  eexists. split; [by apply getOrCreate_created|].
  apply (config_file_with_config env (default_config id name (clock env (ticks w)))).
Qed.

Lemma getOrCreate_replaces_unusable_witness :
  ∃ w',
    getOrCreateGuildConfig Scenario.env (js "42") (js "Test Guild") Cases.unreadable
    = (Ok Scenario.record42, w') ∧
    config_file Scenario.env (js "42") w' = Some (Json (Some Scenario.record42)).
Proof.
  refine (getOrCreate_replaces_unusable Scenario.env (js "42") (js "Test Guild")
            Cases.unreadable _ _).
  - left. by vm_compute.
  - split; [done|apply not_elem_of_empty].
Defined.

Lemma spread_settings_empty (s : GuildSettings.t) :
  spread_settings s PartialSettings.empty = s.
Proof. by destruct s. Qed.

Lemma spread_commands_empty (c : GuildCommands.t) :
  spread_commands c PartialCommands.empty = c.
Proof. by destruct c. Qed.

Lemma spread_settings_twice (s : GuildSettings.t) (p q : PartialSettings.t) :
  spread_settings (spread_settings s p) q = spread_settings s (spread_partial p q).
Proof.
  destruct p as [p1 p2 p3 p4 p5 p6 p7 p8 p9], q as [q1 q2 q3 q4 q5 q6 q7 q8 q9].
  unfold spread_settings, spread_partial. simpl.
  by destruct q1, q2, q3, q4, q5, q6, q7, q8, q9.
Qed.

(** X4.  For a stored record and a partial commands object,
    [updateGuildCommands] (its write permitted) returns and stores a record
    in which every command the partial object names has the named value and
    every other command its prior value; settings, prompt, [guildId] and
    [guildName] are unchanged, [updatedBy] is the actor and [updatedAt] the
    clock reading. *)
Theorem updateGuildCommands_frame (env : Env) (id name actor : jsstring)
    (partial : PartialCommands.t) (w : World) (prior : GuildConfig.t) :
  stored_config env id w = Some prior →
  save_permitted env (GuildConfig.guildId prior) w →
  ∃ after w',
    updateGuildCommands env id name (Some partial) actor w = (Ok after, w') ∧
    stored_config env (GuildConfig.guildId prior) w' = Some after ∧
    (let old := GuildConfig.commands prior in
     let new := GuildConfig.commands after in
     merged (GuildCommands.beer old) (PartialCommands.beer partial)
            (GuildCommands.beer new) ∧
     merged (GuildCommands.ping old) (PartialCommands.ping partial)
            (GuildCommands.ping new) ∧
     merged (GuildCommands.uptime old) (PartialCommands.uptime partial)
            (GuildCommands.uptime new) ∧
     merged (GuildCommands.cacheStats old) (PartialCommands.cacheStats partial)
            (GuildCommands.cacheStats new) ∧
     merged (GuildCommands.clearCache old) (PartialCommands.clearCache partial)
            (GuildCommands.clearCache new)) ∧
    GuildConfig.settings after = GuildConfig.settings prior ∧
    GuildConfig.systemPrompt after = GuildConfig.systemPrompt prior ∧
    GuildConfig.guildId after = GuildConfig.guildId prior ∧
    GuildConfig.guildName after = GuildConfig.guildName prior ∧
    GuildConfig.updatedAt after = clock env (ticks w) ∧
    GuildConfig.updatedBy after = actor.
Proof.
  intros Hstored Hperm.
  pose proof (run_update_existing env id name (SetCommands (Some partial)) actor
                w prior Hstored Hperm) as Hrun.
  eexists _, _. split; [exact Hrun|]. split.
  - apply (stored_with_config env
             (updated (SetCommands (Some partial)) (clock env (ticks w)) actor prior)).
  - simpl. unfold merged. destruct partial as [f1 f2 f3 f4 f5]. simpl.
    destruct f1, f2, f3, f4, f5; done.
Qed.

Lemma updateGuildCommands_frame_witness :
  ∃ after w',
    updateGuildCommands Scenario.env (js "42") (js "Test Guild")
      (Some (CommandsPage.only CommandsPage.Beer false)) (js "1001")
      Scenario.configured
    = (Ok after, w') ∧
    GuildCommands.beer (GuildConfig.commands after) = false ∧
    GuildCommands.ping (GuildConfig.commands after) = true ∧
    GuildConfig.settings after = DEFAULT_SETTINGS.
Proof.
  destruct (updateGuildCommands_frame Scenario.env (js "42") (js "Test Guild")
              (js "1001") (CommandsPage.only CommandsPage.Beer false)
              Scenario.configured Scenario.record42 Scenario_configured_stored
              (Scenario_configured_permitted _))
    as (after & w' & Hrun & _ & Hcommands & Hsettings & _).
  exists after, w'. simpl in Hcommands.
  destruct Hcommands as (Hbeer & Hping & _). by repeat split.
Defined.

(** X5.  For a stored record, [updateGuildPrompt] (its write permitted)
    replaces [systemPrompt] by the value it is given, null included, and
    changes nothing else but the stamps: settings, commands, [guildId] and
    [guildName] are unchanged. *)
Theorem updateGuildPrompt_frame (env : Env) (id name actor : jsstring)
    (systemPrompt : option jsstring) (w : World) (prior : GuildConfig.t) :
  stored_config env id w = Some prior →
  save_permitted env (GuildConfig.guildId prior) w →
  ∃ after w',
    updateGuildPrompt env id name systemPrompt actor w = (Ok after, w') ∧
    stored_config env (GuildConfig.guildId prior) w' = Some after ∧
    GuildConfig.systemPrompt after = systemPrompt ∧
    GuildConfig.settings after = GuildConfig.settings prior ∧
    GuildConfig.commands after = GuildConfig.commands prior ∧
    GuildConfig.guildId after = GuildConfig.guildId prior ∧
    GuildConfig.guildName after = GuildConfig.guildName prior ∧
    GuildConfig.updatedAt after = clock env (ticks w) ∧
    GuildConfig.updatedBy after = actor.
Proof.
  intros Hstored Hperm.
  pose proof (run_update_existing env id name (SetPrompt systemPrompt) actor
                w prior Hstored Hperm) as Hrun.
  eexists _, _. split; [exact Hrun|]. split; [|done].
  apply (stored_with_config env
           (updated (SetPrompt systemPrompt) (clock env (ticks w)) actor prior)).
Qed.

Lemma updateGuildPrompt_frame_witness :
  ∃ after w',
    updateGuildPrompt Scenario.env (js "42") (js "Test Guild")
      (Some (js "Be kind.")) (js "1001") Scenario.configured
    = (Ok after, w') ∧
    GuildConfig.systemPrompt after = Some (js "Be kind.") ∧
    GuildConfig.settings after = DEFAULT_SETTINGS ∧
    GuildConfig.commands after = DEFAULT_COMMANDS.
Proof.
  destruct (updateGuildPrompt_frame Scenario.env (js "42") (js "Test Guild")
              (js "1001") (Some (js "Be kind.")) Scenario.configured
              Scenario.record42 Scenario_configured_stored
              (Scenario_configured_permitted _))
    as (after & w' & Hrun & _ & Hprompt & Hsettings & Hcommands & _).
  by exists after, w'.
Defined.

(** X6.  An update for a guild that has no record yet first creates the
    default record, under the display name it is given, and then applies
    itself to it: the record returned and stored is the updated default
    record, and the clock has been read twice (once for the creation, once
    for the update). *)
Theorem first_update_creates (env : Env) (id name : jsstring) (update : Update)
    (actor : jsstring) (w : World) :
  stored_config env id w = None →
  save_permitted env id w →
  ∃ after w',
    run_update env id name update actor w = (Ok after, w') ∧
    after = updated update (clock env (S (ticks w))) actor
              (default_config id name (clock env (ticks w))) ∧
    stored_config env id w' = Some after ∧
    GuildConfig.guildId after = id ∧
    GuildConfig.guildName after = name ∧
    ticks w' = S (S (ticks w)).
Proof.
  intros Hstored Hperm.
  pose proof (run_update_permitted env id name update actor w) as Hrun.
  unfold loaded in Hrun. rewrite Hstored in Hrun. simpl in Hrun.
  eexists _, _. split; [by apply Hrun|]. split; [done|]. split; [|done].
  apply (stored_with_config env
           (updated update (clock env (S (ticks w))) actor
              (default_config id name (clock env (ticks w))))).
Qed.

Lemma first_update_creates_witness :
  ∃ after w',
    updateGuildSettings Scenario.env (js "7") (js "Seven")
      (Some Scenario.only_temperature) (js "1001") Scenario.configured
    = (Ok after, w') ∧
    stored_config Scenario.env (js "7") w' = Some after ∧
    GuildConfig.guildName after = js "Seven" ∧
    GuildConfig.commands after = DEFAULT_COMMANDS ∧
    GuildSettings.temperature (GuildConfig.settings after) = (1 # 2)%Q.
Proof.
  destruct (first_update_creates Scenario.env (js "7") (js "Seven")
              (SetSettings (Some Scenario.only_temperature)) (js "1001")
              Scenario.configured)
    as (after & w' & Hrun & -> & Hstored & _ & _ & _).
  - by vm_compute.
  - apply Scenario_configured_permitted.
  - eexists _, w'. split; [exact Hrun|]. split; [exact Hstored|]. by repeat split.
Defined.

(** X7.  A settings or commands update that names no field (the body has no
    such key, or an empty object under it) still goes through: it rewrites
    the record with new stamps and leaves its content as it was. *)
Theorem update_naming_nothing (env : Env) (id name : jsstring) (update : Update)
    (actor : jsstring) (w : World) (prior : GuildConfig.t) :
  names_nothing update →
  stored_config env id w = Some prior →
  save_permitted env (GuildConfig.guildId prior) w →
  ∃ after w',
    run_update env id name update actor w = (Ok after, w') ∧
    stored_config env (GuildConfig.guildId prior) w' = Some after ∧
    same_content after prior ∧
    GuildConfig.updatedAt after = clock env (ticks w) ∧
    GuildConfig.updatedBy after = actor.
Proof.
  intros Hnothing Hstored Hperm.
  rewrite (run_update_existing env id name update actor w prior Hstored Hperm).
  eexists _, _. split; [done|]. split.
  - apply (stored_with_config env (updated update (clock env (ticks w)) actor prior)).
  - split; [|done]. unfold same_content.
    destruct update as [[s|]|[c|]|p]; simpl in *; try done; subst;
      by rewrite ?spread_settings_empty, ?spread_commands_empty.
Qed.

Lemma update_naming_nothing_witness :
  ∃ after w',
    updateGuildSettings Scenario.env (js "42") (js "Test Guild") None (js "1001")
      Scenario.configured
    = (Ok after, w') ∧
    same_content after Scenario.record42 ∧
    GuildConfig.updatedBy after = js "1001".
Proof.
  destruct (update_naming_nothing Scenario.env (js "42") (js "Test Guild")
              (SetSettings None) (js "1001") Scenario.configured Scenario.record42
              I Scenario_configured_stored (Scenario_configured_permitted _))
    as (after & w' & Hrun & _ & Hsame & _ & Hby).
  by exists after, w'.
Defined.

(** X8.  Two settings updates made one after the other on a record filed
    under its own identifier compose: the settings reached are those of the
    single update with [{ ...first, ...second }], so on a field both name the
    second wins and a field only the first names keeps the first's value. *)
Theorem settings_updates_compose (env : Env) (id name1 name2 actor1 actor2 : jsstring)
    (first second : PartialSettings.t) (w : World) (prior : GuildConfig.t) :
  stored_config env id w = Some prior →
  GuildConfig.guildId prior = id →
  save_permitted env id w →
  ∃ mid w1 after w2,
    updateGuildSettings env id name1 (Some first) actor1 w = (Ok mid, w1) ∧
    updateGuildSettings env id name2 (Some second) actor2 w1 = (Ok after, w2) ∧
    GuildConfig.settings after
    = spread_settings (GuildConfig.settings prior) (spread_partial first second) ∧
    stored_config env id w2 = Some after ∧
    GuildConfig.updatedBy after = actor2.
Proof.
  intros Hstored Hid Hperm.
  pose proof (run_update_existing env id name1 (SetSettings (Some first)) actor1
                w prior Hstored) as Hrun1.
  rewrite Hid in Hrun1. specialize (Hrun1 Hperm). simpl in Hrun1.
  set (mid := updated (SetSettings (Some first)) (clock env (ticks w)) actor1 prior)
    in *.
  set (w1 := with_config env mid (tick w)) in *.
  assert (Hmid : stored_config env id w1 = Some mid).
  { rewrite <- Hid. apply (stored_with_config env mid). }
  pose proof (run_update_existing env id name2 (SetSettings (Some second)) actor2
                w1 mid Hmid) as Hrun2.
  simpl in Hrun2. rewrite Hid in Hrun2.
  specialize (Hrun2 (save_permitted_with_config env mid id (tick w) Hperm)).
  eexists _, _, _, _. split; [exact Hrun1|]. split; [exact Hrun2|].
  split; [apply spread_settings_twice|]. split; [|done].
  rewrite <- Hid at 1.
  apply (stored_with_config env
           (updated (SetSettings (Some second)) (clock env (ticks w1)) actor2 mid)).
Qed.

Lemma settings_updates_compose_witness :
  ∃ mid w1 after w2,
    updateGuildSettings Scenario.env (js "42") (js "Test Guild")
      (Some Scenario.only_temperature) (js "1001") Scenario.configured
    = (Ok mid, w1) ∧
    updateGuildSettings Scenario.env (js "42") (js "Test Guild")
      (Some Cases.only_model) (js "1002") w1
    = (Ok after, w2) ∧
    GuildSettings.temperature (GuildConfig.settings after) = (1 # 2)%Q ∧
    GuildSettings.model (GuildConfig.settings after) = js "claude-haiku".
Proof.
  destruct (settings_updates_compose Scenario.env (js "42") (js "Test Guild")
              (js "Test Guild") (js "1001") (js "1002") Scenario.only_temperature
              Cases.only_model Scenario.configured Scenario.record42
              Scenario_configured_stored eq_refl (Scenario_configured_permitted _))
    as (mid & w1 & after & w2 & Hrun1 & Hrun2 & Hsettings & _).
  exists mid, w1, after, w2. rewrite Hsettings. by repeat split.
Defined.

Lemma run_update_twice (env : Env) (id name1 name2 actor1 actor2 : jsstring)
    (u1 u2 : Update) (w : World) (prior : GuildConfig.t) :
  stored_config env id w = Some prior →
  GuildConfig.guildId prior = id →
  save_permitted env id w →
  let mid := updated u1 (clock env (ticks w)) actor1 prior in
  let w1 := with_config env mid (tick w) in
  let after := updated u2 (clock env (S (ticks w))) actor2 mid in
  run_update env id name1 u1 actor1 w = (Ok mid, w1) ∧
  run_update env id name2 u2 actor2 w1 = (Ok after, with_config env after (tick w1)).
Proof.
  intros Hstored Hid Hperm mid w1 after.
  pose proof (run_update_existing env id name1 u1 actor1 w prior Hstored) as Hrun1.
  rewrite Hid in Hrun1. specialize (Hrun1 Hperm).
  split; [exact Hrun1|].
  assert (Hidmid : GuildConfig.guildId mid = id) by done.
  assert (Hmid : stored_config env id w1 = Some mid).
  { rewrite <- Hidmid at 1. apply (stored_with_config env mid). }
  pose proof (run_update_existing env id name2 u2 actor2 w1 mid Hmid) as Hrun2.
  rewrite Hidmid in Hrun2.
  exact (Hrun2 (save_permitted_with_config env mid id (tick w) Hperm)).
Qed.

(** X9.  Updates of different sub-objects (settings, commands, prompt) made
    one after the other on a record filed under its own identifier do not
    disturb each other: both orders end in records with the same content,
    differing at most in their stamps. *)
Theorem updates_of_different_parts_commute (env : Env)
    (id name actor1 actor2 : jsstring) (u1 u2 : Update) (w : World)
    (prior : GuildConfig.t) :
  different_parts u1 u2 →
  stored_config env id w = Some prior →
  GuildConfig.guildId prior = id →
  save_permitted env id w →
  ∃ r12 r21,
    (∃ mid w1 w2,
       run_update env id name u1 actor1 w = (Ok mid, w1) ∧
       run_update env id name u2 actor2 w1 = (Ok r12, w2) ∧
       stored_config env id w2 = Some r12) ∧
    (∃ mid w1 w2,
       run_update env id name u2 actor2 w = (Ok mid, w1) ∧
       run_update env id name u1 actor1 w1 = (Ok r21, w2) ∧
       stored_config env id w2 = Some r21) ∧
    same_content r12 r21.
Proof.
  intros Hdiff Hstored Hid Hperm.
  destruct (run_update_twice env id name name actor1 actor2 u1 u2 w prior
              Hstored Hid Hperm) as [H1 H2].
  destruct (run_update_twice env id name name actor2 actor1 u2 u1 w prior
              Hstored Hid Hperm) as [H3 H4].
  eexists _, _. split; [|split].
  - eexists _, _, _. split; [exact H1|]. split; [exact H2|].
    rewrite <- Hid at 1.
    apply (stored_with_config env
             (updated u2 _ actor2 (updated u1 _ actor1 prior))).
  - eexists _, _, _. split; [exact H3|]. split; [exact H4|].
    rewrite <- Hid at 1.
    apply (stored_with_config env
             (updated u1 _ actor1 (updated u2 _ actor2 prior))).
  - unfold same_content. by destruct u1, u2.
Qed.

Lemma updates_of_different_parts_commute_witness :
  ∃ r12 r21,
    (∃ mid w1 w2,
       updateGuildSettings Scenario.env (js "42") (js "Test Guild")
         (Some Scenario.only_temperature) (js "1001") Scenario.configured
       = (Ok mid, w1) ∧
       updateGuildPrompt Scenario.env (js "42") (js "Test Guild")
         (Some (js "Be kind.")) (js "1002") w1
       = (Ok r12, w2) ∧
       stored_config Scenario.env (js "42") w2 = Some r12) ∧
    (∃ mid w1 w2,
       updateGuildPrompt Scenario.env (js "42") (js "Test Guild")
         (Some (js "Be kind.")) (js "1002") Scenario.configured
       = (Ok mid, w1) ∧
       updateGuildSettings Scenario.env (js "42") (js "Test Guild")
         (Some Scenario.only_temperature) (js "1001") w1
       = (Ok r21, w2) ∧
       stored_config Scenario.env (js "42") w2 = Some r21) ∧
    same_content r12 r21.
Proof.
  exact (updates_of_different_parts_commute Scenario.env (js "42") (js "Test Guild")
           (js "1001") (js "1002") (SetSettings (Some Scenario.only_temperature))
           (SetPrompt (Some (js "Be kind."))) Scenario.configured Scenario.record42
           I Scenario_configured_stored eq_refl (Scenario_configured_permitted _)).
Defined.

Lemma getGuildStats_world (id : jsstring) (w : World) :
  snd (getGuildStats id w) = w.
Proof.
  unfold getGuildStats, bind. rewrite getBotStats_run.
  by destruct (truthy _).
Qed.

Lemma operation_well_filed (env : Env) (endpoint : Endpoint) (request : Request)
    (guildName : jsstring) (w : World) :
  well_filed env w →
  well_filed env (snd (operation env endpoint request guildName w)).
Proof.
  intros Hw.
  pose proof (getOrCreate_well_filed env (guildId request) guildName w Hw) as Hget.
  assert (Hupd : ∀ update,
            well_filed env (snd (run_update env (guildId request) guildName update
                                   (session_user_id request) w)))
    by (intros; by apply run_update_well_filed).
  destruct endpoint; unfold operation, bind, lift, ret.
  - by destruct (getOrCreateGuildConfig _ _ _ _) as [[]].
  - destruct (request_fields request) as [fields|]; [|done].
    specialize (Hupd (SetSettings (body_settings fields))). simpl in Hupd.
    by destruct (updateGuildSettings _ _ _ _ _ _) as [[]].
  - by destruct (getOrCreateGuildConfig _ _ _ _) as [[]].
  - destruct (request_fields request) as [fields|]; [|done].
    specialize (Hupd (SetCommands (body_commands fields))). simpl in Hupd.
    by destruct (updateGuildCommands _ _ _ _ _ _) as [[]].
  - by destruct (getOrCreateGuildConfig _ _ _ _) as [[]].
  - destruct (request_fields request) as [fields|]; [|done].
    destruct (promptValue _) as [value|]; [|done].
    specialize (Hupd (SetPrompt value)). simpl in Hupd.
    by destruct (updateGuildPrompt _ _ _ _ _ _) as [[]].
  - pose proof (getGuildStats_world (guildId request) w) as Hstats.
    destruct (getGuildStats _ _) as [[]]; simpl in *; by subst.
Qed.

(** X11.  No request breaks the store's invariant: if every stored record
    sits in the file its own [guildId] names, the same holds after any
    guild-scoped endpoint has handled any request, whatever it answered. *)
Theorem requests_keep_records_filed (env : Env) (endpoint : Endpoint)
    (request : Request) (w : World) :
  well_filed env w →
  well_filed env (snd (handle env endpoint request w)).
Proof.
  intros Hw.
  destruct (session_token request) as [token|] eqn:Hs.
  - destruct (verifyAccess env (guildId request) token) as [[|guildName]|e] eqn:Hv.
    + by rewrite (handle_denied env endpoint request token w Hs Hv).
    + rewrite (handle_granted env endpoint request token guildName w Hs Hv).
      pose proof (operation_well_filed env endpoint request guildName w Hw) as Hop.
      by destruct (operation _ _ _ _ _) as [[]].
    + by rewrite (handle_verification_throws env endpoint request token e w Hs Hv).
  - by rewrite (handle_unauthenticated env endpoint request w Hs).
Qed.

Lemma Scenario_fresh_well_filed : well_filed Scenario.env Scenario.fresh.
Proof. intros id config. discriminate. Qed.

Lemma requests_keep_records_filed_witness :
  ∃ config,
    stored_config Scenario.env (js "42")
      (snd (handle Scenario.env PutConfig
              (Scenario.put "42" (Scenario.fields_settings Scenario.only_temperature))
              Scenario.fresh))
    = Some config ∧
    config_path Scenario.env (GuildConfig.guildId config)
    = config_path Scenario.env (js "42").
Proof.
  pose proof (requests_keep_records_filed Scenario.env PutConfig
                (Scenario.put "42" (Scenario.fields_settings Scenario.only_temperature))
                Scenario.fresh Scenario_fresh_well_filed) as Hfiled.
  destruct (stored_config Scenario.env (js "42")
              (snd (handle Scenario.env PutConfig
                      (Scenario.put "42"
                         (Scenario.fields_settings Scenario.only_temperature))
                      Scenario.fresh))) as [config|] eqn:Hstored.
  - exists config. split; [done|]. by apply Hfiled.
  - by vm_compute in Hstored.
Defined.

(** ** The permission adapter: more of its behaviour *)

Lemma filter_result_throws {A} (p : A → result bool) (e : Exn) (l : list A) :
  (∀ x e', p x = Throw e' → e' = e) →
  Exists (λ x, ∃ e', p x = Throw e') l →
  filter_result p l = Throw e.
Proof.
  intros Hall. induction l as [|x l IH]; intros Hex; [by inversion Hex|].
  simpl. destruct (p x) as [b|e'] eqn:Hx; simpl.
  - apply Exists_cons in Hex as [[e' He']|Hex]; [congruence|].
    by rewrite (IH Hex).
  - by rewrite (Hall x e' Hx).
Qed.

Lemma canManageGuild_throws_only_SyntaxError (guild : DiscordGuild.t) (e : Exn) :
  canManageGuild guild = Throw e → e = SyntaxError.
Proof.
  unfold canManageGuild, BigInt. destruct (StringToBigInt _); simpl; congruence.
Qed.

Lemma filter_result_Throw_inv {A} (p : A → result bool) (e : Exn) (l : list A) :
  filter_result p l = Throw e → ∃ x, In x l ∧ p x = Throw e.
Proof.
  induction l as [|x l IH]; simpl; [done|].
  destruct (p x) as [b|e'] eqn:Hx; simpl.
  - destruct (filter_result p l) as [r|e'']; simpl; [done|].
    intros [= <-]. destruct (IH eq_refl) as (y & Hy & Hpy). eauto.
  - intros [= <-]. eauto.
Qed.

(** X12.  One permission string that [BigInt] rejects, anywhere in the
    caller's guild list, makes [getManageableGuilds] throw a [SyntaxError]:
    access verification then throws for every guild, the caller's own
    included, and the guild-list endpoint answers 500. *)
Theorem non_numeric_permission_blocks_all (env : Env) (token : jsstring)
    (userGuilds : list DiscordGuild.t) :
  discord_user_guilds env token = HttpOk userGuilds →
  Exists (λ guild, ¬ numeric_permissions guild) userGuilds →
  getManageableGuilds env token = Throw SyntaxError ∧
  (∀ G, verifyAccess env G token = Throw SyntaxError) ∧
  (∀ session w,
     usable_token (session ≫= accessToken) = Some token →
     GuildsRoute.GET env session w
     = (Ok {| status := 500; payload := ErrorBody (js "Failed to fetch guilds") |}, w)).
Proof.
  intros Hfetch Hbad.
  assert (Hget : getManageableGuilds env token = Throw SyntaxError).
  { unfold getManageableGuilds, getUserGuilds. rewrite Hfetch. simpl.
    rewrite (filter_result_throws canManageGuild SyntaxError userGuilds); [done| |].
    - apply canManageGuild_throws_only_SyntaxError.
    - eapply Exists_impl; [exact Hbad|]. intros g Hg. exists SyntaxError.
      by apply canManageGuild_throws. }
  split; [done|]. split.
  - intros G. unfold verifyAccess. by rewrite Hget.
  - intros session w Hs. unfold GuildsRoute.GET. rewrite Hs.
    unfold try_catch, bind, lift. by rewrite Hget.
Qed.

Lemma non_numeric_permission_blocks_all_witness :
  getManageableGuilds Cases.env_bad_permissions (js "user-token") = Throw SyntaxError ∧
  verifyAccess Cases.env_bad_permissions (js "42") (js "user-token")
  = Throw SyntaxError.
Proof.
  destruct (non_numeric_permission_blocks_all Cases.env_bad_permissions
              (js "user-token")
              (Scenario.guild "5" "Five" true "admin" :: Scenario.user_guilds)
              eq_refl) as (Hget & Hverify & _).
  - apply Exists_cons_hd. intros [p Hp]. by vm_compute in Hp.
  - split; [exact Hget|apply Hverify].
Defined.

Lemma land_bit (p : Z) (n : Z) :
  0 <= n → (Z.land p (2 ^ n) =? 2 ^ n) = Z.testbit p n.
Proof.
  intros Hn.
  assert (Hland : Z.land p (2 ^ n) = if Z.testbit p n then 2 ^ n else 0).
  { apply Z.bits_inj'. intros m Hm. rewrite Z.land_spec, Z.pow2_bits_eqb by done.
    destruct (Z.eqb_spec n m) as [->|Hne].
    - rewrite andb_true_r. destruct (Z.testbit p m) eqn:Hb.
      + by rewrite Z.pow2_bits_true.
      + by rewrite Z.bits_0.
    - rewrite andb_false_r. destruct (Z.testbit p n).
      + by rewrite Z.pow2_bits_false.
      + by rewrite Z.bits_0. }
  rewrite Hland. destruct (Z.testbit p n).
  - apply Z.eqb_refl.
  - apply Z.eqb_neq. pose proof (Z.pow_pos_nonneg 2 n). lia.
Qed.

(** X13.  [canManageGuild] looks at the owner flag and at bits 3
    (administrator) and 5 (manage guild) of the permission number and at
    nothing else: every other bit, and the sign, make no difference. *)
Theorem canManageGuild_bits (guild : DiscordGuild.t) (permissions : Z) :
  StringToBigInt (DiscordGuild.permissions guild) = Some permissions →
  canManageGuild guild
  = Ok (DiscordGuild.owner guild || Z.testbit permissions 3 || Z.testbit permissions 5).
Proof.
  intros Hp. unfold canManageGuild, BigInt. rewrite Hp. simpl.
  change ADMINISTRATOR with (2 ^ 3). change MANAGE_GUILD with (2 ^ 5).
  by rewrite !land_bit by lia.
Qed.

Lemma canManageGuild_bits_witness :
  canManageGuild (Scenario.guild "7" "Seven" false "32")
  = Ok (false || Z.testbit 32 3 || Z.testbit 32 5).
Proof.
  exact (canManageGuild_bits (Scenario.guild "7" "Seven" false "32") 32 eq_refl).
Defined.

(** X14.  The display name that access verification hands to the store is
    the name Discord lists for the requested guild: whenever verification
    grants access, the caller's list has a guild with the requested
    identifier, that name and management rights, and the bot is in it. *)
Theorem granted_name_is_listed (env : Env) (token G name : jsstring)
    (userGuilds : list DiscordGuild.t) :
  discord_user_guilds env token = HttpOk userGuilds →
  verifyAccess env G token = Ok (Granted name) →
  G ∈ getBotGuilds env ∧
  ∃ guild,
    guild ∈ userGuilds ∧
    DiscordGuild.id guild = G ∧
    DiscordGuild.name guild = name ∧
    manages guild.
Proof.
  intros Hfetch. unfold verifyAccess, getManageableGuilds, getUserGuilds.
  rewrite Hfetch. simpl.
  destruct (filter_result canManageGuild userGuilds) as [r|e] eqn:Hr; simpl;
    [|discriminate].
  destruct (find _ _) as [m|] eqn:Hfind; [|discriminate].
  destruct (ManageableGuild.hasBot m) eqn:Hbot; [|discriminate].
  intros [= <-].
  apply find_some in Hfind as [Hm Hid]. apply bool_decide_eq_true in Hid.
  apply Array_sort_In, in_map_iff in Hm as (g & <- & Hg).
  simpl in Hid. apply hasBot_toManageable in Hbot. rewrite Hid in Hbot.
  split; [done|]. exists g.
  rewrite (filter_result_filter _ _ _ Hr) in Hg.
  apply filter_In in Hg as [Hg Hman].
  split; [by apply list_elem_of_In|]. split; [done|]. split; [done|].
  apply canManageGuild_true. by destruct (canManageGuild g) as [[]|].
Qed.

Lemma granted_name_is_listed_witness :
  js "42" ∈ getBotGuilds Scenario.env ∧
  ∃ guild,
    guild ∈ Scenario.user_guilds ∧
    DiscordGuild.id guild = js "42" ∧
    DiscordGuild.name guild = js "Test Guild" ∧
    manages guild.
Proof.
  refine (granted_name_is_listed Scenario.env (js "user-token") (js "42")
            (js "Test Guild") Scenario.user_guilds eq_refl _).
  by vm_compute.
Defined.

(** X15.  The stats route's own copy of the access check agrees with the
    check of the other routes: it answers true exactly when they grant
    access, false exactly when they deny it, and throws what they throw. *)
Theorem stats_route_access_agrees (env : Env) (G token : jsstring) :
  (StatsRoute.verifyAccess env G token = Ok true
   ↔ ∃ name, verifyAccess env G token = Ok (Granted name)) ∧
  (StatsRoute.verifyAccess env G token = Ok false
   ↔ verifyAccess env G token = Ok Denied) ∧
  (∀ e, StatsRoute.verifyAccess env G token = Throw e
        ↔ verifyAccess env G token = Throw e).
Proof.
  rewrite StatsRoute_verifyAccess_authorized.
  destruct (verifyAccess env G token) as [[|name]|e]; simpl.
  - split; [split; [done|by intros [? ?]]|]. split; [done|].
    intros e. split; discriminate.
  - split; [split; [eauto|done]|]. split; [split; discriminate|].
    intros e. split; discriminate.
  - split; [split; [done|by intros [? ?]]|]. split; [split; discriminate|].
    intros e'. split; congruence.
Qed.

(** X16.  While the bot's guild-list query fails, the guild list is still
    served: [getManageableGuilds] returns the caller's manageable guilds,
    every one of them tagged [hasBot = false], in name order. *)
Theorem bot_down_lists_without_bot (env : Env) (token : jsstring)
    (userGuilds : list DiscordGuild.t) :
  bot_query_failed env = true →
  discord_user_guilds env token = HttpOk userGuilds →
  Forall numeric_permissions userGuilds →
  consistent (localeCompare env) →
  ∃ guilds,
    getManageableGuilds env token = Ok guilds ∧
    (∀ guild, guild ∈ userGuilds → manages guild →
              ∃ m, m ∈ guilds ∧ ManageableGuild.id m = DiscordGuild.id guild) ∧
    Forall (λ m, ManageableGuild.hasBot m = false) guilds ∧
    StronglySorted
      (λ a b, localeCompare env (ManageableGuild.name a) (ManageableGuild.name b) <= 0)
      guilds.
Proof.
  intros Hbot Hfetch Hnum Hcons.
  destruct (getManageableGuilds_returns env token userGuilds Hfetch Hnum)
    as (r & _ & Hin & Hget).
  rewrite (getBotGuilds_failed env Hbot) in Hget.
  eexists. split; [exact Hget|].
  assert (Hall : Forall (λ m, ManageableGuild.hasBot m = false)
                   (Array_sort (compareGuilds env)
                      (map (toManageable (list_to_set [])) r))).
  { apply Forall_forall. intros m Hm. apply list_elem_of_In in Hm.
    apply Array_sort_In, in_map_iff in Hm as (g & <- & _). simpl.
    apply bool_decide_eq_false. set_solver. }
  split; [|split; [exact Hall|]].
  - intros g Hg Hman. exists (toManageable (list_to_set []) g). split; [|done].
    apply list_elem_of_In, Array_sort_In, in_map. apply Hin.
    split; [by apply list_elem_of_In|done].
  - pose proof (Array_sort_sorted (compareGuilds env)
                  (map (toManageable (list_to_set [])) r)
                  (compareGuilds_consistent env Hcons)) as Hsorted.
    revert Hall Hsorted. generalize (Array_sort (compareGuilds env)
                                       (map (toManageable (list_to_set [])) r)).
    intros l Hall Hsorted. induction Hsorted as [|x l Hs IH Hx]; [constructor|].
    apply Forall_cons in Hall as [Hxbot Hall].
    constructor; [by apply IH|].
    rewrite Forall_forall in Hx, Hall. apply Forall_forall. intros y Hy.
    specialize (Hx y Hy). specialize (Hall y Hy). unfold compareGuilds in Hx.
    by rewrite Hxbot, Hall in Hx.
Qed.

Lemma bot_down_lists_without_bot_witness :
  ∃ guilds,
    getManageableGuilds Scenario.env_bot_down (js "user-token") = Ok guilds ∧
    map ManageableGuild.name guilds = [js "Eight"; js "Seven"; js "Test Guild"] ∧
    map ManageableGuild.hasBot guilds = [false; false; false].
Proof.
  destruct (bot_down_lists_without_bot Scenario.env_bot_down (js "user-token")
              Scenario.user_guilds eq_refl eq_refl Scenario_user_guilds_numeric
              Scenario_compare_units_consistent) as (guilds & Hget & _).
  exists guilds. split; [exact Hget|].
  vm_compute in Hget. injection Hget as <-. split; reflexivity.
Defined.

(** ** The endpoints: more of their behaviour *)

Lemma verifyAccess_throws_from_upstream (env : Env) (G token : jsstring) (e : Exn) :
  verifyAccess env G token = Throw e →
  e = NetworkError ∨ e = SyntaxError ∨ ∃ status, e = FetchGuildsError status.
Proof.
  unfold verifyAccess, getManageableGuilds, getUserGuilds.
  destruct (discord_user_guilds env token) as [|status| |guilds]; simpl;
    try (intros [= <-]; eauto; fail).
  destruct (filter_result canManageGuild guilds) as [r|e'] eqn:Hr; simpl.
  - destruct (find _ _) as [m|]; [destruct (ManageableGuild.hasBot m)|]; discriminate.
  - intros [= <-]. right; left.
    apply filter_result_Throw_inv in Hr as (g & _ & Hg).
    by apply canManageGuild_throws_only_SyntaxError in Hg.
Qed.

(** X17.  A guild-scoped endpoint either answers with status 200, 401, 403
    or 500, or rethrows what access verification threw, which is an error
    of the caller's guild-list query or a [BigInt] syntax error, with
    nothing written.  An error of the file system or of the request body
    never leaves a handler. *)
Theorem endpoint_outcomes (env : Env) (endpoint : Endpoint) (request : Request)
    (w : World) :
  (∃ response w',
     handle env endpoint request w = (Ok response, w') ∧
     (status response = 200 ∨ status response = 401
      ∨ status response = 403 ∨ status response = 500)) ∨
  (∃ token e,
     session_token request = Some token ∧
     verifyAccess env (guildId request) token = Throw e ∧
     handle env endpoint request w = (Throw e, w) ∧
     (e = NetworkError ∨ e = SyntaxError ∨ ∃ status, e = FetchGuildsError status)).
Proof.
  destruct (session_token request) as [token|] eqn:Hs.
  - destruct (verifyAccess env (guildId request) token) as [[|guildName]|e] eqn:Hv.
    + left. rewrite (handle_denied env endpoint request token w Hs Hv).
      eexists _, _. split; [done|]. simpl. lia.
    + left. rewrite (handle_granted env endpoint request token guildName w Hs Hv).
      destruct (operation _ _ _ _ _) as [[result|e] w'];
        eexists _, _; (split; [done|]); simpl; lia.
    + right. exists token, e. split; [done|]. split; [done|]. split.
      * by apply (handle_verification_throws env endpoint request token).
      * by apply (verifyAccess_throws_from_upstream env (guildId request) token).
  - left. rewrite (handle_unauthenticated env endpoint request w Hs).
    eexists _, _. split; [done|]. simpl. lia.
Qed.

(** X18.  Reading is free of side effects once the guild has a record: an
    authorized GET of the configuration, the commands or the prompt answers
    200 with the stored record's data and leaves the world as it was. *)
Theorem get_reads_stored_record (env : Env) (request : Request)
    (token guildName : jsstring) (w : World) (stored : GuildConfig.t) :
  session_token request = Some token →
  verifyAccess env (guildId request) token = Ok (Granted guildName) →
  stored_config env (guildId request) w = Some stored →
  ConfigRoute.GET env request w
  = (Ok {| status := 200; payload := ConfigBody stored |}, w) ∧
  CommandsRoute.GET env request w
  = (Ok {| status := 200; payload := CommandsBody (GuildConfig.commands stored) |}, w) ∧
  PromptRoute.GET env request w
  = (Ok {| status := 200;
           payload := PromptInfo (GuildConfig.systemPrompt stored)
                        DEFAULT_SYSTEM_PROMPT
                        (isCustom_of (GuildConfig.systemPrompt stored)) |}, w).
Proof.
  intros Hs Hv Hstored.
  pose proof (getOrCreate_existing env (guildId request) guildName w stored Hstored)
    as Hget.
  split; [|split].
  - change (ConfigRoute.GET env request w) with (handle env GetConfig request w).
    rewrite (handle_granted env GetConfig request token guildName w Hs Hv).
    unfold operation, bind. by rewrite Hget.
  - change (CommandsRoute.GET env request w) with (handle env GetCommands request w).
    rewrite (handle_granted env GetCommands request token guildName w Hs Hv).
    unfold operation, bind. by rewrite Hget.
  - change (PromptRoute.GET env request w) with (handle env GetPrompt request w).
    rewrite (handle_granted env GetPrompt request token guildName w Hs Hv).
    unfold operation, bind. by rewrite Hget.
Qed.

Lemma Scenario_granted_42 :
  verifyAccess Scenario.env (js "42") (js "user-token") = Ok (Granted (js "Test Guild")).
Proof. by vm_compute. Qed.

Lemma Scenario_granted_7 :
  verifyAccess Scenario.env (js "7") (js "user-token") = Ok (Granted (js "Seven")).
Proof. by vm_compute. Qed.

Lemma get_reads_stored_record_witness :
  ConfigRoute.GET Scenario.env (Cases.get "42") Scenario.configured
  = (Ok {| status := 200; payload := ConfigBody Scenario.record42 |},
     Scenario.configured).
Proof.
  exact (proj1 (get_reads_stored_record Scenario.env (Cases.get "42")
                  (js "user-token") (js "Test Guild") Scenario.configured
                  Scenario.record42 eq_refl Scenario_granted_42
                  Scenario_configured_stored)).
Defined.

(** X19.  A GET writes when the guild has no record yet: the first
    authorized GET of the configuration (the write permitted) stores the
    default record, under the name Discord lists for the guild, and answers
    200 with it. *)
Theorem first_get_creates_record (env : Env) (request : Request)
    (token guildName : jsstring) (w : World) :
  session_token request = Some token →
  verifyAccess env (guildId request) token = Ok (Granted guildName) →
  stored_config env (guildId request) w = None →
  save_permitted env (guildId request) w →
  ∃ w',
    ConfigRoute.GET env request w
    = (Ok {| status := 200;
             payload := ConfigBody
                          (default_config (guildId request) guildName
                             (clock env (ticks w))) |}, w') ∧
    stored_config env (guildId request) w'
    = Some (default_config (guildId request) guildName (clock env (ticks w))).
Proof.
  intros Hs Hv Hstored Hperm.
  change (ConfigRoute.GET env request w) with (handle env GetConfig request w).
  rewrite (handle_granted env GetConfig request token guildName w Hs Hv).
  unfold operation, bind.
  rewrite (getOrCreate_created env (guildId request) guildName w Hstored Hperm).
  eexists. split; [done|].
  apply (stored_with_config env
           (default_config (guildId request) guildName (clock env (ticks w)))).
Qed.

Lemma first_get_creates_record_witness :
  ∃ w',
    ConfigRoute.GET Scenario.env (Cases.get "42") Scenario.fresh
    = (Ok {| status := 200; payload := ConfigBody Scenario.record42 |}, w') ∧
    stored_config Scenario.env (js "42") w' = Some Scenario.record42.
Proof.
  exact (first_get_creates_record Scenario.env (Cases.get "42") (js "user-token")
           (js "Test Guild") Scenario.fresh eq_refl Scenario_granted_42 eq_refl
           (Scenario_fresh_permitted _)).
Defined.

(** X20.  A PUT whose body cannot be read, or is the JSON literal null, is
    answered 500 by each of the three writing endpoints before anything is
    loaded or written: the world is unchanged, and no default record is
    created. *)
Theorem put_without_body_rejected (env : Env) (endpoint : Endpoint)
    (request : Request) (token guildName : jsstring) (w : World) :
  is_put endpoint = true →
  session_token request = Some token →
  verifyAccess env (guildId request) token = Ok (Granted guildName) →
  body request = BodyUnreadable ∨ body request = BodyNull →
  handle env endpoint request w
  = (Ok {| status := 500; payload := ErrorBody (js (failure_message endpoint)) |}, w).
Proof.
  intros Hput Hs Hv Hbody.
  rewrite (handle_granted env endpoint request token guildName w Hs Hv).
  destruct endpoint; try discriminate;
    unfold operation, bind, lift, request_fields;
    by destruct Hbody as [-> | ->].
Qed.

Lemma put_without_body_rejected_witness :
  handle Scenario.env PutCommands (Cases.request "42" BodyNull) Scenario.fresh
  = (Ok {| status := 500; payload := ErrorBody (js "Failed to update commands") |},
     Scenario.fresh).
Proof.
  exact (put_without_body_rejected Scenario.env PutCommands
           (Cases.request "42" BodyNull) (js "user-token") (js "Test Guild")
           Scenario.fresh eq_refl eq_refl Scenario_granted_42 (or_intror eq_refl)).
Defined.

(** X21.  A body that cannot be read, is null, or carries a prompt that is
    neither missing nor a string makes the prompt endpoint answer 500 before
    anything is written. *)
Theorem prompt_write_rejected (env : Env) (request : Request)
    (token guildName : jsstring) (w : World) :
  session_token request = Some token →
  verifyAccess env (guildId request) token = Ok (Granted guildName) →
  match body request with
  | BodyValue fields => body_systemPrompt fields = PromptOther
  | _ => True
  end →
  PromptRoute.PUT env request w
  = (Ok {| status := 500; payload := ErrorBody (js "Failed to update prompt") |}, w).
Proof.
  intros Hs Hv Hbody.
  change (PromptRoute.PUT env request w) with (handle env PutPrompt request w).
  rewrite (handle_granted env PutPrompt request token guildName w Hs Hv).
  unfold operation, bind, lift, request_fields.
  destruct (body request) as [| |fields]; [done..|].
  by rewrite Hbody.
Qed.

Lemma prompt_write_rejected_witness :
  PromptRoute.PUT Scenario.env
    (Scenario.put "42" (Scenario.fields_prompt PromptOther)) Scenario.configured
  = (Ok {| status := 500; payload := ErrorBody (js "Failed to update prompt") |},
     Scenario.configured).
Proof.
  exact (prompt_write_rejected Scenario.env
           (Scenario.put "42" (Scenario.fields_prompt PromptOther))
           (js "user-token") (js "Test Guild") Scenario.configured
           eq_refl Scenario_granted_42 eq_refl).
Defined.

(** X22.  The stats endpoint answers 200 to every authorized request and
    writes nothing: where there is no data it sends the placeholder
    record. *)
Theorem stats_endpoint_never_fails (env : Env) (request : Request)
    (token guildName : jsstring) (w : World) :
  session_token request = Some token →
  verifyAccess env (guildId request) token = Ok (Granted guildName) →
  ∃ stats,
    StatsRoute.GET env request w = (Ok {| status := 200; payload := StatsBody stats |}, w) ∧
    (no_stats w → stats = StatsRoute.default_stats).
Proof.
  intros Hs Hv.
  change (StatsRoute.GET env request w) with (handle env GetStats request w).
  rewrite (handle_granted env GetStats request token guildName w Hs Hv).
  unfold operation, bind.
  unfold getGuildStats, bind, no_stats. rewrite getBotStats_run.
  destruct (stats_file w) as [[| |stats]|]; simpl; try by eexists.
  destruct (truthy stats); simpl; [|by eexists].
  eexists. split; [done|]. discriminate.
Qed.

Lemma stats_endpoint_never_fails_witness :
  ∃ stats,
    StatsRoute.GET Scenario.env (Cases.get "42") Scenario.null_stats
    = (Ok {| status := 200; payload := StatsBody stats |}, Scenario.null_stats) ∧
    stats = StatsRoute.default_stats.
Proof.
  destruct (stats_endpoint_never_fails Scenario.env (Cases.get "42")
              (js "user-token") (js "Test Guild") Scenario.null_stats
              eq_refl Scenario_granted_42) as (stats & Hrun & Hdefault).
  exists stats. split; [exact Hrun|]. by apply Hdefault.
Defined.

(** X23.  A write that the file system refuses is answered 500 by the
    writing endpoints, and the refusal stays with the file it concerns: the
    file of every guild kept at another path reads as before. *)
Theorem refused_write_answers_500 (env : Env) (endpoint : Endpoint)
    (request : Request) (token guildName : jsstring) (fields : BodyFields)
    (w : World) (prior : GuildConfig.t) :
  is_put endpoint = true →
  session_token request = Some token →
  verifyAccess env (guildId request) token = Ok (Granted guildName) →
  body request = BodyValue fields →
  body_systemPrompt fields ≠ PromptOther →
  stored_config env (guildId request) w = Some prior →
  ¬ save_permitted env (GuildConfig.guildId prior) w →
  ∃ w',
    handle env endpoint request w
    = (Ok {| status := 500; payload := ErrorBody (js (failure_message endpoint)) |},
       w') ∧
    ∀ id,
      config_path env id ≠ config_path env (GuildConfig.guildId prior) →
      fst (getGuildConfig env id w') = fst (getGuildConfig env id w).
Proof.
  intros Hput Hs Hv Hbody Hp Hstored Hperm.
  rewrite (handle_granted env endpoint request token guildName w Hs Hv).
  assert (Hrefused : ∀ update, ∃ w',
            run_update env (guildId request) guildName update
              (session_user_id request) w = (Throw EACCES, w') ∧
            ∀ id, fst (getGuildConfig env id w') = fst (getGuildConfig env id w)).
  { intros update.
    pose proof (run_update_refused env (guildId request) guildName update
                  (session_user_id request) w) as Hno.
    rewrite (loaded_existing env _ _ w prior Hstored) in Hno.
    destruct (Hno Hperm) as (w' & Hrun & Hsame). exists w'. split; [done|].
    intros id. rewrite !getGuildConfig_run. simpl.
    by rewrite (same_files_stored env id w w' Hsame). }
  destruct endpoint; try discriminate;
    unfold operation, bind at 1, lift at 1, request_fields; rewrite Hbody.
  - destruct (Hrefused (SetSettings (body_settings fields))) as (w' & Hrun & Hsame).
    simpl in Hrun. unfold bind. rewrite Hrun. exists w'. split; [done|].
    intros id _. apply Hsame.
  - destruct (Hrefused (SetCommands (body_commands fields))) as (w' & Hrun & Hsame).
    simpl in Hrun. unfold bind. rewrite Hrun. exists w'. split; [done|].
    intros id _. apply Hsame.
  - destruct (promptValue_spec (body_systemPrompt fields) Hp) as (value & Hvalue & _).
    unfold bind at 1, lift at 1. rewrite Hvalue.
    destruct (Hrefused (SetPrompt value)) as (w' & Hrun & Hsame).
    simpl in Hrun. unfold bind. rewrite Hrun. exists w'. split; [done|].
    intros id _. apply Hsame.
Qed.

Lemma Cases_protected_42 :
  stored_config Scenario.env (guildId (Scenario.put "42"
    (Scenario.fields_settings Scenario.only_temperature))) Cases.protected
  = Some Scenario.record42.
Proof. by vm_compute. Qed.

Lemma refused_write_answers_500_witness :
  ∃ w',
    handle Scenario.env PutConfig
      (Scenario.put "42" (Scenario.fields_settings Scenario.only_temperature))
      Cases.protected
    = (Ok {| status := 500; payload := ErrorBody (js "Failed to update config") |},
       w') ∧
    fst (getGuildConfig Scenario.env (js "7") w') = Ok None.
Proof.
  destruct (refused_write_answers_500 Scenario.env PutConfig
              (Scenario.put "42" (Scenario.fields_settings Scenario.only_temperature))
              (js "user-token") (js "Test Guild")
              (Scenario.fields_settings Scenario.only_temperature)
              Cases.protected Scenario.record42 eq_refl eq_refl Scenario_granted_42
              eq_refl ltac:(discriminate) Cases_protected_42 Cases_protected_refused)
    as (w' & Hrun & Hsame).
  exists w'. split; [exact Hrun|]. rewrite Hsame; [by vm_compute|].
  by vm_compute.
Defined.

(** ** The pages and the hook, against the server *)

Lemma trimStart_fixed (s : jsstring) :
  match s with [] => True | c :: _ => isWhiteSpace c = false end →
  trimStart s = s.
Proof. destruct s as [|c s]; [done|]. simpl. by intros ->. Qed.

Lemma trim_idempotent (s : jsstring) : trim (trim s) = trim s.
Proof.
  assert (Hstart : trimStart (trim s) = trim s).
  { apply trimStart_fixed. destruct (trim s) as [|c t] eqn:Ht; [done|].
    by apply (trim_head s c t). }
  unfold trim at 1. rewrite Hstart. unfold trimEnd, trim, trimEnd.
  rewrite rev_involutive.
  rewrite (trimStart_fixed (trimStart (rev (trimStart s)))); [done|].
  destruct (trimStart (rev (trimStart s))) as [|c t] eqn:Ht; [done|].
  by apply (trimStart_head _ c t Ht).
Qed.

Lemma DEFAULT_SYSTEM_PROMPT_not_blank : trim DEFAULT_SYSTEM_PROMPT ≠ [].
Proof. by vm_compute. Qed.

(** X24.  What saving from the prompt page stores.  The page sends null when
    the editor's text trims to the default prompt and the trimmed text
    otherwise; the server then stores null for the former and for a blank
    text, and the trimmed text in every other case.  The record the hook
    shows optimistically carries the value the page sent, which is the
    value stored except for a blank text, where it is the empty string. *)
Theorem prompt_page_save (request : Request) (data : GuildConfig.t)
    (prompt : jsstring) :
  body request = useGuildConfig.prompt_body (PromptPage.promptToSave prompt) →
  ∃ fields value,
    request_fields request = Ok fields ∧
    promptValue (body_systemPrompt fields) = Ok value ∧
    (trim prompt = trim DEFAULT_SYSTEM_PROMPT → value = None) ∧
    (blank prompt → value = None) ∧
    (trim prompt ≠ trim DEFAULT_SYSTEM_PROMPT → ¬ blank prompt →
     value = Some (trim prompt)) ∧
    (¬ blank prompt →
     GuildConfig.systemPrompt
       (useGuildConfig.optimistic_prompt data (PromptPage.promptToSave prompt))
     = value) ∧
    (blank prompt →
     GuildConfig.systemPrompt
       (useGuildConfig.optimistic_prompt data (PromptPage.promptToSave prompt))
     = Some []).
Proof.
  intros Hbody. unfold request_fields. rewrite Hbody.
  unfold useGuildConfig.prompt_body, PromptPage.promptToSave. simpl.
  case_bool_decide as Hdefault.
  - eexists _, None. split; [done|]. split; [done|]. split; [done|].
    split; [done|]. split; [done|]. split; [done|].
    intros Hblank%trim_blank. pose proof DEFAULT_SYSTEM_PROMPT_not_blank. congruence.
  - eexists _, (match trim prompt with [] => None | c :: t => Some (c :: t) end).
    split; [done|]. simpl. rewrite trim_idempotent.
    destruct (trim prompt) as [|c t] eqn:Htrim.
    + split; [done|]. split; [done|]. split; [done|].
      assert (blank prompt) by (by apply trim_blank).
      split; [done|]. split; [done|]. done.
    + split; [done|]. split; [done|].
      assert (¬ blank prompt) by (rewrite <- trim_blank; congruence).
      split; [done|]. split; [done|]. done.
Qed.

Lemma prompt_page_save_witness :
  ∃ fields value,
    request_fields
      (Cases.request "42"
         (useGuildConfig.prompt_body (PromptPage.promptToSave (js "  Be kind. "))))
    = Ok fields ∧
    promptValue (body_systemPrompt fields) = Ok value ∧
    value = Some (js "Be kind.").
Proof.
  destruct (prompt_page_save
              (Cases.request "42"
                 (useGuildConfig.prompt_body (PromptPage.promptToSave (js "  Be kind. "))))
              Scenario.record42 (js "  Be kind. ") eq_refl)
    as (fields & value & Hfields & Hvalue & _ & _ & Htext & _).
  exists fields, value. split; [exact Hfields|]. split; [exact Hvalue|].
  rewrite Htext.
  - by vm_compute.
  - by vm_compute.
  - intros Hblank%trim_blank. by vm_compute in Hblank.
Defined.

(** X25.  For a commands change, the record the hook shows optimistically
    carries the commands the server goes on to answer with: for the stored
    record as cached data, a PUT answered 200 returns the commands of the
    optimistic record. *)
Theorem optimistic_commands_match_server (env : Env) (request : Request)
    (token guildName : jsstring) (w w' : World) (data : GuildConfig.t)
    (commands : PartialCommands.t) (response : Response) :
  session_token request = Some token →
  verifyAccess env (guildId request) token = Ok (Granted guildName) →
  stored_config env (guildId request) w = Some data →
  body request = useGuildConfig.commands_body commands →
  CommandsRoute.PUT env request w = (Ok response, w') →
  status response = 200 →
  payload response
  = CommandsBody
      (GuildConfig.commands (useGuildConfig.optimistic_commands data commands)).
Proof.
  intros Hs Hv Hstored Hbody.
  assert (Hrun :
            (∃ w1, updateGuildCommands env (guildId request) guildName (Some commands)
                     (session_user_id request) w
                   = (Ok (updated (SetCommands (Some commands)) (clock env (ticks w))
                            (session_user_id request) data), w1)) ∨
            (∃ e w1, updateGuildCommands env (guildId request) guildName
                       (Some commands) (session_user_id request) w
                     = (Throw e, w1))).
  { destruct (save_permitted_dec env (GuildConfig.guildId data) w) as [Hperm|Hperm].
    - left. eexists.
      by apply (run_update_existing env (guildId request) guildName
                  (SetCommands (Some commands))).
    - right.
      pose proof (run_update_refused env (guildId request) guildName
                    (SetCommands (Some commands)) (session_user_id request) w)
        as Hno.
      rewrite (loaded_existing env _ _ w data Hstored) in Hno.
      destruct (Hno Hperm) as (w1 & Hrun & _). by eexists _, w1. }
  change (CommandsRoute.PUT env request w) with (handle env PutCommands request w).
  rewrite (handle_granted env PutCommands request token guildName w Hs Hv).
  unfold operation, bind at 1, lift at 1, request_fields. rewrite Hbody. simpl.
  destruct Hrun as [[w1 H]|(e & w1 & H)]; unfold bind; rewrite H; simpl.
  - by intros [= <- <-] _.
  - intros [= <- <-]. simpl. lia.
Qed.

Lemma optimistic_commands_match_server_witness :
  ∃ w',
    CommandsRoute.PUT Scenario.env
      (Cases.request "42"
         (useGuildConfig.commands_body (CommandsPage.only CommandsPage.Ping false)))
      Scenario.configured
    = (Ok {| status := 200;
             payload :=
               CommandsBody
                 (GuildConfig.commands
                    (useGuildConfig.optimistic_commands Scenario.record42
                       (CommandsPage.only CommandsPage.Ping false))) |}, w').
Proof.
  destruct (CommandsRoute.PUT Scenario.env
              (Cases.request "42"
                 (useGuildConfig.commands_body
                    (CommandsPage.only CommandsPage.Ping false)))
              Scenario.configured) as [[[st body]|e] w'] eqn:Hrun;
    [|by vm_compute in Hrun].
  assert (Hst : st = 200).
  { vm_compute in Hrun. by injection Hrun as <- _ _. }
  subst st.
  pose proof (optimistic_commands_match_server Scenario.env
                (Cases.request "42"
                   (useGuildConfig.commands_body
                      (CommandsPage.only CommandsPage.Ping false)))
                (js "user-token") (js "Test Guild") Scenario.configured w'
                Scenario.record42 (CommandsPage.only CommandsPage.Ping false)
                {| status := 200; payload := body |}
                eq_refl Scenario_granted_42 Scenario_configured_stored eq_refl
                Hrun eq_refl) as Hmatch.
  simpl in Hmatch. subst body. by exists w'.
Defined.

Lemma enabled_spread_only (key other : CommandsPage.Command) (value : bool)
    (commands : GuildCommands.t) :
  CommandsPage.enabled other
    (spread_commands commands (CommandsPage.only key value))
  = if decide (other = key) then value else CommandsPage.enabled other commands.
Proof.
  case_decide as Heq; [subst; by destruct key|].
  by destruct key, other.
Qed.

(** X26.  The switch of the commands page flips the command it belongs to
    and no other: sent through [updateGuildCommands] for the stored record
    (the write permitted), the toggle negates that command, leaves the other
    four, the settings and the prompt as they were; and toggling the same
    command again, from the record just stored, restores the commands. *)
Theorem toggle_flips_one_command (env : Env) (id name actor : jsstring)
    (key : CommandsPage.Command) (w : World) (prior : GuildConfig.t) :
  stored_config env id w = Some prior →
  GuildConfig.guildId prior = id →
  save_permitted env id w →
  ∃ after w1 again w2,
    updateGuildCommands env id name (Some (CommandsPage.toggle key prior)) actor w
    = (Ok after, w1) ∧
    CommandsPage.enabled key (GuildConfig.commands after)
    = negb (CommandsPage.enabled key (GuildConfig.commands prior)) ∧
    (∀ other, other ≠ key →
       CommandsPage.enabled other (GuildConfig.commands after)
       = CommandsPage.enabled other (GuildConfig.commands prior)) ∧
    GuildConfig.settings after = GuildConfig.settings prior ∧
    GuildConfig.systemPrompt after = GuildConfig.systemPrompt prior ∧
    stored_config env id w1 = Some after ∧
    updateGuildCommands env id name (Some (CommandsPage.toggle key after)) actor w1
    = (Ok again, w2) ∧
    GuildConfig.commands again = GuildConfig.commands prior.
Proof.
  intros Hstored Hid Hperm.
  destruct (run_update_twice env id name name actor actor
              (SetCommands (Some (CommandsPage.toggle key prior)))
              (SetCommands (Some (CommandsPage.toggle key
                 (updated (SetCommands (Some (CommandsPage.toggle key prior)))
                    (clock env (ticks w)) actor prior))))
              w prior Hstored Hid Hperm) as [H1 H2].
  simpl in H1, H2.
  eexists _, _, _, _. split; [exact H1|]. simpl.
  split; [|split; [|split; [done|split; [done|split; [|split; [exact H2|]]]]]].
  - unfold CommandsPage.toggle. rewrite enabled_spread_only. by case_decide.
  - intros other Hne. unfold CommandsPage.toggle. rewrite enabled_spread_only.
    by case_decide.
  - rewrite <- Hid at 1.
    apply (stored_with_config env
             (updated (SetCommands (Some (CommandsPage.toggle key prior)))
                (clock env (ticks w)) actor prior)).
  - simpl. destruct prior as [gid gname settings [b p u cs cc] prompt at_ by_].
    by destruct key, b, p, u, cs, cc.
Qed.

Lemma toggle_flips_one_command_witness :
  ∃ after w1 again w2,
    updateGuildCommands Scenario.env (js "42") (js "Test Guild")
      (Some (CommandsPage.toggle CommandsPage.Ping Scenario.record42)) (js "1001")
      Scenario.configured
    = (Ok after, w1) ∧
    GuildConfig.commands after
    = {| GuildCommands.beer := true; GuildCommands.ping := false;
         GuildCommands.uptime := true; GuildCommands.cacheStats := true;
         GuildCommands.clearCache := true |} ∧
    updateGuildCommands Scenario.env (js "42") (js "Test Guild")
      (Some (CommandsPage.toggle CommandsPage.Ping after)) (js "1001") w1
    = (Ok again, w2) ∧
    GuildConfig.commands again = DEFAULT_COMMANDS.
Proof.
  destruct (toggle_flips_one_command Scenario.env (js "42") (js "Test Guild")
              (js "1001") CommandsPage.Ping Scenario.configured Scenario.record42
              Scenario_configured_stored eq_refl (Scenario_configured_permitted _))
    as (after & w1 & again & w2 & Hrun1 & _ & _ & _ & _ & _ & Hrun2 & Hagain).
  exists after, w1, again, w2. split; [exact Hrun1|]. split.
  - vm_compute in Hrun1. by injection Hrun1 as <- _.
  - split; [exact Hrun2|exact Hagain].
Defined.

(** ** The sidebar *)

Lemma after_literal_app (lit rest : jsstring) :
  Sidebar.after_literal lit (lit ++ rest) = Some rest.
Proof.
  induction lit as [|x lit IH]; [by destruct rest|].
  simpl. by rewrite N.eqb_refl.
Qed.

Lemma digits_prefix_app (digits rest : jsstring) :
  Forall (λ c, Sidebar.isDigit c = true) digits →
  match rest with [] => True | c :: _ => Sidebar.isDigit c = false end →
  Sidebar.digits_prefix (digits ++ rest) = digits.
Proof.
  intros Hdigits Hrest. induction Hdigits as [|c digits Hc _ IH]; simpl.
  - destruct rest as [|c rest]; [done|]. simpl. by rewrite Hrest.
  - by rewrite Hc, IH.
Qed.

Lemma guildId_of_here (s guildId : jsstring) :
  Sidebar.match_here s = Some guildId → Sidebar.guildId_of s = Some guildId.
Proof. destruct s; cbn [Sidebar.guildId_of]; by intros ->. Qed.

Lemma guildId_of_href (guildId rest : jsstring) :
  guildId ≠ [] →
  Forall (λ c, Sidebar.isDigit c = true) guildId →
  match rest with [] => True | c :: _ => Sidebar.isDigit c = false end →
  Sidebar.guildId_of (js "/dashboard/guild/" ++ guildId ++ rest) = Some guildId.
Proof.
  intros Hne Hdigits Hrest. apply guildId_of_here.
  unfold Sidebar.match_here. rewrite after_literal_app.
  rewrite (digits_prefix_app guildId rest Hdigits Hrest).
  by destruct guildId.
Qed.

Lemma filter_isActive_absent (pathname : jsstring) (l : list jsstring) :
  pathname ∉ l → List.filter (Sidebar.isActive pathname) l = [].
Proof.
  induction l as [|x l IH]; [done|]. intros Hnot. simpl.
  unfold Sidebar.isActive at 1. rewrite bool_decide_eq_false_2 by set_solver.
  apply IH. set_solver.
Qed.

Lemma filter_isActive_present (pathname : jsstring) (l : list jsstring) :
  NoDup l → pathname ∈ l → List.filter (Sidebar.isActive pathname) l = [pathname].
Proof.
  induction 1 as [|x l Hx Hnd IH]; intros Hin; [by apply elem_of_nil in Hin|].
  simpl. unfold Sidebar.isActive at 1.
  destruct (decide (pathname = x)) as [->|Hne].
  - rewrite bool_decide_eq_true_2 by done. f_equal.
    by apply filter_isActive_absent.
  - rewrite bool_decide_eq_false_2 by done. apply IH.
    by apply elem_of_cons in Hin as [?|?].
Qed.

Lemma NoDup_map_inj {A B} (f : A → B) (l : list A) :
  (∀ x y, f x = f y → x = y) → NoDup l → NoDup (map f l).
Proof.
  intros Hinj. induction 1 as [|x l Hx Hnd IH]; simpl; constructor; [|done].
  intros (y & Hy & Hin)%list_elem_of_In%in_map_iff. apply Hinj in Hy. subst.
  by apply list_elem_of_In in Hin.
Qed.

Lemma hrefs_as_map (guildId : jsstring) :
  Sidebar.hrefs guildId
  = map (λ suffix, js "/dashboard/guild/" ++ guildId ++ suffix)
        [[]; js "/config"; js "/commands"; js "/prompt"; js "/stats"].
Proof. unfold Sidebar.hrefs. cbn [map]. by rewrite app_nil_r. Qed.

Lemma hrefs_NoDup (guildId : jsstring) : NoDup (Sidebar.hrefs guildId).
Proof.
  rewrite hrefs_as_map. apply NoDup_map_inj.
  - intros a b H. by apply app_inv_head in H; apply app_inv_head in H.
  - repeat constructor; vm_compute;
      intros H; repeat (apply elem_of_cons in H as [H|H]; [discriminate|]);
      by apply elem_of_nil in H.
Qed.

(** X27.  The sidebar finds its guild again: on each of the five pages of a
    guild with a numeric identifier, the identifier it reads out of the path
    is that guild's, the navigation items are the five links of that guild,
    and exactly one of them, the page's own, is active. *)
Theorem sidebar_recovers_guild (guildId pathname : jsstring) :
  guildId ≠ [] →
  Forall (λ c, Sidebar.isDigit c = true) guildId →
  pathname ∈ Sidebar.hrefs guildId →
  Sidebar.guildId_of pathname = Some guildId ∧
  Sidebar.navItems pathname = Sidebar.hrefs guildId ∧
  List.filter (Sidebar.isActive pathname) (Sidebar.navItems pathname) = [pathname].
Proof.
  intros Hne Hdigits Hin.
  assert (Hid : Sidebar.guildId_of pathname = Some guildId).
  { rewrite hrefs_as_map in Hin. apply list_elem_of_In, in_map_iff in Hin
      as (suffix & <- & Hsuffix).
    apply guildId_of_href; [done..|].
    repeat (destruct Hsuffix as [<-|Hsuffix]; [done|]). done. }
  split; [done|]. unfold Sidebar.navItems. rewrite Hid. split; [done|].
  apply filter_isActive_present; [apply hrefs_NoDup|done].
Qed.

Lemma sidebar_recovers_guild_witness :
  Sidebar.guildId_of (js "/dashboard/guild/42/prompt") = Some (js "42") ∧
  Sidebar.navItems (js "/dashboard/guild/42/prompt") = Sidebar.hrefs (js "42") ∧
  List.filter (Sidebar.isActive (js "/dashboard/guild/42/prompt"))
    (Sidebar.navItems (js "/dashboard/guild/42/prompt"))
  = [js "/dashboard/guild/42/prompt"].
Proof.
  apply (sidebar_recovers_guild (js "42") (js "/dashboard/guild/42/prompt")).
  - discriminate.
  - repeat constructor.
  - apply list_elem_of_In. right; right; right; left. reflexivity.
Defined.

(** ** The stats reader and the permission strings Discord sends *)

(** X28.  The counters reported for a guild depend on that guild's entry
    only: adding or replacing the entry of another guild in the artifact
    changes nothing in what [getGuildStats] returns for this one. *)
Theorem stats_of_other_guilds_irrelevant (id other : jsstring) (entry : JsValue)
    (top guilds : gmap jsstring JsValue) (w : World) :
  id ≠ other →
  stats_file w = Some (Json (JObject top)) →
  top !! js "guilds" = Some (JObject guilds) →
  fst (getGuildStats id
         (mkWorld (config_files w)
            (Some (Json (JObject
               (<[js "guilds" := JObject (<[other := entry]> guilds)]> top))))
            (denied w) (ticks w)))
  = fst (getGuildStats id w).
Proof.
  intros Hne Hfile Hguilds.
  unfold getGuildStats, bind. rewrite !getBotStats_run. simpl. rewrite Hfile.
  simpl. unfold ret. simpl. rewrite lookup_insert_eq, Hguilds. simpl.
  rewrite (lookup_insert_ne guilds other id entry) by done.
  rewrite !(lookup_insert_ne top (js "guilds")) by discriminate.
  done.
Qed.

Lemma stats_of_other_guilds_irrelevant_witness :
  fst (getGuildStats (js "7")
         (mkWorld None
            (Some (Json (JObject
               (<[js "guilds" :=
                    JObject (<[js "42" := JObject ∅]>
                               (list_to_map
                                  [ (js "7",
                                     JObject (list_to_map
                                       [ (js "messagesCached", JNumber (12 # 1)%Q);
                                         (js "tokensUsed", JNumber (3400 # 1)%Q);
                                         (js "lastActivity",
                                          JString (js "2026-01-01T00:00:00.000Z")) ])) ]))]>
                  (list_to_map
                     [ (js "uptime", JString (js "3 days"));
                       (js "latency", JNumber (42 # 1)%Q);
                       (js "totalGuilds", JNumber (1 # 1)%Q);
                       (js "guilds",
                        JObject (list_to_map
                          [ (js "7",
                             JObject (list_to_map
                               [ (js "messagesCached", JNumber (12 # 1)%Q);
                                 (js "tokensUsed", JNumber (3400 # 1)%Q);
                                 (js "lastActivity",
                                  JString (js "2026-01-01T00:00:00.000Z")) ])) ]));
                       (js "updatedAt", JString (js "2026-01-01T00:00:00.000Z")) ])))))
            ∅ 0))
  = fst (getGuildStats (js "7") Scenario.with_stats).
Proof.
  refine (stats_of_other_guilds_irrelevant (js "7") (js "42") (JObject ∅) _ _
            Scenario.with_stats _ eq_refl _).
  - discriminate.
  - by vm_compute.
Defined.

Lemma digit_not_white_space (c : N) :
  Sidebar.isDigit c = true → isWhiteSpace c = false.
Proof.
  unfold Sidebar.isDigit. intros [Hlo Hhi]%andb_true_iff.
  apply N.leb_le in Hlo, Hhi. unfold isWhiteSpace.
  repeat match goal with
         | |- context [N.eqb c ?k] =>
             destruct (N.eqb_spec c k) as [->|_]; [lia|]
         end.
  destruct (N.leb_spec 8192 c); [lia|done].
Qed.

Lemma trim_digits (s : jsstring) :
  Forall (λ c, Sidebar.isDigit c = true) s → trim s = s.
Proof.
  intros Hdigits. unfold trim, trimEnd.
  assert (Hfixed : ∀ l, Forall (λ c, Sidebar.isDigit c = true) l → trimStart l = l).
  { intros l Hl. apply trimStart_fixed. destruct Hl as [|c l Hc _]; [done|].
    by apply digit_not_white_space. }
  rewrite (Hfixed s Hdigits), Hfixed; [apply rev_involutive|].
  apply Forall_forall. intros c Hc. rewrite Forall_forall in Hdigits.
  apply Hdigits. apply list_elem_of_In, in_rev. by apply list_elem_of_In.
Qed.

Lemma digits_value_digits (s : jsstring) (acc : Z) :
  Forall (λ c, Sidebar.isDigit c = true) s → 0 <= acc →
  ∃ n, digits_value 10 acc s = Some n ∧ 0 <= n.
Proof.
  intros Hdigits. revert acc. induction Hdigits as [|c s Hc _ IH]; intros acc Hacc.
  - by exists acc.
  - simpl. unfold Sidebar.isDigit in Hc. unfold digit_value. rewrite Hc.
    apply andb_true_iff in Hc as [Hlo Hhi]. apply N.leb_le in Hlo, Hhi.
    destruct (Z.ltb_spec (Z.of_N (c - 48)) 10); [|lia].
    apply IH. lia.
Qed.

(** X29.  The permission strings Discord sends never make the access check
    throw: a string of decimal digits (the empty one included) is accepted
    by [BigInt] with a non-negative value, so [canManageGuild] returns for
    it. *)
Theorem decimal_permissions_are_numeric (guild : DiscordGuild.t) :
  Forall (λ c, Sidebar.isDigit c = true) (DiscordGuild.permissions guild) →
  ∃ permissions,
    StringToBigInt (DiscordGuild.permissions guild) = Some permissions ∧
    0 <= permissions ∧
    canManageGuild guild
    = Ok (DiscordGuild.owner guild
          || (Z.land permissions ADMINISTRATOR =? ADMINISTRATOR)
          || (Z.land permissions MANAGE_GUILD =? MANAGE_GUILD)).
Proof.
  intros Hdigits.
  assert (Hparse : ∃ n, StringToBigInt (DiscordGuild.permissions guild) = Some n
                        ∧ 0 <= n).
  { unfold StringToBigInt. rewrite (trim_digits _ Hdigits).
    destruct (DiscordGuild.permissions guild) as [|c rest] eqn:Hs;
      [by exists 0|].
    pose proof Hdigits as Hall.
    apply Forall_cons in Hdigits as [Hc Hrest].
    pose proof Hc as Hrange. unfold Sidebar.isDigit in Hrange.
    apply andb_true_iff in Hrange as [Hlo Hhi]. apply N.leb_le in Hlo, Hhi.
    destruct (N.eqb_spec c 43); [lia|]. destruct (N.eqb_spec c 45); [lia|].
    assert (Hprefix : (if (c =? 48)%N then head rest ≫= radix_of_prefix else None)
                      = None).
    { destruct (c =? 48)%N; [|done]. destruct rest as [|d rest]; [done|]. simpl.
      apply Forall_cons in Hrest as [Hd _]. unfold Sidebar.isDigit in Hd.
      apply andb_true_iff in Hd as [Hdlo Hdhi]. apply N.leb_le in Hdlo, Hdhi.
      unfold radix_of_prefix.
      repeat match goal with
             | |- context [N.eqb d ?k] =>
                 destruct (N.eqb_spec d k) as [->|_]; [lia|]
             end.
      done. }
    rewrite Hprefix. unfold parse_digits.
    by apply digits_value_digits. }
  destruct Hparse as (n & Hn & Hpos). exists n. split; [done|]. split; [done|].
  unfold canManageGuild, BigInt. by rewrite Hn.
Qed.

Lemma decimal_permissions_are_numeric_witness :
  ∃ permissions,
    StringToBigInt (js "2147483647") = Some permissions ∧
    0 <= permissions ∧
    canManageGuild (Scenario.guild "3" "Three" false "2147483647")
    = Ok (false
          || (Z.land permissions ADMINISTRATOR =? ADMINISTRATOR)
          || (Z.land permissions MANAGE_GUILD =? MANAGE_GUILD)).
Proof.
  refine (decimal_permissions_are_numeric
            (Scenario.guild "3" "Three" false "2147483647") _).
  repeat constructor.
Defined.

(** ** Isolation between guilds *)

Lemma same_files_config_file (env : Env) (id : jsstring) (w w' : World) :
  same_files w w' → config_file env id w' = config_file env id w.
Proof. intros (Hf & _ & _). apply Hf. Qed.

Lemma getOrCreate_other_files (env : Env) (id name id' : jsstring) (w : World) :
  config_path env id' ≠ config_path env id →
  config_file env id' (snd (getOrCreateGuildConfig env id name w))
  = config_file env id' w ∧
  stats_file (snd (getOrCreateGuildConfig env id name w)) = stats_file w.
Proof.
  intros Hne. destruct (stored_config env id w) as [c|] eqn:Hstored.
  - by rewrite (getOrCreate_existing env id name w c Hstored).
  - destruct (save_permitted_dec env id w) as [Hperm|Hperm].
    + rewrite (getOrCreate_created env id name w Hstored Hperm). simpl.
      split; [|done].
      by rewrite (config_file_with_config_ne env
                    (default_config id name (clock env (ticks w))) id' (tick w)).
    + destruct (getOrCreate_refused env id name w Hstored Hperm)
        as (w' & -> & Hsame). simpl.
      split; [by apply same_files_config_file|by destruct Hsame as (_ & ? & _)].
Qed.

Lemma loaded_path (env : Env) (id name : jsstring) (w : World) :
  well_filed env w →
  config_path env (GuildConfig.guildId (fst (loaded env id name w)))
  = config_path env id.
Proof.
  intros Hw. unfold loaded.
  destruct (stored_config env id w) as [c|] eqn:Hstored; simpl; [|done].
  by apply Hw.
Qed.

Lemma loaded_other_files (env : Env) (id name id' : jsstring) (w : World) :
  config_path env id' ≠ config_path env id →
  config_file env id' (snd (loaded env id name w)) = config_file env id' w ∧
  stats_file (snd (loaded env id name w)) = stats_file w.
Proof.
  intros Hne. unfold loaded. destruct (stored_config env id w); simpl; [done|].
  split; [|done].
  by rewrite (config_file_with_config_ne env
                (default_config id name (clock env (ticks w))) id' (tick w)).
Qed.

Lemma run_update_other_files (env : Env) (id name : jsstring) (update : Update)
    (actor id' : jsstring) (w : World) :
  well_filed env w →
  config_path env id' ≠ config_path env id →
  config_file env id' (snd (run_update env id name update actor w))
  = config_file env id' w ∧
  stats_file (snd (run_update env id name update actor w)) = stats_file w.
Proof.
  intros Hw Hne.
  pose proof (loaded_path env id name w Hw) as Hpath.
  destruct (loaded_other_files env id name id' w Hne) as [Hfiles Hstats].
  destruct (save_permitted_dec env
              (GuildConfig.guildId (fst (loaded env id name w))) w) as [Hperm|Hperm].
  - rewrite (run_update_permitted env id name update actor w Hperm). simpl.
    split; [|exact Hstats].
    rewrite config_file_with_config_ne; [exact Hfiles|].
    simpl. by rewrite Hpath.
  - destruct (run_update_refused env id name update actor w Hperm)
      as (w' & -> & Hsame). simpl.
    split; [by apply same_files_config_file|by destruct Hsame as (_ & ? & _)].
Qed.

Lemma operation_other_files (env : Env) (endpoint : Endpoint) (request : Request)
    (guildName id' : jsstring) (w : World) :
  well_filed env w →
  config_path env id' ≠ config_path env (guildId request) →
  config_file env id' (snd (operation env endpoint request guildName w))
  = config_file env id' w ∧
  stats_file (snd (operation env endpoint request guildName w)) = stats_file w.
Proof.
  intros Hw Hne.
  pose proof (getOrCreate_other_files env (guildId request) guildName id' w Hne)
    as Hget.
  assert (Hupd : ∀ update,
            config_file env id'
              (snd (run_update env (guildId request) guildName update
                      (session_user_id request) w))
            = config_file env id' w ∧
            stats_file
              (snd (run_update env (guildId request) guildName update
                      (session_user_id request) w))
            = stats_file w)
    by (intros; by apply run_update_other_files).
  destruct endpoint; unfold operation, bind, lift, ret.
  - by destruct (getOrCreateGuildConfig _ _ _ _) as [[]].
  - destruct (request_fields request) as [fields|]; [|done].
    specialize (Hupd (SetSettings (body_settings fields))). simpl in Hupd.
    by destruct (updateGuildSettings _ _ _ _ _ _) as [[]].
  - by destruct (getOrCreateGuildConfig _ _ _ _) as [[]].
  - destruct (request_fields request) as [fields|]; [|done].
    specialize (Hupd (SetCommands (body_commands fields))). simpl in Hupd.
    by destruct (updateGuildCommands _ _ _ _ _ _) as [[]].
  - by destruct (getOrCreateGuildConfig _ _ _ _) as [[]].
  - destruct (request_fields request) as [fields|]; [|done].
    destruct (promptValue _) as [value|]; [|done].
    specialize (Hupd (SetPrompt value)). simpl in Hupd.
    by destruct (updateGuildPrompt _ _ _ _ _ _) as [[]].
  - pose proof (getGuildStats_world (guildId request) w) as Hstats.
    destruct (getGuildStats _ _) as [[]]; simpl in *; by subst.
Qed.

(** X30.  A request reaches the file of its own guild only.  With every
    stored record in the file its own [guildId] names, whatever a
    guild-scoped endpoint does with a request and whatever it answers, the
    file of a guild kept at another path and the stats artifact are as they
    were. *)
Theorem requests_touch_own_file (env : Env) (endpoint : Endpoint)
    (request : Request) (id : jsstring) (w : World) :
  well_filed env w →
  config_path env id ≠ config_path env (guildId request) →
  config_file env id (snd (handle env endpoint request w)) = config_file env id w ∧
  stats_file (snd (handle env endpoint request w)) = stats_file w.
Proof.
  intros Hw Hne.
  destruct (session_token request) as [token|] eqn:Hs.
  - destruct (verifyAccess env (guildId request) token) as [[|guildName]|e] eqn:Hv.
    + by rewrite (handle_denied env endpoint request token w Hs Hv).
    + rewrite (handle_granted env endpoint request token guildName w Hs Hv).
      pose proof (operation_other_files env endpoint request guildName id w Hw Hne)
        as Hop.
      by destruct (operation _ _ _ _ _) as [[]].
    + by rewrite (handle_verification_throws env endpoint request token e w Hs Hv).
  - by rewrite (handle_unauthenticated env endpoint request w Hs).
Qed.

Lemma Scenario_configured_well_filed : well_filed Scenario.env Scenario.configured.
Proof.
  apply (well_filed_with_config Scenario.env Scenario.record42 (tick Scenario.fresh)).
  intros id config. discriminate.
Qed.

(** A settings update for guild 7 is stored, and the record of guild 42 is
    the one it was. *)
Lemma requests_touch_own_file_witness :
  config_file Scenario.env (js "42")
    (snd (handle Scenario.env PutConfig
            (Scenario.put "7" (Scenario.fields_settings Scenario.only_temperature))
            Scenario.configured))
  = Some (JSON_stringify Scenario.record42) ∧
  GuildSettings.temperature <$>
    (GuildConfig.settings <$>
       stored_config Scenario.env (js "7")
         (snd (handle Scenario.env PutConfig
                 (Scenario.put "7" (Scenario.fields_settings Scenario.only_temperature))
                 Scenario.configured)))
  = Some (1 # 2)%Q.
Proof.
  split; [|by vm_compute].
  destruct (requests_touch_own_file Scenario.env PutConfig
              (Scenario.put "7" (Scenario.fields_settings Scenario.only_temperature))
              (js "42") Scenario.configured Scenario_configured_well_filed)
    as [Hfile _]; [by vm_compute|].
  rewrite Hfile. by vm_compute.
Defined.
